(** * SDRB: claim normalisation, record verification and suspicion scoring

    A shallow embedding of the Python sources of the SDRB repository

      - [src/ai/email_parser_llm.py]   (module [EmailParser])
      - [src/agents/extractor.py]      (module [Extractor])
      - [src/agents/verifier.py]       (module [Verifier])
      - [src/agents/scorer.py]         (module [Scorer])
      - [src/agents/extractor_agent.py] (module [ExtractorAgent])
      - [runner.py]                    (module [Runner])

    Python values are a small universe [pyval]; dictionaries received from
    callers are finite maps from keys to [pyval]; Python [float] is IEEE-754
    binary64, embedded as Rocq's primitive floats; text is a [string] whose
    characters are read as the code points U+0000..U+00FF; exceptions are
    results of type [res]. *)

From Stdlib Require Import ZArith Lia List Bool Ascii String Floats.
From stdpp Require Import gmap strings.

Set Warnings "-inexact-float".
#[local] Open Scope string_scope.
#[local] Open Scope list_scope.
#[local] Open Scope Z_scope.

(* ===================================================================== *)
(** ** Python values, exceptions and the builtins the sources use        *)
(* ===================================================================== *)

Module Py.

(** The values a decoded JSON document or a keyword argument can hold.
    A nested dict keeps its insertion order, as Python's does. *)
Inductive pyval :=
| VNone
| VBool (b : bool)
| VInt (z : Z)
| VFloat (f : float)
| VStr (s : string)
| VList (l : list pyval)
| VDict (d : list (string * pyval)).

(** The exception classes that can arise in the modelled code. *)
Inductive pyexn :=
| ValueError
| TypeError
| OverflowError
| AttributeError
| RuntimeError (msg : string)
| DatabaseError.

(** A computation that returns or raises. *)
Inductive res (A : Type) :=
| Ok (a : A)
| Raise (e : pyexn).
Arguments Ok {A} a.
Arguments Raise {A} e.

#[export] Instance res_ret : MRet res := fun _ a => Ok a.
#[export] Instance res_bind : MBind res := fun _ _ f m =>
  match m with Ok a => f a | Raise e => Raise e end.

Definition is_ok {A} (r : res A) : bool :=
  match r with Ok _ => true | Raise _ => false end.

(** [try: ... except Exception: ...] around an expression. *)
Definition catch {A} (r : res A) (handler : A) : A :=
  match r with Ok a => a | Raise _ => handler end.

(** Builtins of the interpreter that the sources call on arbitrary text and
    that are left uninterpreted: [float(s)] for a string [s] ([None] when it
    raises [ValueError]) and [hashlib.sha256(b).hexdigest()]. *)
Class Builtins := {
  str_to_float : string -> option float;
  sha256_hexdigest : string -> string
}.

(** *** Truth value testing *)

Definition truthy (v : pyval) : bool :=
  match v with
  | VNone => false
  | VBool b => b
  | VInt z => negb (z =? 0)
  | VFloat f => negb (f =? 0)%float
  | VStr s => negb (String.eqb s "")
  | VList l => match l with [] => false | _ :: _ => true end
  | VDict d => match d with [] => false | _ :: _ => true end
  end.

(** [a or b] *)
Definition py_or (a b : pyval) : pyval := if truthy a then a else b.

(** [d.get(k)] and [d.get(k, dflt)] *)
Definition get (d : gmap string pyval) (k : string) : pyval :=
  default VNone (d !! k).
Definition get_or (d : gmap string pyval) (k : string) (dflt : pyval) : pyval :=
  default dflt (d !! k).

(** *** Floats *)

(** [float(n)] for an [int]: the nearest binary64 (ties to even), or
    [OverflowError] when the integer is too large. *)
Definition int_to_float (z : Z) : res float :=
  match binary_normalize prec emax z 0 false with
  | S754_infinity _ => Raise OverflowError
  | sf => Ok (SF2Prim sf)
  end.

(** [float(v)] *)
Definition py_float `{Builtins} (v : pyval) : res float :=
  match v with
  | VFloat f => Ok f
  | VBool b => Ok (if b then 1 else 0)%float
  | VInt z => int_to_float z
  | VStr s => match str_to_float s with Some f => Ok f | None => Raise ValueError end
  | VNone | VList _ | VDict _ => Raise TypeError
  end.

(** Two-argument [min] and [max]: the first argument is kept unless the
    second compares strictly below (above) it, so a NaN second argument
    never replaces the first. *)
Definition py_min (a b : float) : float := if (b <? a)%float then b else a.
Definition py_max (a b : float) : float := if (a <? b)%float then b else a.

(** [a >= b] on floats *)
Definition fge (a b : float) : bool := (b <=? a)%float.
(** [a > b] on floats *)
Definition fgt (a b : float) : bool := (b <? a)%float.

(** Quotient of [n] by [d > 0] rounded to the nearest integer, ties to the
    even one. *)
Definition round_half_even_div (n d : Z) : Z :=
  let q := n / d in
  match 2 * (n mod d) ?= d with
  | Lt => q
  | Gt => q + 1
  | Eq => if Z.even q then q else q + 1
  end.

(** The exact value [m * 2^e] times 1000, rounded to an integer. *)
Definition milli (m : positive) (e : Z) : Z :=
  if 0 <=? e then Z.pos m * 1000 * 2 ^ e
  else round_half_even_div (Z.pos m * 1000) (2 ^ (- e)).

(** The binary64 nearest to the fraction [±n/d]. *)
Definition float_of_ratio (s : bool) (n : Z) (d : positive) : float :=
  match n with
  | Z.pos p => SF2Prim (SF64div (S754_finite s p 0) (S754_finite false d 0))
  | _ => SF2Prim (S754_zero s)
  end.

(** [round(x, 3)]: CPython rounds the exact binary value of [x] to three
    decimals (ties to even) and returns the binary64 nearest to that
    decimal; infinities and NaN round to themselves. *)
Definition round3 (x : float) : float :=
  match Prim2SF x with
  | S754_finite s m e => float_of_ratio s (milli m e) 1000
  | _ => x
  end.

(** *** Strings (characters are the code points below 256) *)

Definition code (c : ascii) : N := N_of_ascii c.

Definition between (lo hi : N) (c : ascii) : bool :=
  ((lo <=? code c) && (code c <=? hi))%N.

(** [c.isspace()] and the class [\s] *)
Definition is_space (c : ascii) : bool :=
  between 9 13 c || between 28 32 c || (code c =? 133)%N || (code c =? 160)%N.

(** the class [\d] and [[0-9]] *)
Definition is_digit (c : ascii) : bool := between 48 57 c.

Definition is_ascii_upper (c : ascii) : bool := between 65 90 c.
Definition is_ascii_lower (c : ascii) : bool := between 97 122 c.

(** upper-case letters of U+00C0..U+00DE (the multiplication sign excluded) *)
Definition is_latin_upper (c : ascii) : bool :=
  between 192 222 c && negb (code c =? 215)%N.
(** lower-case letters of U+00E0..U+00FE (the division sign excluded) *)
Definition is_latin_lower (c : ascii) : bool :=
  between 224 254 c && negb (code c =? 247)%N.

(** the class [\w]: alphanumeric characters and the underscore *)
Definition is_word (c : ascii) : bool :=
  is_digit c || is_ascii_upper c || is_ascii_lower c || (code c =? 95)%N
  || is_latin_upper c || between 223 246 c || between 248 255 c
  || (code c =? 170)%N || (code c =? 181)%N || (code c =? 186)%N
  || between 178 179 c || (code c =? 185)%N || between 188 190 c.

Definition lower_char (c : ascii) : ascii :=
  if is_ascii_upper c || is_latin_upper c then ascii_of_N (code c + 32) else c.

(** Upper-casing of a character whose upper case is a single code point
    below 256 (every character but U+00B5, U+00DF and U+00FF, which are
    left as they are; the sources upper-case only text matched by a
    pattern that excludes them). *)
Definition upper_char (c : ascii) : ascii :=
  if is_ascii_lower c || is_latin_lower c then ascii_of_N (code c - 32) else c.

Fixpoint smap (f : ascii -> ascii) (s : string) : string :=
  match s with
  | EmptyString => EmptyString
  | String c s' => String (f c) (smap f s')
  end.

(** [s.lower()], [s.upper()] *)
Definition lower (s : string) : string := smap lower_char s.
Definition upper (s : string) : string := smap upper_char s.

(** [s.startswith(p)] *)
Fixpoint startswith (s p : string) {struct p} : bool :=
  match p, s with
  | EmptyString, _ => true
  | String a p', String b s' => Ascii.eqb a b && startswith s' p'
  | String _ _, EmptyString => false
  end.

(** [s.endswith(p)] *)
Definition endswith (s p : string) : bool :=
  let n := String.length s in
  let k := String.length p in
  (k <=? n)%nat && String.eqb (substring (n - k) k s) p.

(** [p in s] for strings *)
Fixpoint contains (s p : string) : bool :=
  startswith s p ||
  match s with
  | EmptyString => false
  | String _ s' => contains s' p
  end.

(** [s.replace(old, new)] for a one-character [old] *)
Fixpoint replace_char (old : ascii) (new : string) (s : string) : string :=
  match s with
  | EmptyString => EmptyString
  | String c s' =>
      if Ascii.eqb c old then String.append new (replace_char old new s')
      else String c (replace_char old new s')
  end.

Fixpoint drop (n : nat) (s : string) : string :=
  match n, s with
  | O, _ => s
  | S n', String _ s' => drop n' s'
  | S _, EmptyString => EmptyString
  end.

(** [s.replace(old, new)] for a non-empty [old]: occurrences are replaced
    left to right without overlap. [fuel] bounds the scan by the length. *)
Fixpoint replace_fuel (fuel : nat) (old new s : string) : string :=
  match fuel with
  | O => s
  | S fuel' =>
      match s with
      | EmptyString => EmptyString
      | String c s' =>
          if startswith s old
          then String.append new (replace_fuel fuel' old new (drop (String.length old) s))
          else String c (replace_fuel fuel' old new s')
      end
  end.
Definition replace (old new s : string) : string :=
  replace_fuel (String.length s) old new s.

Fixpoint lstrip (s : string) : string :=
  match s with
  | String c s' => if is_space c then lstrip s' else s
  | EmptyString => EmptyString
  end.

Fixpoint srev_acc (s acc : string) : string :=
  match s with
  | EmptyString => acc
  | String c s' => srev_acc s' (String c acc)
  end.
Definition srev (s : string) : string := srev_acc s EmptyString.

(** [s.strip()] *)
Definition strip (s : string) : string := srev (lstrip (srev (lstrip s))).

(** [s[:n]] *)
Definition prefix (n : nat) (s : string) : string := substring 0 n s.

(** Iterating a value, as [list.extend] does: a list yields its items, a
    string its characters, a dict its keys; other values are not
    iterable. *)
Fixpoint chars (s : string) : list pyval :=
  match s with
  | EmptyString => []
  | String c s' => VStr (String c EmptyString) :: chars s'
  end.
Definition py_iter (v : pyval) : res (list pyval) :=
  match v with
  | VList l => Ok l
  | VStr s => Ok (chars s)
  | VDict d => Ok (map (fun kv => VStr (fst kv)) d)
  | VNone | VBool _ | VInt _ | VFloat _ => Raise TypeError
  end.

End Py.
Export Py.

(* ===================================================================== *)
(** ** The order and the rounding of binary64, for the proofs            *)
(* ===================================================================== *)

Module F64.

(** The value of a binary64 in units of [2^-1074]; the infinities sit just
    above the largest finite value. *)
Definition top : Z := 2 ^ 2098.

Definition Zval (x : spec_float) : Z :=
  match x with
  | S754_zero _ | S754_nan => 0
  | S754_infinity s => cond_Zopp s top
  | S754_finite s m e => cond_Zopp s (Z.pos m * 2 ^ (e + 1074))
  end.

Definition is_nan_sf (x : spec_float) : bool :=
  match x with S754_nan => true | _ => false end.

(** Rounding of a non-negative integer number of units to 53 significant
    bits, ties to even, overflowing to [top]. *)
Definition rnd_pos (z : Z) : Z :=
  let n := Z.max 0 (Zdigits2 z - 53) in
  Z.min top (round_half_even_div z (2 ^ n) * 2 ^ n).

Definition rnd (z : Z) : Z :=
  match z with
  | Z0 => 0
  | Z.pos _ => rnd_pos z
  | Z.neg p => - rnd_pos (Z.pos p)
  end.

(** What the record holds after [k] shifts of [m0]: the quotient, whether
    the remainder reaches one half, and whether it is neither zero nor
    exactly one half. *)
Definition shifted (m0 k : Z) (r : shr_record) : Prop :=
  shr_m r = m0 / 2 ^ k
  /\ (shr_r r = true <-> 2 ^ k <= 2 * (m0 mod 2 ^ k))
  /\ (shr_s r = true <-> m0 mod 2 ^ k <> 0 /\ 2 * (m0 mod 2 ^ k) <> 2 ^ k).

Definition finite_sf (x : spec_float) : bool :=
  match x with S754_zero _ | S754_finite _ _ _ => true | _ => false end.

Definition fnan (x : float) : bool := is_nan_sf (Prim2SF x).

Definition fv (x : float) : Z := Zval (Prim2SF x).

Definition ffinite (x : float) : bool := finite_sf (Prim2SF x).

End F64.

(* ===================================================================== *)
(** ** Regular expressions of the [re] module                             *)
(* ===================================================================== *)

Module Re.

(** The fragment of the pattern language that the sources use. [Rep lo
    extra r] is the greedy [r{lo,lo+extra}], [Star r] the greedy [r*],
    [WordB] the assertion [\b] and [Grp i r] the capturing group number
    [i]. *)
Inductive regex :=
| Eps
| Chr (p : ascii -> bool)
| Cat (r1 r2 : regex)
| Alt (r1 r2 : regex)
| Rep (lo extra : nat) (r : regex)
| Star (r : regex)
| WordB
| Grp (i : nat) (r : regex).

(** A position in the subject: how many characters lie before it, the
    character just before it, the text after it, and the spans of the
    groups closed so far. *)
Record cursor := {
  pos : nat;
  prev : option ascii;
  rest : string;
  caps : list (nat * (nat * nat))
}.

Definition advance (c : ascii) (s : string) (st : cursor) : cursor :=
  {| pos := S (pos st); prev := Some c; rest := s; caps := caps st |}.

Definition word_before (st : cursor) : bool :=
  match prev st with Some c => is_word c | None => false end.
Definition word_after (st : cursor) : bool :=
  match rest st with String c _ => is_word c | EmptyString => false end.

(** [\b] holds where exactly one side is a word character. *)
Definition at_boundary (st : cursor) : bool :=
  xorb (word_before st) (word_after st).

Definition close_group (i : nat) (from : cursor) (st : cursor) : cursor :=
  {| pos := pos st; prev := prev st; rest := rest st;
     caps := (i, (pos from, pos st)) :: caps st |}.

(** The backtracking matcher, in continuation-passing style: alternatives
    are tried left to right and repetitions take as many iterations as
    they can before giving one back. *)
Fixpoint run (r : regex) (k : cursor -> option cursor) (st : cursor)
    : option cursor :=
  match r with
  | Eps => k st
  | Chr p =>
      match rest st with
      | String c s => if p c then k (advance c s st) else None
      | EmptyString => None
      end
  | Cat r1 r2 => run r1 (run r2 k) st
  | Alt r1 r2 =>
      match run r1 k st with
      | Some st' => Some st'
      | None => run r2 k st
      end
  | Rep lo extra r1 =>
      let fix may (n : nat) (st : cursor) : option cursor :=
        match n with
        | O => k st
        | S n' =>
            match run r1 (may n') st with
            | Some st' => Some st'
            | None => k st
            end
        end in
      let fix must (n : nat) (st : cursor) : option cursor :=
        match n with
        | O => may extra st
        | S n' => run r1 (must n') st
        end in
      must lo st
  | Star r1 =>
      let fix may (n : nat) (st : cursor) : option cursor :=
        match n with
        | O => k st
        | S n' =>
            match run r1 (may n') st with
            | Some st' => Some st'
            | None => k st
            end
        end in
      may (String.length (rest st)) st
  | WordB => if at_boundary st then k st else None
  | Grp i r1 => run r1 (fun st' => k (close_group i st st')) st
  end.

(** A match: its span in the subject and the spans of its groups. *)
Record rmatch := {
  m_start : nat;
  m_end : nat;
  m_caps : list (nat * (nat * nat))
}.

Definition match_at (r : regex) (st : cursor) : option rmatch :=
  match run r Some {| pos := pos st; prev := prev st; rest := rest st; caps := [] |} with
  | Some st' => Some {| m_start := pos st; m_end := pos st'; m_caps := caps st' |}
  | None => None
  end.

(** The leftmost match at or after a position. *)
Fixpoint search_from (r : regex) (fuel : nat) (st : cursor) : option rmatch :=
  match match_at r st with
  | Some m => Some m
  | None =>
      match fuel, rest st with
      | S fuel', String c s => search_from r fuel' (advance c s st)
      | _, _ => None
      end
  end.

Definition start_of (text : string) : cursor :=
  {| pos := 0; prev := None; rest := text; caps := [] |}.

(** [pattern.search(text)] *)
Definition search (r : regex) (text : string) : option rmatch :=
  search_from r (String.length text) (start_of text).

(** [m.group(0)] *)
Definition group0 (text : string) (m : rmatch) : string :=
  substring (m_start m) (m_end m - m_start m) text.

(** [m.group(i)], [None] when the group took no part in the match *)
Definition group (text : string) (m : rmatch) (i : nat) : option string :=
  match List.find (fun c => Nat.eqb (fst c) i) (m_caps m) with
  | Some (_, (a, b)) => Some (substring a (b - a) text)
  | None => None
  end.

(** The cursor at a given offset of the subject. *)
Fixpoint cursor_at (n : nat) (st : cursor) : cursor :=
  match n, rest st with
  | S n', String c s => cursor_at n' (advance c s st)
  | _, _ => st
  end.

(** [pattern.finditer(text)] for a pattern that matches no empty text:
    the successive matches, each searched from the end of the one
    before. *)
Fixpoint finditer_from (r : regex) (fuel : nat) (text : string) (from : nat)
    : list rmatch :=
  match fuel with
  | O => []
  | S fuel' =>
      match search_from r (String.length text) (cursor_at from (start_of text)) with
      | Some m =>
          if (m_start m <? m_end m)%nat
          then m :: finditer_from r fuel' text (m_end m)
          else [m]
      | None => []
      end
  end.
Definition finditer (r : regex) (text : string) : list rmatch :=
  finditer_from r (String.length text) text 0.

(** Pattern building blocks. [lit c] is the literal [c]; [ilit c] is the
    literal under [re.IGNORECASE]. *)
Definition lit (c : ascii) : regex := Chr (Ascii.eqb c).
Definition ilit (c : ascii) : regex :=
  Chr (fun x => Ascii.eqb (lower_char x) (lower_char c)).
Definition opt (r : regex) : regex := Rep 0 1 r.
Definition plus (r : regex) : regex := Cat r (Star r).
Definition at_least (n : nat) (r : regex) : regex := Cat (Rep n 0 r) (Star r).
Fixpoint seq (rs : list regex) : regex :=
  match rs with
  | [] => Eps
  | [r] => r
  | r :: rs' => Cat r (seq rs')
  end.

(** [\d], [\s], [[-\s]], [[,0-9]], [[\d,]] *)
Definition digit : regex := Chr is_digit.
Definition space : regex := Chr is_space.
Definition dash_or_space : regex :=
  Chr (fun c => Ascii.eqb c "-" || is_space c).
Definition comma_or_digit : regex :=
  Chr (fun c => Ascii.eqb c "," || is_digit c).

End Re.

(* ===================================================================== *)
(** ** The world outside the process                                      *)
(* ===================================================================== *)

Module World.

(** What the code reads and changes outside its own variables. The
    files come in two kinds, each by path: [fs] holds the files that
    store one JSON object (the caches), as [json.load] decodes them;
    [written] holds the files that a batch run opens with mode ["w"] and
    dumps JSON values to, each with the values dumped since it was last
    opened (the sources use different paths for the two kinds). [now] is
    the clock as [datetime.utcnow().isoformat()] reads it, and
    [llm_calls] the user prompts passed to [call_llm_system_user] so
    far. *)
Record world := {
  fs : gmap string (gmap string pyval);
  now : string;
  llm_calls : list string;
  written : gmap string (list pyval)
}.

(** The extraction provider and the decoder of its replies, both outside
    the repository: [llm_reply n model prompt] is what the [n]-th call of
    the run returns or raises; [decode_reply raw] stands for lines 156-175
    of [email_parser_llm.py] (stripping code fences, searching the JSON
    object and [json.loads]), [None] when they raise. *)
Class Provider := {
  llm_reply : nat -> string -> string -> res string;
  decode_reply : string -> option pyval
}.

(** A computation that reads and changes the world, and returns or
    raises. *)
Definition io (A : Type) : Type := world -> res A * world.

#[export] Instance io_ret : MRet io := fun _ a w => (Ok a, w).
#[export] Instance io_bind : MBind io := fun _ _ f m w =>
  match m w with
  | (Ok a, w') => f a w'
  | (Raise e, w') => (Raise e, w')
  end.

Definition raise {A} (e : pyexn) : io A := fun w => (Raise e, w).
Definition lift {A} (r : res A) : io A := fun w => (r, w).
Definition read {A} (f : world -> A) : io A := fun w => (Ok (f w), w).
Definition update (f : world -> world) : io unit := fun w => (Ok tt, f w).



End World.
Export World.

(* ===================================================================== *)
(** ** ai/email_parser_llm.py                                             *)
(* ===================================================================== *)

Module EmailParser.

(** The texts are strings of characters below U+0100 (see [Py]), and
    for such texts the patterns below are those of the source: although
    they ignore case, no character but a letter itself and its other
    case matches I, N, V, P or O (what the source matches besides, as
    U+0130 and U+0131 for I, lies from U+0100 on); [\d] is [[0-9]];
    [\s] and [\w] are the classes [is_space] and [is_word]; and the
    rupee sign U+20B9 of [AMOUNT_RE] cannot occur. What the source does
    with a text that holds other characters is not modelled. *)

Definition nl : string := String (ascii_of_nat 10) EmptyString.

Definition DEFAULT_MODEL : string := "gpt-4o".

(** [INVOICE_RE = \bINV[-\s]?\d{3,7}\b], ignoring case *)
Definition INVOICE_RE : Re.regex :=
  Re.seq [Re.WordB; Re.ilit "I"; Re.ilit "N"; Re.ilit "V";
          Re.opt Re.dash_or_space; Re.Rep 3 4 Re.digit; Re.WordB].

(** [PO_RE = \b45\d{5,6}\b|\bPO[-\s]?\d{3,7}\b], ignoring case *)
Definition PO_RE : Re.regex :=
  Re.Alt
    (Re.seq [Re.WordB; Re.lit "4"; Re.lit "5"; Re.Rep 5 1 Re.digit; Re.WordB])
    (Re.seq [Re.WordB; Re.ilit "P"; Re.ilit "O";
             Re.opt Re.dash_or_space; Re.Rep 3 4 Re.digit; Re.WordB]).

(** The rupee sign U+20B9 is no character below U+0100: in the texts
    modelled, the first alternative of [AMOUNT_RE] matches nowhere (the
    source does extract 500.0 from a text that holds the sign before
    500). *)
Definition rupee : Re.regex := Re.Chr (fun _ => false).

(** [(?:\.\d{1,2})?] *)
Definition decimals : Re.regex :=
  Re.opt (Re.Cat (Re.lit ".") (Re.Rep 1 1 Re.digit)).

(** [AMOUNT_RE], with its two groups *)
Definition AMOUNT_RE : Re.regex :=
  Re.Alt
    (Re.seq [rupee; Re.opt Re.space;
             Re.Grp 1 (Re.seq [Re.Rep 1 2 Re.digit;
                               Re.Star (Re.Rep 3 0 Re.comma_or_digit);
                               decimals])])
    (Re.Grp 2 (Re.seq [Re.Rep 1 2 Re.digit;
                       Re.plus (Re.Rep 3 0 Re.comma_or_digit);
                       decimals])).

Definition extract_invoice_regex (text : string) : option string :=
  match Re.search INVOICE_RE text with
  | None => None
  | Some m => Some (replace_char " " "-" (upper (Re.group0 text m)))
  end.

(** The normalisation of a matched purchase-order text: drop ["PO"] and
    the hyphens, strip, and put ["45"] in front unless it is there. *)
Definition normalize_po (matched : string) : string :=
  let v := strip (replace_char "-" "" (replace "PO" "" matched)) in
  if negb (startswith v "45") then String.append "45" v else v.

Definition extract_po_regex (text : string) : option string :=
  match Re.search PO_RE text with
  | None => None
  | Some m => Some (normalize_po (Re.group0 text m))
  end.

Section Parser.
Context `{Builtins} `{Provider}.

Definition str_or_empty (o : option string) : string := default "" o.

(** [(m.group(1) or m.group(2) or "")] *)
Definition amount_text (text : string) (m : Re.rmatch) : string :=
  let g1 := str_or_empty (Re.group text m 1) in
  if negb (String.eqb g1 "") then g1
  else str_or_empty (Re.group text m 2).

Definition extract_amounts_regex (text : string) : list float :=
  foldr (fun m vals =>
           match str_to_float (replace_char "," "" (amount_text text m)) with
           | Some f => f :: vals
           | None => vals
           end) [] (Re.finditer AMOUNT_RE text).

Definition _make_key (subject body : string) : string :=
  sha256_hexdigest (String.append subject (String.append nl body)).

(** [load_cache]: the decoded file, or the empty dict when the file is
    missing or does not decode. *)
Definition load_cache (path : string) : io (gmap string pyval) :=
  read (fun w => default ∅ (fs w !! path)).

Definition save_cache (path : string) (data : gmap string pyval) : io unit :=
  update (fun w => {| fs := <[path := data]> (fs w); now := now w;
                      llm_calls := llm_calls w; written := written w |}).

Definition USER_PROMPT (subject body : string) : string :=
  String.append "Email SUBJECT:" (String.append nl (String.append subject
  (String.append nl (String.append nl (String.append "Email BODY:"
  (String.append nl (String.append body (String.append nl (String.append nl
  "Return the JSON only."))))))))).

(** [call_llm_system_user]: one call of the provider, recorded in the
    world whether it returns or raises. *)
Definition call_llm_system_user (user_prompt model : string) : io string :=
  fun w =>
    (llm_reply (length (llm_calls w)) model user_prompt,
     {| fs := fs w; now := now w;
        llm_calls := llm_calls w ++ [user_prompt]; written := written w |}).

(** Lines 153-175: call the provider and decode its reply. *)
Definition ask_provider (subject body llm_model : string) : io pyval :=
  raw ← call_llm_system_user (USER_PROMPT subject body) llm_model;
  match decode_reply raw with
  | Some v => mret v
  | None => raise (RuntimeError "LLM did not return JSON")
  end.

(** [llm_out.get(k)]: only a dict has the method. *)
Definition dict_get (d : pyval) (k : string) : res pyval :=
  match d with
  | VDict kvs =>
      Ok (match List.find (fun kv => String.eqb (fst kv) k) kvs with
          | Some kv => snd kv
          | None => VNone
          end)
  | _ => Raise AttributeError
  end.

(** [v in (None, "")] *)
Definition none_or_empty (v : pyval) : bool :=
  match v with
  | VNone => true
  | VStr s => String.eqb s ""
  | _ => false
  end.

Definition is_none (v : pyval) : bool :=
  match v with VNone => true | _ => false end.

Definition merge_keys : list string :=
  ["invoice_number"; "po_number"; "invoice_amount"; "po_amount";
   "supplier_name"; "issue_summary"].

(** One round of the merge loop: the provider's value is taken only
    where the patterns left nothing. *)
Definition merge_key (llm_out : pyval) (result : gmap string pyval)
    (k : string) : res (gmap string pyval) :=
  if none_or_empty (get result k) then
    v ← dict_get llm_out k;
    mret (if negb (is_none v) then <[k := v]> result else result)
  else mret result.

Definition merge (llm_out : pyval) (result : gmap string pyval)
    : res (gmap string pyval) :=
  foldl (fun acc k => r ← acc; merge_key llm_out r k) (Ok result) merge_keys.

(** The conversion of an amount field, any exception giving [None]. *)
Definition coerce_amount (v : pyval) : pyval :=
  match v with
  | VStr s =>
      match str_to_float (replace_char "," "" s) with
      | Some f => VFloat f
      | None => VNone
      end
  | VNone => VNone
  | _ => match py_float v with Ok f => VFloat f | Raise _ => VNone end
  end.

Definition coerce_amounts (result : gmap string pyval) : gmap string pyval :=
  foldl (fun r k => <[k := coerce_amount (get r k)]> r) result
        ["invoice_amount"; "po_amount"].

Definition opt_str (o : option string) : pyval :=
  match o with Some s => VStr s | None => VNone end.
Definition opt_float (o : option float) : pyval :=
  match o with Some f => VFloat f | None => VNone end.

(** The result of the pattern pass (lines 118-131). *)
Definition regex_result (text : string) : gmap string pyval :=
  let amounts := extract_amounts_regex text in
  <["invoice_number" := opt_str (extract_invoice_regex text)]>
  (<["po_number" := opt_str (extract_po_regex text)]>
  (<["invoice_amount" := opt_float (head amounts)]>
  (<["po_amount" := opt_float (head (tail amounts))]>
  (<["supplier_name" := VNone]>
  (<["issue_summary" := VStr ""]> ∅))))).

(** [Path(cache_path) if cache_path else None] *)
Definition cache_file_of (cache_path : option string) : option string :=
  match cache_path with
  | Some p => if String.eqb p "" then None else Some p
  | None => None
  end.

(** Lines 144-180: the provider's output for the key, from the cache or
    from one call, together with the [cache] variable afterwards. *)
Definition obtain (subject body llm_model : string) (cache_file : option string)
    : io (pyval * gmap string pyval) :=
  cache ← match cache_file with
          | Some p => load_cache p
          | None => mret ∅
          end;
  let key := _make_key subject body in
  match cache !! key with
  | Some llm_out => mret (llm_out, cache)
  | None =>
      llm_out ← ask_provider subject body llm_model;
      match cache_file with
      | Some p =>
          let cache' := <[key := llm_out]> cache in
          _ ← save_cache p cache'; mret (llm_out, cache')
      | None => mret (llm_out, cache)
      end
  end.

Definition meta (extracted_at : string) (used_llm : bool) : pyval :=
  VDict [("extracted_at", VStr extracted_at); ("used_llm", VBool used_llm)].

Definition extract_structured (subject body : string)
    (use_llm_if_missing : bool) (llm_model : string)
    (cache_path : option string) : io (gmap string pyval) :=
  let text := String.append subject (String.append nl body) in
  let result := regex_result text in
  let invoice := get result "invoice_number" in
  let po := get result "po_number" in
  if truthy invoice && truthy po then
    mret (<["issue_summary" :=
              VStr (String.append "Extracted invoice "
                   (String.append (str_or_empty (extract_invoice_regex text))
                   (String.append " and PO "
                   (String.append (str_or_empty (extract_po_regex text))
                                  " via regex"))))]> result)
  else if negb use_llm_if_missing then
    mret (<["issue_summary" := VStr "Incomplete via regex; LLM disabled"]> result)
  else
    let cache_file := cache_file_of cache_path in
    oc ← obtain subject body llm_model cache_file;
    merged ← lift (merge oc.1 result);
    let coerced := coerce_amounts merged in
    let final :=
      if negb (truthy (get coerced "issue_summary"))
      then <["issue_summary" := VStr "Merged regex + LLM extraction"]> coerced
      else coerced in
    t ← read now;
    let used_llm :=
      match cache_file with
      | Some _ => negb (bool_decide (is_Some (oc.2 !! _make_key subject body)))
      | None => true
      end in
    mret (<["_meta" := meta t used_llm]> final).

End Parser.
End EmailParser.

(* ===================================================================== *)
(** ** agents/extractor.py                                                *)
(* ===================================================================== *)

Module Extractor.

(** [INV_RE = \bINV[-\s]?\d{3,}\b], ignoring case *)
Definition INV_RE : Re.regex :=
  Re.seq [Re.WordB; Re.ilit "I"; Re.ilit "N"; Re.ilit "V";
          Re.opt Re.dash_or_space; Re.at_least 3 Re.digit; Re.WordB].

(** [PO_RE = \bPO[-\s]?\d{4,}\b], ignoring case *)
Definition PO_RE : Re.regex :=
  Re.seq [Re.WordB; Re.ilit "P"; Re.ilit "O";
          Re.opt Re.dash_or_space; Re.at_least 4 Re.digit; Re.WordB].

(** [AMT_RE = INR\s?([\d,]+(?:\.\d{1,2})?)], ignoring case *)
Definition AMT_RE : Re.regex :=
  Re.seq [Re.ilit "I"; Re.ilit "N"; Re.ilit "R"; Re.opt Re.space;
          Re.Grp 1 (Re.Cat (Re.plus Re.comma_or_digit)
                           (Re.opt (Re.Cat (Re.lit ".") (Re.Rep 1 1 Re.digit))))].

(** The chat completion behind [_call_openai], outside the repository:
    whether [OPENAI_API_KEY] is set and the client library loaded, the
    reply to the prompt built from a body (or the exception raised), and
    [json.loads] ([None] when it raises). *)
Class Chat := {
  api_key_set : bool;
  chat_reply : string -> res string;
  json_loads : string -> option pyval
}.

(** The first-match keyword families of the claim type. *)
Definition claim_type_of (body : string) : string :=
  let lower := lower body in
  if contains lower "short" then "short_delivery"
  else if contains lower "tax" then "tax_mismatch"
  else if contains lower "not received" || contains lower "never received"
       then "not_received"
  else if contains lower "duplicate" then "duplicate_invoice"
  else "other".

Section Extractor.
Context `{Builtins} `{Chat}.

Definition matched (r : Re.regex) (body : string) : option string :=
  match Re.search r body with
  | Some m => Some (Re.group0 body m)
  | None => None
  end.

(** [float(amt.group(1).replace(",","")) if amt else None] *)
Definition claimed_amount_of (body : string) : res pyval :=
  match Re.search AMT_RE body with
  | Some m =>
      let g := default "" (Re.group body m 1) in
      match str_to_float (replace_char "," "" g) with
      | Some f => Ok (VFloat f)
      | None => Raise ValueError
      end
  | None => Ok VNone
  end.

Definition opt_text (o : option string) : pyval :=
  match o with Some s => VStr (replace_char " " "" s) | None => VNone end.

Definition _regex_extract (body : string) : res (gmap string pyval) :=
  claimed_amount ← claimed_amount_of body;
  mret (<["invoice_number" := opt_text (matched INV_RE body)]>
       (<["po_number" := opt_text (matched PO_RE body)]>
       (<["claimed_amount" := claimed_amount]>
       (<["currency" := if truthy claimed_amount then VStr "INR" else VNone]>
       (<["claim_type" := VStr (claim_type_of body)]>
       (<["claim_text" :=
            VStr (prefix 300 (replace_char (ascii_of_nat 10) " " (strip body)))]>
       (<["confidence" := VFloat 0.6]> ∅))))))).

(** [d.get(k, dflt)] on a decoded JSON value; only a dict has it. *)
Definition json_get (d : pyval) (k : string) (dflt : pyval) : res pyval :=
  match d with
  | VDict kvs =>
      Ok (match List.find (fun kv => String.eqb (fst kv) k) kvs with
          | Some kv => snd kv
          | None => dflt
          end)
  | _ => Raise AttributeError
  end.

(** [d[k] = v] on a decoded JSON object *)
Fixpoint json_set (kvs : list (string * pyval)) (k : string) (v : pyval)
    : list (string * pyval) :=
  match kvs with
  | [] => [(k, v)]
  | kv :: kvs' =>
      if String.eqb (fst kv) k then (k, v) :: kvs'
      else kv :: json_set kvs' k v
  end.

(** [_call_openai]: the decoded reply with its confidence made a float,
    or [None] when there is no key or anything in the call raised. *)
Definition _call_openai (body : string) : option pyval :=
  if negb api_key_set then None
  else match chat_reply body with
       | Raise _ => None
       | Ok text =>
           match json_loads (strip text) with
           | Some (VDict kvs) =>
               match py_float (catch (json_get (VDict kvs) "confidence" (VFloat 0.5))
                                     VNone) with
               | Ok c => Some (VDict (json_set kvs "confidence" (VFloat c)))
               | Raise _ => None
               end
           | _ => None
           end
       end.

Definition extract_body (body : string) : res (gmap string pyval) :=
  match _call_openai body with
  | Some llm_result =>
      if truthy llm_result then
        let g k := catch (json_get llm_result k VNone) VNone in
        confidence ← py_float (catch (json_get llm_result "confidence" (VFloat 0.5))
                                     VNone);
        mret (<["invoice_number" := g "invoice_number"]>
             (<["po_number" := g "po_number"]>
             (<["claimed_amount" := g "claimed_amount"]>
             (<["currency" := g "currency"]>
             (<["claim_type" := g "claim_type"]>
             (<["claim_text" := g "claim_text"]>
             (<["confidence" := VFloat confidence]>
             (<["llm_raw" := llm_result]> ∅))))))))
      else
        r ← _regex_extract body; mret (<["llm_raw" := VNone]> r)
  | None =>
      r ← _regex_extract body; mret (<["llm_raw" := VNone]> r)
  end.

(** [body = email_obj.get("body","") or ""]; the text functions accept
    only a string. *)
Definition body_of (email_obj : gmap string pyval) : res string :=
  match py_or (get_or email_obj "body" (VStr "")) (VStr "") with
  | VStr s => Ok s
  | _ => Raise TypeError
  end.

Definition extract (email_obj : gmap string pyval) : res (gmap string pyval) :=
  body ← body_of email_obj;
  extract_body body.

End Extractor.
End Extractor.

(* ===================================================================== *)
(** ** agents/verifier.py                                                 *)
(* ===================================================================== *)

Module Verifier.

(** A row of the [invoice] table as the queries read it. *)
Record invoice_row := {
  invoice_id : Z;
  amount : option float;
  sap_status : pyval
}.

(** An open connection: the three queries of [verify], each returning
    its rows or raising. [_connect] gives [None] when the store cannot be
    reached. *)
Record connection := {
  select_invoice : pyval -> res (option invoice_row);
  select_purchase_order : pyval -> res (option Z);
  select_goods_receipts : Z -> res (list Z)
}.

Definition opt_amount (o : option float) : pyval :=
  match o with Some f => VFloat f | None => VNone end.

(** The [out] dict as first built (lines 37-41). *)
Definition defaults : gmap string pyval :=
  <["invoice_exists" := VBool false]>
  (<["invoice_id" := VNone]>
  (<["invoice_amount" := VNone]>
  (<["po_exists" := VBool false]>
  (<["po_id" := VNone]>
  (<["grn_exists" := VBool false]>
  (<["grn_ids" := VList []]>
  (<["contradictions" := VList []]> ∅))))))).

Definition lookup_invoice (conn : connection) (invoice : pyval)
    (out : gmap string pyval) : res (gmap string pyval) :=
  if truthy invoice then
    r ← select_invoice conn invoice;
    match r with
    | Some row =>
        mret (<["invoice_status" := sap_status row]>
             (<["invoice_amount" := opt_amount (amount row)]>
             (<["invoice_id" := VInt (invoice_id row)]>
             (<["invoice_exists" := VBool true]> out))))
    | None => mret out
    end
  else mret out.

Definition lookup_po (conn : connection) (po : pyval)
    (out : gmap string pyval) : res (gmap string pyval) :=
  if truthy po then
    r ← select_purchase_order conn po;
    match r with
    | Some po_id =>
        let out := <["po_id" := VInt po_id]> (<["po_exists" := VBool true]> out) in
        rows ← select_goods_receipts conn po_id;
        match rows with
        | [] => mret out
        | _ :: _ =>
            mret (<["grn_ids" := VList (map VInt rows)]>
                 (<["grn_exists" := VBool true]> out))
        end
    | None => mret out
    end
  else mret out.

(** [extraction.get("claim_type") == "not_received"] *)
Definition claims_not_received (extraction : gmap string pyval) : bool :=
  match get extraction "claim_type" with
  | VStr s => String.eqb s "not_received"
  | _ => false
  end.

(** [abs(float(claimed or 0) - invoice_amount) > 1.0] *)
Definition differs `{Builtins} (claimed invoice_amount : pyval) : res bool :=
  a ← py_float (py_or claimed (VInt 0));
  match invoice_amount with
  | VFloat b => mret (fgt (abs (a - b)) 1)
  | _ => Raise TypeError
  end.

(** The guarded comparison of lines 71-76, an exception counting as no
    mismatch. *)
Definition amount_mismatch `{Builtins} (extraction out : gmap string pyval) : bool :=
  truthy (get extraction "claimed_amount") && truthy (get out "invoice_amount")
  && catch (differs (get extraction "claimed_amount") (get out "invoice_amount"))
           false.

Definition contradictions_of `{Builtins} (extraction out : gmap string pyval)
    : list pyval :=
  (if claims_not_received extraction && truthy (get out "grn_exists")
   then [VStr "not_received_but_grn_exists"] else [])
  ++ (if amount_mismatch extraction out then [VStr "amount_mismatch"] else []).

Definition verify `{Builtins} (conn : option connection)
    (extraction : gmap string pyval) : res (gmap string pyval) :=
  let invoice := get extraction "invoice_number" in
  let po := get extraction "po_number" in
  let out := defaults in
  match conn with
  | None => mret out
  | Some c =>
      out ← lookup_invoice c invoice out;
      out ← lookup_po c po out;
      mret (<["contradictions" := VList (contradictions_of extraction out)]> out)
  end.

End Verifier.

(* ===================================================================== *)
(** ** agents/scorer.py                                                   *)
(* ===================================================================== *)

Module Scorer.
Section Scorer.
Context `{Builtins}.

(** The three guarded increments of [compute_score], each on the pair of
    the running [base] and the [reasons] collected so far. *)
Definition bump_contradictions (verification : gmap string pyval)
    (st : float * list pyval) : res (float * list pyval) :=
  if truthy (get verification "contradictions") then
    items ← py_iter (get_or verification "contradictions" (VList []));
    mret ((st.1 + 0.35)%float, st.2 ++ items)
  else mret st.

Definition bump_invoice (extraction verification : gmap string pyval)
    (st : float * list pyval) : float * list pyval :=
  if truthy (get extraction "invoice_number")
     && negb (truthy (get verification "invoice_exists"))
  then ((st.1 + 0.30)%float, st.2 ++ [VStr "invoice_missing_in_sap"])
  else st.

Definition trusted_sender (sender : string) : bool :=
  endswith (lower sender) "@abcchem.com".

Definition bump_sender (sender : string)
    (st : float * list pyval) : float * list pyval :=
  if truthy (VStr sender) && negb (trusted_sender sender)
  then ((st.1 + 0.15)%float, st.2 ++ [VStr "non_standard_sender"])
  else st.

(** [score = max(0.0, min(1.0, base))] *)
Definition clamp (base : float) : float := py_max 0 (py_min 1 base).

Definition action_of (score : float) : string :=
  if fge score 0.75 then "HOLD_PAYMENT"
  else if fge score 0.35 then "REQUEST_DOCS"
  else "AUTO_APPROVE".

(** The running [base] and [reasons] just before the clamp. *)
Definition base_and_reasons (extraction verification : gmap string pyval)
    (sender : string) : res (float * list pyval) :=
  confidence ← py_float (py_or (get_or extraction "confidence" (VFloat 0.5))
                               (VFloat 0.5));
  st ← bump_contradictions verification ((1 - confidence)%float, []);
  mret (bump_sender sender (bump_invoice extraction verification st)).

Definition compute_score (extraction verification : gmap string pyval)
    (sender : string) : res (gmap string pyval) :=
  st ← base_and_reasons extraction verification sender;
  let score := clamp st.1 in
  let action := action_of score in
  mret (<["suspicious_score" := VFloat (round3 score)]>
        (<["action" := VStr action]>
        (<["reasons" := VList st.2]> ∅))).

End Scorer.
End Scorer.

(* ===================================================================== *)
(** ** agents/extractor_agent.py                                          *)
(* ===================================================================== *)

Module ExtractorAgent.


(** An entry of [emails.json]. *)
Record email := {
  email_id : pyval;
  sender_name : pyval;
  sender_email : pyval;
  subject : string;
  body : string
}.


Section Agent.
Context `{Builtins} `{Provider}.




End Agent.
End ExtractorAgent.

(* ===================================================================== *)
(** ** runner.py                                                          *)
(* ===================================================================== *)

Module Runner.


(** An entry of the summary list. *)
Record summary := {
  s_email_id : pyval;
  s_subject : pyval;
  s_extraction : gmap string pyval;
  s_verification : gmap string pyval;
  s_score : gmap string pyval
}.

Section Runner.
Context `{Builtins} `{Extractor.Chat}.

(** The store as each email of the run finds it: [connect i] is what
    [_connect()] returns while the [i]-th email is verified. *)
Variable connect : nat -> option Verifier.connection.

(** [email.get("from") or ""]; [compute_score] calls [lower] on it. *)
Definition sender_of (email : gmap string pyval) : res string :=
  match py_or (get email "from") (VStr "") with
  | VStr s => Ok s
  | _ => Raise AttributeError
  end.

(** The body of the loop of [process_all] for the [i]-th email. *)
Definition process_one (i : nat) (email : gmap string pyval) : res summary :=
  extraction ← Extractor.extract email;
  verification ← Verifier.verify (connect i) extraction;
  sender ← sender_of email;
  score ← Scorer.compute_score extraction verification sender;
  mret {| s_email_id := get email "email_id";
          s_subject := get email "subject";
          s_extraction := extraction;
          s_verification := verification;
          s_score := score |}.



(** What [open(OUT_SUMMARY, "w")] raises, if it raises: nothing in
    [runner.py] creates the directory of the file. *)
Variable summary_open : option pyexn.



End Runner.
End Runner.

(* ===================================================================== *)
(** ** Notions used to state the properties                               *)
(* ===================================================================== *)

Module Notions.
Import F64 Scorer Verifier EmailParser.

(** The number of units of [1.0]. *)
Definition one_units : Z := 2 ^ 1074.

(** Thousandths of a number of units, rounded to an integer. *)
Definition qmilli (v : Z) : Z := round_half_even_div (1000 * v) one_units.

(** The binary64 nearest to [q/1000]. *)
Definition ofmilli (q : Z) : float := float_of_ratio false q 1000.

(** Two bases are ordered: both are NaN, or neither is and their values
    are ordered. *)
Definition fle (a b : float) : Prop :=
  (fnan a = true /\ fnan b = true)
  \/ (fnan a = false /\ fnan b = false /\ fv a <= fv b).

(** The table of the thousand and one values [q/1000] is increasing. *)
Definition ofmilli_steps : bool :=
  forallb (fun n => (ofmilli (Z.of_nat n) <=? ofmilli (Z.of_nat (S n)))%float)
          (List.seq 0 1000).

(** The returned score, as a function of the base. *)
Definition final (base : float) : float := round3 (clamp base).

(** The dict that [compute_score] returns for a base and its reasons. *)
Definition result_of (base : float) (reasons : list pyval) : gmap string pyval :=
  <["suspicious_score" := VFloat (round3 (clamp base))]>
  (<["action" := VStr (action_of (clamp base))]>
  (<["reasons" := VList reasons]> ∅)).

(** Two texts that differ at most in the case of their letters. *)
Definition case_variant (s t : string) : Prop := lower s = lower t.

(** The scores of two results are ordered. *)
Definition score_le (r0 r1 : gmap string pyval) : Prop :=
  exists s0 s1,
    r0 !! "suspicious_score" = Some (VFloat s0)
    /\ r1 !! "suspicious_score" = Some (VFloat s1)
    /\ (s0 <=? s1)%float = true.

(** Where the text goes on after a match: it ends, or a character that
    is no word character follows. *)
Definition ends_word (post : string) : Prop :=
  match post with
  | EmptyString => True
  | String c _ => is_word c = false
  end.

(** The cache as [extract_structured] loads it. *)
Definition cache_of (cache_file : option string) (w : world) : gmap string pyval :=
  match cache_file with
  | Some p => default ∅ (fs w !! p)
  | None => ∅
  end.

(** The world after one call of the provider. *)
Definition called (prompt : string) (w : world) : world :=
  {| fs := fs w; now := now w; llm_calls := llm_calls w ++ [prompt];
     written := written w |}.

(** The world after the cache file is rewritten. *)
Definition saved (p : string) (data : gmap string pyval) (w : world) : world :=
  {| fs := <[p := data]> (fs w); now := now w; llm_calls := llm_calls w;
     written := written w |}.


(** The ["_meta"] entry of a result. *)
Definition meta_of (r : res (gmap string pyval)) : option pyval :=
  match r with
  | Ok d => d !! "_meta"
  | Raise _ => None
  end.

Section WithBuiltins.
Context `{Builtins}.

(** The confidence that [compute_score] reads. *)
Definition confidence_of (e : gmap string pyval) : res float :=
  py_float (py_or (Py.get_or e "confidence" (VFloat 0.5)) (VFloat 0.5)).

(** The result of [verify] once both lookups have returned. *)
Definition finish (extraction out : gmap string pyval) : gmap string pyval :=
  <["contradictions" := VList (contradictions_of extraction out)]> out.

(** The text that the patterns read. *)
Definition text_of (subject body : string) : string :=
  String.append subject (String.append nl body).

(** The pattern pass found an invoice number and a PO number. *)
Definition found_both (subject body : string) : bool :=
  truthy (Py.get (regex_result (text_of subject body)) "invoice_number")
  && truthy (Py.get (regex_result (text_of subject body)) "po_number").

(** What follows [obtain] (lines 182-205), given the clock reading. *)
Definition complete (subject body : string) (cache_file : option string)
    (t : string) (oc : pyval * gmap string pyval) : res (gmap string pyval) :=
  match merge oc.1 (regex_result (text_of subject body)) with
  | Raise e => Raise e
  | Ok merged =>
      let coerced := coerce_amounts merged in
      let final :=
        if negb (truthy (Py.get coerced "issue_summary"))
        then <["issue_summary" := VStr "Merged regex + LLM extraction"]> coerced
        else coerced in
      let used_llm :=
        match cache_file with
        | Some _ => negb (bool_decide (is_Some (oc.2 !! _make_key subject body)))
        | None => true
        end in
      Ok (<["_meta" := meta t used_llm]> final)
  end.

End WithBuiltins.
End Notions.

(* ===================================================================== *)
(** ** Inputs of the closed examples                                      *)
(* ===================================================================== *)

Module Examples.
Import Verifier ExtractorAgent.

(** An interpreter for closed examples, none of which converts a string
    to a float or hashes one: [float(s)] rejects every string and the
    digest is the text itself. *)
Definition plain_builtins : Builtins :=
  {| str_to_float := fun _ => None; sha256_hexdigest := fun s => s |}.

(** A provider for closed examples in which it is never called: every
    call raises and no reply decodes. *)
Definition silent_provider : Provider :=
  {| llm_reply := fun _ _ _ => Raise (RuntimeError "offline");
     decode_reply := fun _ => None |}.

(** A provider for closed examples: every call returns a reply that
    decodes to an object holding a summary. *)
Definition replying_provider : Provider :=
  {| llm_reply := fun _ _ _ => Ok "reply";
     decode_reply := fun _ =>
       Some (VDict [("issue_summary", VStr "Goods not received")]) |}.

(** A chat completion for closed examples: no key is set. *)
Definition no_chat : Extractor.Chat :=
  {| Extractor.api_key_set := false;
     Extractor.chat_reply := fun _ => Raise (RuntimeError "no key");
     Extractor.json_loads := fun _ => None |}.

(** A world with no cache file, no call made and nothing written. *)
Definition fresh_world (t : string) : world :=
  {| fs := ∅; now := t; llm_calls := []; written := ∅ |}.

(** A world whose cache file at [p] holds one entry. *)
Definition warm_world (p key : string) (v : pyval) (t : string) : world :=
  {| fs := <[p := <[key := v]> ∅]> ∅; now := t; llm_calls := []; written := ∅ |}.

(** A store for closed examples: no invoice is on record, every
    purchase order is number 7 and has the single goods receipt 1. *)
Definition store_with_receipt : connection :=
  {| select_invoice := fun _ => Ok None;
     select_purchase_order := fun _ => Ok (Some 7);
     select_goods_receipts := fun _ => Ok [1] |}.

(** A store for closed examples: every invoice is on record with the
    amount 500.0, and no purchase order is. *)
Definition store_with_invoice : connection :=
  {| select_invoice := fun _ =>
       Ok (Some {| invoice_id := 1; amount := Some 500%float;
                   sap_status := VStr "OPEN" |});
     select_purchase_order := fun _ => Ok None;
     select_goods_receipts := fun _ => Ok [] |}.



End Examples.

(* ===================================================================== *)
(** ** What a pattern can match, for the proofs                          *)
(* ===================================================================== *)

Module ReSem.
Import Re.

(** [n] steps of a relation on cursors. *)
Fixpoint steps (n : nat) (R : cursor -> cursor -> Prop) (a b : cursor) : Prop :=
  match n with
  | O => b = a
  | S n' => exists m, R a m /\ steps n' R m b
  end.

(** Where a pattern can lead from a cursor, whatever the matcher
    prefers. *)
Fixpoint leads (r : regex) (st st' : cursor) : Prop :=
  match r with
  | Eps => st' = st
  | Chr p => exists c s, rest st = String c s /\ p c = true /\ st' = advance c s st
  | Cat r1 r2 => exists mid, leads r1 st mid /\ leads r2 mid st'
  | Alt r1 r2 => leads r1 st st' \/ leads r2 st st'
  | Rep lo extra r1 =>
      exists n, (lo <= n <= lo + extra)%nat /\ steps n (leads r1) st st'
  | Star r1 => exists n, steps n (leads r1) st st'
  | WordB => at_boundary st = true /\ st' = st
  | Grp i r1 => exists st1, leads r1 st st1 /\ st' = close_group i st st1
  end.

(** [n] words of a language, one after the other. *)
Fixpoint words (n : nat) (L : string -> Prop) (t : string) : Prop :=
  match n with
  | O => t = EmptyString
  | S n' => exists t1 t2, t = String.append t1 t2 /\ L t1 /\ words n' L t2
  end.

(** The texts that a pattern can consume. *)
Fixpoint lang (r : regex) (t : string) : Prop :=
  match r with
  | Eps => t = EmptyString
  | Chr p => exists c, t = String c EmptyString /\ p c = true
  | Cat r1 r2 => exists t1 t2, t = String.append t1 t2 /\ lang r1 t1 /\ lang r2 t2
  | Alt r1 r2 => lang r1 t \/ lang r2 t
  | Rep lo extra r1 => exists n, (lo <= n <= lo + extra)%nat /\ words n (lang r1) t
  | Star r1 => exists n, words n (lang r1) t
  | WordB => t = EmptyString
  | Grp i r1 => lang r1 t
  end.

(** The cursor is a position of the text. *)
Definition within (text : string) (st : cursor) : Prop :=
  rest st = Py.drop (pos st) text /\ (pos st <= String.length text)%nat.

(** A step from one cursor to another consumes a text of a language. *)
Definition consumes (L : string -> Prop) (st st' : cursor) : Prop :=
  exists t, L t /\ rest st = String.append t (rest st')
            /\ pos st' = (pos st + String.length t)%nat.

End ReSem.

(* ===================================================================== *)
(** ** Further notions used to state properties                          *)
(* ===================================================================== *)

Module Shapes.

(** How severe an action is: [AUTO_APPROVE] below [REQUEST_DOCS] below
    [HOLD_PAYMENT]. *)
Definition severity (action : string) : nat :=
  if String.eqb action "HOLD_PAYMENT" then 2
  else if String.eqb action "REQUEST_DOCS" then 1
  else 0.

(** The actions of two results are ordered. *)
Definition action_le (r0 r1 : gmap string pyval) : Prop :=
  exists a0 a1,
    r0 !! "action" = Some (VStr a0)
    /\ r1 !! "action" = Some (VStr a1)
    /\ (severity a0 <= severity a1)%nat.

(** The keys of the dict that [extract] returns. *)
Definition extraction_keys : list string :=
  ["invoice_number"; "po_number"; "claimed_amount"; "currency"; "claim_type";
   "claim_text"; "confidence"; "llm_raw"].

(** The character occurs in the text. *)
Fixpoint occurs (c : ascii) (s : string) : bool :=
  match s with
  | EmptyString => false
  | String x s' => Ascii.eqb x c || occurs c s'
  end.

(** The text does not begin with white space. *)
Definition starts_black (s : string) : Prop :=
  match s with
  | EmptyString => True
  | String c _ => is_space c = false
  end.

(** The sender is given and lies outside the trusted domain. *)
Definition outside_sender (sender : string) : bool :=
  truthy (VStr sender) && negb (Scorer.trusted_sender sender).

(** The keys that the pattern pass can fill. *)
Definition pattern_keys : list string :=
  ["invoice_number"; "po_number"; "invoice_amount"; "po_amount"].

(** The text keys that the provider can fill. *)
Definition text_keys : list string :=
  ["invoice_number"; "po_number"; "supplier_name"].

(** The keys whose values are made floats. *)
Definition amount_keys : list string := ["invoice_amount"; "po_amount"].

(** Every character of the text passes the test. *)
Fixpoint sall (p : ascii -> bool) (s : string) : bool :=
  match s with
  | EmptyString => true
  | String c s' => p c && sall p s'
  end.

(** What may stand between the letters and the digits of a number that
    has been normalised: nothing, a hyphen, or one white-space character
    other than the space. *)
Definition separator (sep : string) : Prop :=
  sep = EmptyString \/ sep = "-"
  \/ exists c, sep = String c EmptyString /\ is_space c = true /\ c <> " "%char.

(** The form of an invoice number of the normaliser: [INV], a
    separator, and three to seven digits. *)
Definition invoice_shape (s : string) : Prop :=
  exists sep digits,
    s = String.append "INV" (String.append sep digits)
    /\ separator sep
    /\ sall is_digit digits = true
    /\ (3 <= String.length digits <= 7)%nat.

(** A PO number of the normaliser that is made of digits. *)
Definition po_digits (s : string) : Prop :=
  sall is_digit s = true
  /\ startswith s "45" = true
  /\ (3 <= String.length s <= 9)%nat.

(** A PO number of the normaliser that kept its letters: they were not
    written [PO] in upper case. *)
Definition po_lettered (s : string) : Prop :=
  exists c1 c2 sep digits,
    s = String.append "45" (String c1 (String c2 (String.append sep digits)))
    /\ upper_char c1 = "P"%char /\ upper_char c2 = "O"%char
    /\ (c1 <> "P"%char \/ c2 <> "O"%char)
    /\ (sep = EmptyString
        \/ exists c, sep = String c EmptyString /\ is_space c = true)
    /\ sall is_digit digits = true
    /\ (3 <= String.length digits <= 7)%nat.

(** The text holds no letter [I], in either case. *)
Definition no_letter_i (s : string) : bool :=
  sall (fun c => negb (Ascii.eqb (lower_char c) "i")) s.

(** Where the text goes on after an amount: it ends, or a character
    follows that is neither a digit, a comma nor a full stop. *)
Definition ends_amount (post : string) : Prop :=
  match post with
  | EmptyString => True
  | String c _ => is_digit c = false /\ c <> ","%char /\ c <> "."%char
  end.

End Shapes.

(* ===================================================================== *)
(** ** Further inputs of closed examples                                 *)
(* ===================================================================== *)

Module Inputs.

Import Verifier.

(** A store whose every query fails. *)
Definition failing_store : connection :=
  {| select_invoice := fun _ => Raise DatabaseError;
     select_purchase_order := fun _ => Raise DatabaseError;
     select_goods_receipts := fun _ => Raise DatabaseError |}.

(** A provider for closed examples whose output names another invoice
    and a supplier. *)
Definition naming_provider : Provider :=
  {| llm_reply := fun _ _ _ => Ok "reply";
     decode_reply := fun _ =>
       Some (VDict [("invoice_number", VStr "INV-9999");
                    ("supplier_name", VStr "ACME")]) |}.

End Inputs.

(* ===================================================================== *)
(** * Facts about binary64 arithmetic                                    *)
(* ===================================================================== *)

Module F64Facts.
Import F64.

Lemma digits2_pos_bounds (m : positive) :
  2 ^ (Z.pos (digits2_pos m) - 1) <= Z.pos m < 2 ^ Z.pos (digits2_pos m).
Proof.
  induction m as [m IH | m IH |]; simpl digits2_pos.
  - rewrite Pos2Z.inj_succ.
    replace (Z.succ (Z.pos (digits2_pos m)) - 1) with (Z.succ (Z.pos (digits2_pos m) - 1)) by lia.
    rewrite !Z.pow_succ_r by lia. lia.
  - rewrite Pos2Z.inj_succ.
    replace (Z.succ (Z.pos (digits2_pos m)) - 1) with (Z.succ (Z.pos (digits2_pos m) - 1)) by lia.
    rewrite !Z.pow_succ_r by lia. lia.
  - simpl. lia.
Qed.

Lemma digits_unique (m : positive) (d : Z) :
  2 ^ (d - 1) <= Z.pos m < 2 ^ d -> Z.pos (digits2_pos m) = d.
Proof.
  intros [Hlo Hhi]. pose proof (digits2_pos_bounds m) as [Hl Hh].
  set (k := Z.pos (digits2_pos m)) in *.
  assert (0 < k) by (subst k; lia).
  destruct (Z.lt_trichotomy k d) as [Hlt | [Heq | Hgt]]; [exfalso | exact Heq | exfalso].
  - assert (2 ^ k <= 2 ^ (d - 1)) by (apply Z.pow_le_mono_r; lia). lia.
  - assert (0 <= d \/ d < 0) as [Hd | Hd] by lia.
    + assert (2 ^ d <= 2 ^ (k - 1)) by (apply Z.pow_le_mono_r; lia). lia.
    + rewrite (Z.pow_neg_r 2 d) in Hhi by lia. lia.
Qed.

Lemma digits_shift (m : positive) (k : Z) (mk : positive) :
  0 <= k -> Z.pos mk = Z.pos m * 2 ^ k ->
  Z.pos (digits2_pos mk) = Z.pos (digits2_pos m) + k.
Proof.
  intros Hk E. apply digits_unique. rewrite E.
  pose proof (digits2_pos_bounds m) as [Hl Hh].
  replace (Z.pos (digits2_pos m) + k - 1) with ((Z.pos (digits2_pos m) - 1) + k) by lia.
  rewrite !Z.pow_add_r by lia.
  assert (0 < 2 ^ k) by (apply Z.pow_pos_nonneg; lia).
  nia.
Qed.

Lemma iter_xO (d : positive) (m : positive) :
  Z.pos (Pos.iter xO m d) = Z.pos m * 2 ^ Z.pos d.
Proof.
  revert m. induction d as [|d IH] using Pos.peano_ind; intros m.
  - simpl. lia.
  - rewrite Pos.iter_succ, Pos2Z.inj_xO, IH, Pos2Z.inj_succ, Z.pow_succ_r by lia. lia.
Qed.

Lemma valid_finite (s : bool) (m : positive) (e : Z) :
  valid_binary (S754_finite s m e) = true ->
  -1074 <= e <= 971 /\ Z.pos (digits2_pos m) <= 53
  /\ (e = -1074 \/ Z.pos (digits2_pos m) = 53).
Proof.
  unfold valid_binary, bounded, canonical_mantissa, fexp, SpecFloat.emin, prec, emax.
  rewrite andb_true_iff, Z.eqb_eq, Z.leb_le. lia.
Qed.

Lemma finite_pos_bounds (s : bool) (m : positive) (e : Z) :
  valid_binary (S754_finite s m e) = true ->
  0 < Z.pos m * 2 ^ (e + 1074) < top.
Proof.
  intros Hv. apply valid_finite in Hv as (He & Hd & _).
  pose proof (digits2_pos_bounds m) as [_ Hh].
  assert (2 ^ Z.pos (digits2_pos m) <= 2 ^ 53) by (apply Z.pow_le_mono_r; lia).
  assert (0 < 2 ^ (e + 1074)) by (apply Z.pow_pos_nonneg; lia).
  assert (2 ^ (e + 1074) <= 2 ^ 2045) by (apply Z.pow_le_mono_r; lia).
  unfold top. replace 2098 with (53 + 2045) by lia. rewrite (Z.pow_add_r 2 53 2045) by lia.
  split; [apply Z.mul_pos_pos; lia | nia].
Qed.

Lemma finite_lt_exp (s1 s2 : bool) (m1 m2 : positive) (e1 e2 : Z) :
  valid_binary (S754_finite s1 m1 e1) = true ->
  valid_binary (S754_finite s2 m2 e2) = true ->
  e1 < e2 ->
  Z.pos m1 * 2 ^ (e1 + 1074) < Z.pos m2 * 2 ^ (e2 + 1074).
Proof.
  intros H1 H2 Hlt.
  apply valid_finite in H1 as (He1 & Hd1 & _).
  apply valid_finite in H2 as (He2 & _ & Hc2).
  destruct Hc2 as [Hc2 | Hc2]; [lia |].
  pose proof (digits2_pos_bounds m1) as [_ Hh1].
  pose proof (digits2_pos_bounds m2) as [Hl2 _]. rewrite Hc2 in Hl2.
  assert (2 ^ Z.pos (digits2_pos m1) <= 2 ^ 53) by (apply Z.pow_le_mono_r; lia).
  assert (0 < 2 ^ (e1 + 1074)) by (apply Z.pow_pos_nonneg; lia).
  assert (2 * 2 ^ (e1 + 1074) <= 2 ^ (e2 + 1074)).
  { rewrite <- Z.pow_succ_r by lia. apply Z.pow_le_mono_r; lia. }
  change (53 - 1) with 52 in Hl2.
  assert (E : 2 ^ 53 = 2 * 2 ^ 52) by reflexivity.
  nia.
Qed.

Lemma top_pos : 0 < top.
Proof. reflexivity. Qed.

Ltac cmp_lia :=
  pose proof top_pos; f_equal; symmetry;
  first [ apply Z.compare_eq_iff; lia
        | apply Z.compare_lt_iff; lia
        | apply Z.compare_gt_iff; lia ].

Lemma compare_Zval (x y : spec_float) :
  valid_binary x = true -> valid_binary y = true ->
  is_nan_sf x = false -> is_nan_sf y = false ->
  SFcompare x y = Some (Zval x ?= Zval y).
Proof.
  intros Hx Hy Nx Ny.
  destruct x as [sx | sx | | sx mx ex], y as [sy | sy | | sy my ey];
    try discriminate; cbn [SFcompare Zval].
  - reflexivity.
  - destruct sy; cbn [cond_Zopp]; cmp_lia.
  - pose proof (finite_pos_bounds _ _ _ Hy).
    destruct sy; cbn [cond_Zopp]; cmp_lia.
  - destruct sx; cbn [cond_Zopp]; cmp_lia.
  - destruct sx, sy; cbn [cond_Zopp]; cmp_lia.
  - pose proof (finite_pos_bounds _ _ _ Hy).
    destruct sx, sy; cbn [cond_Zopp]; cmp_lia.
  - pose proof (finite_pos_bounds _ _ _ Hx).
    destruct sx; cbn [cond_Zopp]; cmp_lia.
  - pose proof (finite_pos_bounds _ _ _ Hx).
    destruct sx, sy; cbn [cond_Zopp]; cmp_lia.
  - pose proof (finite_pos_bounds _ _ _ Hx).
    pose proof (finite_pos_bounds _ _ _ Hy).
    destruct sx, sy; cbn [cond_Zopp]; try cmp_lia.
    + destruct (Z.compare_spec ex ey) as [E | L | G].
      * subst ey. rewrite Pos.compare_cont_spec. cbn [Pos.switch_Eq].
        f_equal. rewrite Z.compare_opp.
        rewrite <- Zmult_compare_compat_r by lia.
        rewrite <- Pos2Z.inj_compare, (Pos.compare_antisym mx my).
        destruct (mx ?= my)%positive; reflexivity.
      * pose proof (finite_lt_exp _ _ _ _ _ _ Hx Hy L). cmp_lia.
      * pose proof (finite_lt_exp _ _ _ _ _ _ Hy Hx ltac:(lia)). cmp_lia.
    + destruct (Z.compare_spec ex ey) as [E | L | G].
      * subst ey. rewrite Pos.compare_cont_spec. cbn [Pos.switch_Eq].
        f_equal. rewrite <- Zmult_compare_compat_r by lia.
        rewrite <- Pos2Z.inj_compare. destruct (mx ?= my)%positive; reflexivity.
      * pose proof (finite_lt_exp _ _ _ _ _ _ Hx Hy L). cmp_lia.
      * pose proof (finite_lt_exp _ _ _ _ _ _ Hy Hx ltac:(lia)). cmp_lia.
Qed.

(** *** Rounding a quotient to the nearest integer *)

Lemma rhe_div_bounds (n d : Z) :
  0 < d -> n / d <= round_half_even_div n d <= n / d + 1.
Proof.
  intros Hd. unfold round_half_even_div.
  destruct (2 * (n mod d) ?= d); [destruct (Z.even (n / d)) | |]; lia.
Qed.

Lemma rhe_div_exact (k d : Z) : 0 < d -> round_half_even_div (k * d) d = k.
Proof.
  intros Hd. unfold round_half_even_div.
  rewrite Z.mod_mul, Z.div_mul by lia.
  destruct (Z.compare_spec (2 * 0) d); lia.
Qed.

Lemma rhe_div_mono (a b d : Z) :
  0 < d -> a <= b -> round_half_even_div a d <= round_half_even_div b d.
Proof.
  intros Hd Hab.
  pose proof (Z.div_le_mono a b d Hd Hab) as Hq.
  pose proof (Z.div_mod a d ltac:(lia)) as Ea.
  pose proof (Z.div_mod b d ltac:(lia)) as Eb.
  pose proof (Z.mod_pos_bound a d Hd) as Ra.
  pose proof (Z.mod_pos_bound b d Hd) as Rb.
  destruct (Z.eq_dec (a / d) (b / d)) as [E | E].
  - unfold round_half_even_div. rewrite <- E in *.
    assert (a mod d <= b mod d) by nia.
    destruct (Z.compare_spec (2 * (a mod d)) d),
             (Z.compare_spec (2 * (b mod d)) d);
      destruct (Z.even (a / d)); lia.
  - pose proof (rhe_div_bounds a d Hd). pose proof (rhe_div_bounds b d Hd). lia.
Qed.

Lemma rhe_div_scale (n d k : Z) :
  0 < d -> 0 < k -> round_half_even_div (n * k) (d * k) = round_half_even_div n d.
Proof.
  intros Hd Hk. unfold round_half_even_div.
  rewrite Z.div_mul_cancel_r by lia.
  rewrite Z.mul_mod_distr_r by lia.
  replace (2 * (n mod d * k)) with (2 * (n mod d) * k) by lia.
  rewrite <- (Zmult_compare_compat_r (2 * (n mod d)) d k) by lia.
  reflexivity.
Qed.

(** *** The rounding function on units *)

Lemma Zdigits2_bounds (z : Z) :
  0 < z -> 2 ^ (Zdigits2 z - 1) <= z < 2 ^ Zdigits2 z.
Proof.
  destruct z as [| p | p]; try lia. intros _. apply digits2_pos_bounds.
Qed.

Lemma Zdigits2_unique (z d : Z) :
  0 < z -> 2 ^ (d - 1) <= z < 2 ^ d -> Zdigits2 z = d.
Proof.
  destruct z as [| p | p]; try lia. intros _. apply digits_unique.
Qed.

Lemma Zdigits2_pos (z : Z) : 0 < z -> 0 < Zdigits2 z.
Proof. destruct z; simpl; lia. Qed.

Lemma Zdigits2_mono (a b : Z) : 0 < a -> a <= b -> Zdigits2 a <= Zdigits2 b.
Proof.
  intros Ha Hab.
  pose proof (Zdigits2_bounds a Ha) as [Hl _].
  pose proof (Zdigits2_bounds b ltac:(lia)) as [_ Hh].
  pose proof (Zdigits2_pos a Ha). pose proof (Zdigits2_pos b ltac:(lia)).
  destruct (Z.le_gt_cases (Zdigits2 a) (Zdigits2 b)) as [L | G]; [exact L | exfalso].
  assert (2 ^ Zdigits2 b <= 2 ^ (Zdigits2 a - 1)) by (apply Z.pow_le_mono_r; lia).
  lia.
Qed.

Lemma pow2_pos (k : Z) : 0 <= k -> 0 < 2 ^ k.
Proof. intros. apply Z.pow_pos_nonneg; lia. Qed.

(** The significand kept by [rnd_pos] has 53 bits, or 54 after a carry. *)
Lemma rnd_pos_significand (z : Z) :
  0 < z -> 53 <= Zdigits2 z ->
  2 ^ 52 <= round_half_even_div z (2 ^ (Zdigits2 z - 53)) <= 2 ^ 53.
Proof.
  intros Hz Hd. set (n := Zdigits2 z - 53).
  pose proof (Zdigits2_bounds z Hz) as [Hl Hh].
  pose proof (pow2_pos n ltac:(lia)) as Hn.
  replace (Zdigits2 z - 1) with (52 + n) in Hl by lia.
  replace (Zdigits2 z) with (53 + n) in Hh by lia.
  rewrite Z.pow_add_r in Hl, Hh by lia.
  split.
  - rewrite <- (rhe_div_exact (2 ^ 52) (2 ^ n) Hn). apply rhe_div_mono; lia.
  - rewrite <- (rhe_div_exact (2 ^ 53) (2 ^ n) Hn). apply rhe_div_mono; lia.
Qed.

Lemma rnd_pos_small (z : Z) : 0 < z -> Zdigits2 z <= 53 -> rnd_pos z = z.
Proof.
  intros Hz Hd. unfold rnd_pos. rewrite Z.max_l by lia.
  change (2 ^ 0) with 1. rewrite <- (Z.mul_1_r z) at 1.
  rewrite rhe_div_exact by lia.
  pose proof (Zdigits2_bounds z Hz) as [_ Hh].
  assert (2 ^ Zdigits2 z <= 2 ^ 53) by (apply Z.pow_le_mono_r; lia).
  assert (2 ^ 53 < top) by reflexivity.
  lia.
Qed.

Lemma rnd_pos_nonneg (z : Z) : 0 < z -> 0 <= rnd_pos z.
Proof.
  intros Hz. unfold rnd_pos.
  pose proof top_pos.
  set (n := Z.max 0 (Zdigits2 z - 53)).
  pose proof (pow2_pos n ltac:(lia)) as Hn.
  pose proof (rhe_div_bounds z (2 ^ n) Hn).
  pose proof (Z.div_pos z (2 ^ n) ltac:(lia) Hn).
  apply Z.min_glb; [lia | nia].
Qed.

Lemma rnd_pos_mono (a b : Z) : 0 < a -> a <= b -> rnd_pos a <= rnd_pos b.
Proof.
  intros Ha Hab.
  pose proof (Zdigits2_mono a b Ha Hab) as Hd.
  destruct (Z.le_gt_cases (Zdigits2 b) 53) as [Hb | Hb].
  { rewrite !rnd_pos_small by lia. exact Hab. }
  destruct (Z.le_gt_cases (Zdigits2 a) 53) as [Ha53 | Ha53].
  - (* a is exact, b keeps at least 2^52 *)
    rewrite (rnd_pos_small a) by lia.
    unfold rnd_pos. rewrite Z.max_r by lia.
    pose proof (rnd_pos_significand b ltac:(lia) ltac:(lia)) as [Hl _].
    set (n := Zdigits2 b - 53) in *.
    pose proof (pow2_pos n ltac:(lia)) as Hn.
    pose proof (Zdigits2_bounds a Ha) as [_ Hh].
    assert (2 ^ Zdigits2 a <= 2 ^ 53) by (apply Z.pow_le_mono_r; lia).
    assert (2 ^ 53 < top) by reflexivity.
    assert (E : 2 ^ 53 = 2 * 2 ^ 52) by reflexivity.
    assert (2 <= 2 ^ n).
    { change 2 with (2 ^ 1) at 1. apply Z.pow_le_mono_r; lia. }
    apply Z.min_glb; [lia | nia].
  - unfold rnd_pos. rewrite !Z.max_r by lia.
    apply Z.min_le_compat_l.
    destruct (Z.eq_dec (Zdigits2 a) (Zdigits2 b)) as [E | E].
    + rewrite E.
      pose proof (pow2_pos (Zdigits2 b - 53) ltac:(lia)).
      apply Z.mul_le_mono_nonneg_r; [lia |].
      apply rhe_div_mono; lia.
    + pose proof (rnd_pos_significand a Ha ltac:(lia)) as [_ Hha].
      pose proof (rnd_pos_significand b ltac:(lia) ltac:(lia)) as [Hlb _].
      set (na := Zdigits2 a - 53) in *. set (nb := Zdigits2 b - 53) in *.
      pose proof (pow2_pos na ltac:(lia)) as Hna.
      assert (2 * 2 ^ na <= 2 ^ nb).
      { rewrite <- Z.pow_succ_r by lia. apply Z.pow_le_mono_r; lia. }
      assert (E53 : 2 ^ 53 = 2 * 2 ^ 52) by reflexivity.
      nia.
Qed.

Lemma rnd_mono (a b : Z) : a <= b -> rnd a <= rnd b.
Proof.
  intros Hab.
  destruct a as [| p | p], b as [| q | q]; cbn [rnd]; try lia.
  - apply rnd_pos_nonneg; lia.
  - apply rnd_pos_mono; lia.
  - pose proof (rnd_pos_nonneg (Z.pos p)). lia.
  - pose proof (rnd_pos_nonneg (Z.pos p)). pose proof (rnd_pos_nonneg (Z.pos q)). lia.
  - pose proof (rnd_pos_mono (Z.pos q) (Z.pos p)). lia.
Qed.

(** A multiple of [2^k] whose cofactor has at most 53 bits is kept. *)
Lemma rnd_pos_exact (m k : Z) :
  0 < m -> 0 <= k -> Zdigits2 m <= 53 ->
  rnd_pos (m * 2 ^ k) = Z.min top (m * 2 ^ k).
Proof.
  intros Hm Hk Hd.
  pose proof (pow2_pos k Hk) as Hpk.
  assert (Hz : 0 < m * 2 ^ k) by (apply Z.mul_pos_pos; lia).
  assert (Dz : Zdigits2 (m * 2 ^ k) = Zdigits2 m + k).
  { apply Zdigits2_unique; [exact Hz |].
    pose proof (Zdigits2_bounds m Hm) as [Hl Hh].
    pose proof (Zdigits2_pos m Hm).
    replace (Zdigits2 m + k - 1) with ((Zdigits2 m - 1) + k) by lia.
    rewrite !Z.pow_add_r by lia. nia. }
  unfold rnd_pos. rewrite Dz.
  set (n := Z.max 0 (Zdigits2 m + k - 53)).
  assert (Hn : 0 <= n <= k) by (pose proof (Zdigits2_pos m Hm); lia).
  replace k with ((k - n) + n) at 1 by lia.
  rewrite Z.pow_add_r by lia.
  rewrite Z.mul_assoc, rhe_div_exact by (apply pow2_pos; lia).
  rewrite <- Z.mul_assoc, <- Z.pow_add_r by lia.
  replace (k - n + n) with k by lia. reflexivity.
Qed.

(** *** The right shift of [SpecFloat] computes a rounded quotient *)

Lemma iter_pos_nat {A} (f : A -> A) (p : positive) (x : A) :
  SpecFloat.iter_pos f p x = Nat.iter (Pos.to_nat p) f x.
Proof.
  revert x. induction p as [p IH | p IH |]; intros x; cbn [SpecFloat.iter_pos].
  - rewrite !IH, Pos2Nat.inj_xI. cbn [Nat.iter].
    rewrite <- Nat.iter_succ_r. rewrite <- Nat.iter_add. f_equal. lia.
  - rewrite !IH, Pos2Nat.inj_xO. rewrite <- Nat.iter_add. f_equal. lia.
  - reflexivity.
Qed.

Lemma shr_1_fields (m : Z) (r s : bool) :
  0 <= m ->
  shr_1 (Build_shr_record m r s)
  = Build_shr_record (m / 2) (Z.odd m) (r || s).
Proof.
  intros Hm. destruct m as [| p | p]; [reflexivity | | lia].
  destruct p as [p | p |]; cbn [shr_1].
  - f_equal. rewrite Pos2Z.inj_xI. symmetry. 
    rewrite Z.add_comm, Z.mul_comm, Z.div_add by lia. reflexivity.
  - f_equal. rewrite Pos2Z.inj_xO, Z.mul_comm, Z.div_mul by lia. reflexivity.
  - reflexivity.
Qed.

Lemma shifted_step (m0 k : Z) (r : shr_record) :
  0 <= m0 -> 0 <= k -> shifted m0 k r -> shifted m0 (k + 1) (shr_1 r).
Proof.
  intros Hm Hk (Em & Er & Es). destruct r as [m r s]; cbn [shr_m shr_r shr_s] in *.
  pose proof (pow2_pos k Hk) as Hp.
  assert (Hm' : 0 <= m) by (subst m; apply Z.div_pos; lia).
  rewrite shr_1_fields by exact Hm'. cbn [shr_m shr_r shr_s]. unfold shifted.
  cbn [shr_m shr_r shr_s].
  rewrite Z.pow_add_r by lia. change (2 ^ 1) with 2.
  rewrite (Z.rem_mul_r m0 (2 ^ k) 2) by lia.
  rewrite <- Z.div_div by lia. rewrite <- Em.
  pose proof (Z.mod_pos_bound m0 (2 ^ k) Hp) as Hrem.
  set (rem := m0 mod 2 ^ k) in *.
  pose proof (Z.mod_pos_bound m 2 ltac:(lia)) as Hb.
  assert (Eo : Z.odd m = true <-> m mod 2 = 1).
  { rewrite Zmod_odd. destruct (Z.odd m); split; intros; try lia; try discriminate. }
  set (b := m mod 2) in *. set (P := 2 ^ k) in *.
  assert (Hb01 : b = 0 \/ b = 1) by lia.
  split; [reflexivity |]. split.
  - rewrite Eo. destruct Hb01 as [-> | ->]; lia.
  - rewrite orb_true_iff, Er, Es. destruct Hb01 as [-> | ->]; lia.
Qed.

Lemma shifted_iter (m0 : Z) (n : nat) :
  0 <= m0 ->
  shifted m0 (Z.of_nat n) (Nat.iter n shr_1 (Build_shr_record m0 false false)).
Proof.
  intros Hm. induction n as [| n IH].
  - cbn [Nat.iter Z.of_nat]. unfold shifted; cbn [shr_m shr_r shr_s].
    change (2 ^ 0) with 1. rewrite Z.div_1_r, Z.mod_1_r.
    repeat split; intros; try lia; try discriminate.
  - rewrite Nat2Z.inj_succ. cbn [Nat.iter].
    replace (Z.succ (Z.of_nat n)) with (Z.of_nat n + 1) by lia.
    apply shifted_step; [exact Hm | lia | exact IH].
Qed.

Lemma shifted_round (m0 k : Z) (r : shr_record) :
  0 <= k -> shifted m0 k r ->
  round_nearest_even (shr_m r) (loc_of_shr_record r)
  = round_half_even_div m0 (2 ^ k).
Proof.
  intros Hk (Em & Er & Es). unfold round_half_even_div.
  pose proof (pow2_pos k Hk) as Hp.
  pose proof (Z.mod_pos_bound m0 (2 ^ k) Hp) as Hrem.
  destruct r as [m [|] [|]]; cbn [shr_m shr_r shr_s loc_of_shr_record round_nearest_even] in *;
    rewrite <- Em;
    destruct (Z.compare_spec (2 * (m0 mod 2 ^ k)) (2 ^ k)) as [E | L | G];
    try reflexivity; exfalso.
  - apply proj1 in Es. specialize (Es eq_refl). lia.
  - apply proj1 in Er. specialize (Er eq_refl). lia.
  - apply proj1 in Er. specialize (Er eq_refl). lia.
  - apply proj2 in Es. assert (true = true -> False); [| auto]. intros _.
    assert (false = true); [| discriminate]. apply Es. lia.
  - apply proj2 in Er. assert (false = true); [| discriminate]. apply Er. lia.
  - apply proj2 in Er. assert (false = true); [| discriminate]. apply Er. lia.
  - apply proj2 in Es. assert (false = true); [| discriminate]. apply Es. lia.
  - apply proj2 in Er. assert (false = true); [| discriminate]. apply Er. lia.
Qed.

Lemma fexp_eq (x : Z) : fexp prec emax x = Z.max (x - 53) (-1074).
Proof. reflexivity. Qed.

Lemma shr_fexp_keep (m e : Z) :
  fexp prec emax (Zdigits2 m + e) - e <= 0 ->
  shr_fexp prec emax m e loc_Exact = (Build_shr_record m false false, e).
Proof.
  intros Hn. unfold shr_fexp, shr. cbn [shr_record_of_loc].
  destruct (fexp prec emax (Zdigits2 m + e) - e); try reflexivity; lia.
Qed.

Lemma shr_fexp_shift (m e : Z) :
  0 <= m -> 0 < fexp prec emax (Zdigits2 m + e) - e ->
  exists r, shr_fexp prec emax m e loc_Exact
            = (r, e + (fexp prec emax (Zdigits2 m + e) - e))
         /\ shifted m (fexp prec emax (Zdigits2 m + e) - e) r.
Proof.
  intros Hm Hn. unfold shr_fexp, shr. cbn [shr_record_of_loc].
  destruct (fexp prec emax (Zdigits2 m + e) - e) as [| p | p] eqn:E; try lia.
  eexists. split; [reflexivity |].
  rewrite iter_pos_nat. rewrite <- (positive_nat_Z p). apply shifted_iter. exact Hm.
Qed.

(** Rounding a significand that is already in canonical position. *)
Lemma binary_round_aux_keep (s : bool) (m : positive) (e : Z) :
  fexp prec emax (Z.pos (digits2_pos m) + e) = e ->
  binary_round_aux prec emax s (Z.pos m) e loc_Exact
  = if e <=? emax - prec then S754_finite s m e else S754_infinity s.
Proof.
  intros Hc. unfold binary_round_aux.
  rewrite shr_fexp_keep by (cbn [Zdigits2]; lia).
  cbn [shr_m loc_of_shr_record round_nearest_even].
  rewrite shr_fexp_keep by (cbn [Zdigits2]; lia).
  reflexivity.
Qed.

(** Rounding a significand of more than 53 bits. *)
Lemma binary_round_aux_shift (s : bool) (m : positive) (e : Z) :
  -1074 <= e -> 53 < Z.pos (digits2_pos m) ->
  is_nan_sf (binary_round_aux prec emax s (Z.pos m) e loc_Exact) = false
  /\ Zval (binary_round_aux prec emax s (Z.pos m) e loc_Exact)
  = cond_Zopp s (Z.min top
      (round_half_even_div (Z.pos m) (2 ^ (Z.pos (digits2_pos m) - 53))
       * 2 ^ (Z.pos (digits2_pos m) - 53 + (e + 1074)))).
Proof.
  intros He Hd. set (d := Z.pos (digits2_pos m)) in *.
  assert (En : fexp prec emax (Zdigits2 (Z.pos m) + e) - e = d - 53).
  { rewrite fexp_eq. cbn [Zdigits2]. fold d. lia. }
  destruct (shr_fexp_shift (Z.pos m) e ltac:(lia) ltac:(lia)) as (r & Er & Sr).
  rewrite En in Er, Sr.
  unfold binary_round_aux. rewrite Er.
  rewrite (shifted_round (Z.pos m) (d - 53) r ltac:(lia) Sr).
  pose proof (rnd_pos_significand (Z.pos m) ltac:(lia) ltac:(cbn [Zdigits2]; fold d; lia))
    as [Hql Hqh].
  cbn [Zdigits2] in Hql, Hqh. fold d in Hql, Hqh.
  set (q := round_half_even_div (Z.pos m) (2 ^ (d - 53))) in *.
  set (n := d - 53) in *.
  assert (Hq0 : 0 < q) by (assert (0 < 2 ^ 52) by reflexivity; lia).
  assert (E53 : 2 ^ 53 = 2 * 2 ^ 52) by reflexivity.
  assert (Hp52 : 0 < 2 ^ 52) by reflexivity.
  rewrite (Z.pow_add_r 2 n (e + 1074)) by lia.
  pose proof (pow2_pos n ltac:(lia)) as Hpn.
  pose proof (pow2_pos (e + 1074) ltac:(lia)) as Hpe.
  destruct (Z.eq_dec q (2 ^ 53)) as [Ecarry | Ncarry].
  - (* the rounding carried into a 54th bit *)
    assert (Dq : Zdigits2 q = 54).
    { apply Zdigits2_unique; [lia |]. rewrite Ecarry. split; [lia | reflexivity]. }
    destruct (shr_fexp_shift q (e + n) ltac:(lia)) as (r2 & Er2 & Sr2).
    { rewrite fexp_eq, Dq. lia. }
    rewrite Er2. destruct Sr2 as (Em2 & _ & _).
    rewrite fexp_eq, Dq in Em2. replace (Z.max (54 + (e + n) - 53) (-1074) - (e + n)) with 1 in Em2 by lia.
    rewrite Ecarry in Em2. change (2 ^ 53 / 2 ^ 1) with 4503599627370496 in Em2.
    rewrite Em2.
    rewrite fexp_eq, Dq. replace (e + n + (Z.max (54 + (e + n) - 53) (-1074) - (e + n))) with (e + n + 1) by lia.
    change (emax - prec) with 971.
    destruct (Z.leb_spec (e + n + 1) 971) as [Hfin | Hinf];
      (split; [reflexivity |]); cbn [Zval]; f_equal.
    + change 4503599627370496 with (2 ^ 52). rewrite Ecarry, E53.
      replace (e + n + 1 + 1074) with (Z.succ (n + (e + 1074))) by lia.
      rewrite Z.pow_succ_r, Z.pow_add_r by lia.
      assert (2 ^ (n + (e + 1074)) <= 2 ^ 2044) by (apply Z.pow_le_mono_r; lia).
      rewrite Z.pow_add_r in H by lia.
      assert (Etop : top = 2 * 2 ^ 52 * (2 * 2 ^ 2044)) by reflexivity.
      rewrite Z.min_r; [lia |]. rewrite Etop. nia.
    + assert (2 ^ 2045 <= 2 ^ (n + (e + 1074))) by (apply Z.pow_le_mono_r; lia).
      rewrite Z.pow_add_r in H by lia.
      assert (Etop : top = 2 * 2 ^ 52 * 2 ^ 2045) by reflexivity.
      rewrite Z.min_l; [reflexivity |]. rewrite Etop, Ecarry, E53. nia.
  - assert (Dq : Zdigits2 q = 53).
    { apply Zdigits2_unique; [lia |]. change (53 - 1) with 52. lia. }
    rewrite shr_fexp_keep by (rewrite fexp_eq, Dq; lia).
    cbn [shr_m]. destruct q as [| qp | qp]; try lia.
    change (emax - prec) with 971.
    destruct (Z.leb_spec (e + n) 971) as [Hfin | Hinf];
      (split; [reflexivity |]); cbn [Zval]; f_equal.
    + replace (e + n + 1074) with (n + (e + 1074)) by lia.
      rewrite Z.pow_add_r by lia.
      assert (2 ^ (n + (e + 1074)) <= 2 ^ 2045) by (apply Z.pow_le_mono_r; lia).
      rewrite Z.pow_add_r in H by lia.
      assert (Etop : top = 2 * 2 ^ 52 * 2 ^ 2045) by reflexivity.
      rewrite Z.min_r; [lia |]. rewrite Etop. nia.
    + assert (2 ^ 2046 <= 2 ^ (n + (e + 1074))) by (apply Z.pow_le_mono_r; lia).
      rewrite Z.pow_add_r in H by lia.
      assert (Etop : top = 2 ^ 52 * 2 ^ 2046) by reflexivity.
      rewrite Z.min_l; [reflexivity |]. rewrite Etop. nia.
Qed.

Lemma shl_align_spec (m : positive) (e e' : Z) :
  e' <= e ->
  exists mz, shl_align m e e' = (mz, e') /\ Z.pos mz = Z.pos m * 2 ^ (e - e').
Proof.
  intros Hle. unfold shl_align.
  destruct (e' - e) as [| p | p] eqn:E; try lia.
  - assert (e' = e) by lia. subst e'. exists m. split; [reflexivity |].
    rewrite Z.sub_diag. simpl. lia.
  - eexists. split; [reflexivity |]. rewrite iter_xO. f_equal. f_equal. lia.
Qed.

Lemma shl_align_keep (m : positive) (e e' : Z) :
  e < e' -> shl_align m e e' = (m, e).
Proof.
  intros Hlt. unfold shl_align. destruct (e' - e) eqn:E; try reflexivity; lia.
Qed.

(** [binary_round] rounds the value [m * 2^e] as [rnd_pos] rounds its
    number of units. *)
Lemma binary_round_Zval (s : bool) (m : positive) (e : Z) :
  -1074 <= e ->
  is_nan_sf (binary_round prec emax s m e) = false
  /\ Zval (binary_round prec emax s m e)
  = cond_Zopp s (rnd_pos (Z.pos m * 2 ^ (e + 1074))).
Proof.
  intros He. unfold binary_round. set (d := Z.pos (digits2_pos m)).
  pose proof (digits2_pos_bounds m) as Hb. fold d in Hb.
  pose proof (pow2_pos (e + 1074) ltac:(lia)) as Hpe.
  destruct (Z.le_gt_cases d 53) as [Hsmall | Hbig].
  - (* the significand fits: it is shifted left into canonical position *)
    set (e' := fexp prec emax (d + e)).
    assert (He' : e' <= e) by (subst e'; rewrite fexp_eq; lia).
    destruct (shl_align_spec m e e' He') as (mz & -> & Emz).
    assert (Dmz : Z.pos (digits2_pos mz) = d + (e - e')).
    { apply (digits_shift m (e - e') mz); [lia | exact Emz]. }
    rewrite binary_round_aux_keep by (rewrite Dmz; subst e'; f_equal; lia).
    rewrite rnd_pos_exact by (cbn [Zdigits2]; fold d; lia).
    assert (Ev : Z.pos mz * 2 ^ (e' + 1074) = Z.pos m * 2 ^ (e + 1074)).
    { rewrite Emz, <- Z.mul_assoc, <- Z.pow_add_r by (subst e'; rewrite ?fexp_eq; lia).
      f_equal. f_equal. lia. }
    change (emax - prec) with 971.
    destruct (Z.leb_spec e' 971) as [Hfin | Hinf];
      (split; [reflexivity |]); cbn [Zval]; f_equal.
    + rewrite Ev. rewrite Z.min_r; [reflexivity |].
      assert (Hv : valid_binary (S754_finite s mz e') = true).
      { unfold valid_binary, bounded, canonical_mantissa.
        rewrite Dmz. replace (d + (e - e') + e') with (d + e) by lia. fold e'.
        rewrite Z.eqb_refl. change (emax - prec) with 971. apply Z.leb_le. exact Hfin. }
      pose proof (finite_pos_bounds s mz e' Hv). lia.
    + rewrite Z.min_l; [reflexivity |].
      assert (d + e - 53 >= 972) by (subst e'; rewrite fexp_eq in Hinf; lia).
      assert (2 ^ 2098 <= 2 ^ ((d - 1) + (e + 1074))) by (apply Z.pow_le_mono_r; lia).
      rewrite Z.pow_add_r in H0 by lia. unfold top. nia.
  - rewrite shl_align_keep by (rewrite fexp_eq; fold d; lia).
    destruct (binary_round_aux_shift s m e He ltac:(fold d; lia)) as [Hn ->].
    split; [exact Hn |]. fold d.
    f_equal. unfold rnd_pos.
    assert (Dz : Zdigits2 (Z.pos m * 2 ^ (e + 1074)) = d + (e + 1074)).
    { apply Zdigits2_unique; [apply Z.mul_pos_pos; lia |].
      replace (d + (e + 1074) - 1) with ((d - 1) + (e + 1074)) by lia.
      rewrite (Z.pow_add_r 2 (d - 1) (e + 1074)), (Z.pow_add_r 2 d (e + 1074)) by lia.
      nia. }
    rewrite Dz. rewrite Z.max_r by lia.
    replace (d + (e + 1074) - 53) with (d - 53 + (e + 1074)) by lia.
    rewrite (Z.pow_add_r 2 (d - 53) (e + 1074)) by lia.
    rewrite rhe_div_scale; [reflexivity | apply pow2_pos; lia | exact Hpe].
Qed.

Lemma rnd_opp (z : Z) : rnd (- z) = - rnd z.
Proof.
  destruct z as [| p | p]; [reflexivity | reflexivity |].
  change (- Z.neg p) with (Z.pos p). cbn [rnd]. symmetry. apply Z.opp_involutive.
Qed.

Lemma binary_normalize_Zval (z e : Z) :
  -1074 <= e ->
  is_nan_sf (binary_normalize prec emax z e false) = false
  /\ Zval (binary_normalize prec emax z e false) = rnd (z * 2 ^ (e + 1074)).
Proof.
  intros He. pose proof (pow2_pos (e + 1074) ltac:(lia)) as Hp.
  destruct z as [| p | p]; cbn [binary_normalize].
  - split; reflexivity.
  - destruct (binary_round_Zval false p e He) as [Hn ->]. split; [exact Hn |].
    cbn [cond_Zopp].
    destruct (Z.pos p * 2 ^ (e + 1074)) eqn:E; try lia. reflexivity.
  - destruct (binary_round_Zval true p e He) as [Hn ->]. split; [exact Hn |].
    cbn [cond_Zopp].
    replace (Z.neg p * 2 ^ (e + 1074)) with (- (Z.pos p * 2 ^ (e + 1074))) by lia.
    rewrite rnd_opp.
    destruct (Z.pos p * 2 ^ (e + 1074)) eqn:E; try lia. reflexivity.
Qed.

Lemma rnd_Zval (x : spec_float) :
  valid_binary x = true ->
  match x with S754_infinity _ => False | _ => True end ->
  rnd (Zval x) = Zval x.
Proof.
  intros Hv Hfin. destruct x as [s | s | | s m e]; try reflexivity; [contradiction |].
  pose proof (finite_pos_bounds s m e Hv) as Hb.
  apply valid_finite in Hv as (He & Hd & _).
  assert (E : rnd_pos (Z.pos m * 2 ^ (e + 1074)) = Z.pos m * 2 ^ (e + 1074)).
  { rewrite rnd_pos_exact by (cbn [Zdigits2]; lia). lia. }
  cbn [Zval]. destruct s; cbn [cond_Zopp].
  - rewrite rnd_opp. f_equal.
    destruct (Z.pos m * 2 ^ (e + 1074)) eqn:Ez; try lia. exact E.
  - destruct (Z.pos m * 2 ^ (e + 1074)) eqn:Ez; try lia. exact E.
Qed.

Lemma Zval_finite_split (s : bool) (m : positive) (e ez : Z) :
  -1074 <= ez <= e ->
  Zval (S754_finite s m e)
  = cond_Zopp s (Z.pos (fst (shl_align m e ez))) * 2 ^ (ez + 1074).
Proof.
  intros He. destruct (shl_align_spec m e ez ltac:(lia)) as (mz & -> & Emz).
  cbn [fst Zval]. rewrite Emz.
  replace (e + 1074) with ((e - ez) + (ez + 1074)) by lia.
  rewrite Z.pow_add_r by lia. destruct s; cbn [cond_Zopp]; lia.
Qed.

(** Addition of finite numbers is the rounded sum of their values. *)
Lemma SFadd_Zval (x y : spec_float) :
  valid_binary x = true -> valid_binary y = true ->
  finite_sf x = true -> finite_sf y = true ->
  is_nan_sf (SF64add x y) = false
  /\ Zval (SF64add x y) = rnd (Zval x + Zval y).
Proof.
  intros Hx Hy Fx Fy.
  destruct x as [sx | sx | | sx mx ex], y as [sy | sy | | sy my ey];
    try discriminate; unfold SF64add; cbn [SFadd].
  - split; [destruct sx, sy; reflexivity |]. destruct sx, sy; reflexivity.
  - split; [reflexivity |]. change (Zval (S754_zero sx)) with 0.
    rewrite Z.add_0_l. symmetry. apply rnd_Zval; [exact Hy | exact I].
  - split; [reflexivity |]. change (Zval (S754_zero sy)) with 0.
    rewrite Z.add_0_r. symmetry. apply rnd_Zval; [exact Hx | exact I].
  - pose proof (valid_finite _ _ _ Hx) as (Hex & _).
    pose proof (valid_finite _ _ _ Hy) as (Hey & _).
    set (ez := Z.min ex ey).
    destruct (binary_normalize_Zval
      (cond_Zopp sx (Z.pos (fst (shl_align mx ex ez)))
       + cond_Zopp sy (Z.pos (fst (shl_align my ey ez)))) ez ltac:(lia)) as [Hn ->].
    split; [exact Hn |]. f_equal.
    rewrite (Zval_finite_split sx mx ex ez) by lia.
    rewrite (Zval_finite_split sy my ey ez) by lia. lia.
Qed.

Lemma SFcompare_nan_l (y : spec_float) : SFcompare S754_nan y = None.
Proof. reflexivity. Qed.

Lemma SFcompare_nan_r (x : spec_float) : SFcompare x S754_nan = None.
Proof. destruct x; reflexivity. Qed.

Lemma compare_fv (x y : float) :
  SFcompare (Prim2SF x) (Prim2SF y)
  = if fnan x || fnan y then None else Some (fv x ?= fv y).
Proof.
  unfold fnan, fv.
  pose proof (Prim2SF_valid x) as Hx. pose proof (Prim2SF_valid y) as Hy.
  destruct (is_nan_sf (Prim2SF x)) eqn:Nx.
  { destruct (Prim2SF x); try discriminate; reflexivity. }
  destruct (is_nan_sf (Prim2SF y)) eqn:Ny.
  { destruct (Prim2SF y); try discriminate; apply SFcompare_nan_r. }
  apply compare_Zval; assumption.
Qed.

Lemma ltb_fv (x y : float) :
  (x <? y)%float = negb (fnan x) && negb (fnan y) && (fv x <? fv y).
Proof.
  rewrite ltb_spec. unfold SFltb. rewrite compare_fv.
  destruct (fnan x), (fnan y); reflexivity.
Qed.

Lemma leb_fv (x y : float) :
  (x <=? y)%float = negb (fnan x) && negb (fnan y) && (fv x <=? fv y).
Proof.
  rewrite leb_spec. unfold SFleb. rewrite compare_fv.
  destruct (fnan x), (fnan y); reflexivity.
Qed.

Lemma Zval_range (x : spec_float) :
  valid_binary x = true -> - top <= Zval x <= top.
Proof.
  intros Hv. pose proof top_pos.
  destruct x as [s | s | | s m e]; cbn [Zval]; try lia.
  - destruct s; cbn [cond_Zopp]; lia.
  - pose proof (finite_pos_bounds s m e Hv). destruct s; cbn [cond_Zopp]; lia.
Qed.

Lemma fv_range (x : float) : - top <= fv x <= top.
Proof. apply Zval_range, Prim2SF_valid. Qed.

Lemma rnd_range (z : Z) : - top <= rnd z <= top.
Proof.
  pose proof top_pos.
  destruct z as [| p | p]; cbn [rnd]; [lia | |].
  - pose proof (rnd_pos_nonneg (Z.pos p) ltac:(lia)).
    unfold rnd_pos in *. lia.
  - pose proof (rnd_pos_nonneg (Z.pos p) ltac:(lia)).
    unfold rnd_pos in *. lia.
Qed.

(** Adding a finite number to a number that is not NaN. *)
Lemma add_fv (x c : float) :
  fnan x = false -> ffinite c = true ->
  fnan (x + c) = false
  /\ fv (x + c) = if ffinite x then rnd (fv x + fv c) else fv x.
Proof.
  unfold fnan, fv, ffinite. intros Nx Fc. rewrite add_spec.
  pose proof (Prim2SF_valid x) as Hx. pose proof (Prim2SF_valid c) as Hc.
  destruct (finite_sf (Prim2SF x)) eqn:Fx.
  - apply SFadd_Zval; assumption.
  - destruct (Prim2SF x) as [sx | sx | | sx mx ex]; try discriminate.
    destruct (Prim2SF c) as [sc | sc | | sc mc ec]; try discriminate;
      split; reflexivity.
Qed.

Lemma add_nan (x c : float) : fnan x = true -> fnan (x + c) = true.
Proof.
  unfold fnan. rewrite add_spec. destruct (Prim2SF x); try discriminate. reflexivity.
Qed.

Lemma fv_inf (x : float) :
  fnan x = false -> ffinite x = false -> fv x = top \/ fv x = - top.
Proof.
  unfold fnan, fv, ffinite.
  destruct (Prim2SF x) as [s | s | | s m e]; try discriminate.
  destruct s; cbn [Zval cond_Zopp]; auto.
Qed.

Lemma fv_finite_lt (x : float) : ffinite x = true -> - top < fv x < top.
Proof.
  unfold fv, ffinite. pose proof (Prim2SF_valid x) as Hv. pose proof top_pos.
  destruct (Prim2SF x) as [s | s | | s m e]; try discriminate; cbn [Zval]; intros _; try lia.
  pose proof (finite_pos_bounds s m e Hv). destruct s; cbn [cond_Zopp]; lia.
Qed.

(** Adding the same finite number preserves the order. *)
Lemma add_mono (x y c : float) :
  fnan x = false -> fnan y = false -> ffinite c = true ->
  fv x <= fv y -> fv (x + c) <= fv (y + c).
Proof.
  intros Nx Ny Fc Hxy.
  destruct (add_fv x c Nx Fc) as [_ Ex]. destruct (add_fv y c Ny Fc) as [_ Ey].
  rewrite Ex, Ey.
  destruct (ffinite x) eqn:Fx, (ffinite y) eqn:Fy.
  - apply rnd_mono. lia.
  - pose proof (fv_finite_lt x Fx). pose proof (rnd_range (fv x + fv c)).
    destruct (fv_inf y Ny Fy); lia.
  - pose proof (fv_finite_lt y Fy). pose proof (rnd_range (fv y + fv c)).
    destruct (fv_inf x Nx Fx); lia.
  - exact Hxy.
Qed.

(** Adding a non-negative finite number never decreases a number. *)
Lemma add_increases (x c : float) :
  fnan x = false -> ffinite c = true -> 0 <= fv c -> fv x <= fv (x + c).
Proof.
  intros Nx Fc Hc. destruct (add_fv x c Nx Fc) as [_ ->].
  destruct (ffinite x) eqn:Fx; [| lia].
  assert (E : rnd (fv x) = fv x).
  { unfold fv, ffinite in *. apply rnd_Zval; [apply Prim2SF_valid |].
    destruct (Prim2SF x); try discriminate; exact I. }
  rewrite <- E at 1. apply rnd_mono. lia.
Qed.

End F64Facts.

(* ===================================================================== *)
(** * Facts about the clamp and the rounding to three decimals           *)
(* ===================================================================== *)

Module ScoreFacts.
Import F64 F64Facts Scorer.
Import Notions Examples.

Lemma fv_one : fv 1 = one_units.
Proof. vm_compute. reflexivity. Qed.

Lemma fv_zero : fv 0 = 0.
Proof. reflexivity. Qed.

Lemma one_units_pos : 0 < one_units.
Proof. reflexivity. Qed.

Lemma clamp_nan (b : float) : fnan b = true -> clamp b = 1%float.
Proof.
  intros Hn. unfold clamp, py_min, py_max. rewrite (ltb_fv b 1), Hn. reflexivity.
Qed.

(** The clamp returns its argument, [0.0] or [1.0]. *)
Lemma clamp_cases (b : float) :
  fnan b = false ->
  (clamp b = b /\ 0 < fv b < one_units)
  \/ (clamp b = 0%float /\ fv b <= 0)
  \/ (clamp b = 1%float /\ one_units <= fv b).
Proof.
  intros Hn. unfold clamp, py_min, py_max.
  rewrite (ltb_fv b 1), Hn, fv_one. change (fnan 1) with false. cbn [negb andb].
  destruct (Z.ltb_spec (fv b) one_units) as [Hlt | Hge].
  - rewrite (ltb_fv 0 b), Hn, fv_zero. change (fnan 0) with false. cbn [negb andb].
    destruct (Z.ltb_spec 0 (fv b)) as [Hpos | Hneg]; [left | right; left]; auto.
  - right; right. split; [reflexivity | exact Hge].
Qed.

Lemma clamp_fv (b : float) :
  fnan b = false ->
  fnan (clamp b) = false /\ fv (clamp b) = Z.max 0 (Z.min one_units (fv b)).
Proof.
  intros Hn. pose proof one_units_pos.
  destruct (clamp_cases b Hn) as [[-> Hb] | [[-> Hb] | [-> Hb]]].
  - split; [exact Hn | lia].
  - split; [reflexivity | rewrite fv_zero; lia].
  - split; [reflexivity | rewrite fv_one; lia].
Qed.

Lemma clamp_not_nan (b : float) : fnan (clamp b) = false.
Proof.
  destruct (fnan b) eqn:Hn.
  - rewrite (clamp_nan b Hn). reflexivity.
  - apply clamp_fv, Hn.
Qed.

Lemma clamp_fv_range (b : float) : 0 <= fv (clamp b) <= one_units.
Proof.
  pose proof one_units_pos.
  destruct (fnan b) eqn:Hn.
  - rewrite (clamp_nan b Hn), fv_one. lia.
  - destruct (clamp_fv b Hn) as [_ ->]. lia.
Qed.

(** The clamped score lies between [0.0] and [1.0]. *)
Lemma clamp_range (b : float) :
  (0 <=? clamp b)%float = true /\ (clamp b <=? 1)%float = true.
Proof.
  pose proof (clamp_fv_range b) as [Hl Hh].
  rewrite !leb_fv, clamp_not_nan, fv_zero, fv_one.
  change (fnan 0) with false. change (fnan 1) with false. cbn [negb andb].
  split; apply Z.leb_le; assumption.
Qed.

Lemma clamp_mono (a b : float) : fle a b -> fv (clamp a) <= fv (clamp b).
Proof.
  intros [[Ha Hb] | (Ha & Hb & Hab)].
  - rewrite (clamp_nan a Ha), (clamp_nan b Hb). lia.
  - destruct (clamp_fv a Ha) as [_ ->]. destruct (clamp_fv b Hb) as [_ ->]. lia.
Qed.

(** *** Rounding to three decimals *)

Lemma positive_is_finite (x : float) :
  fnan x = false -> 0 < fv x < top ->
  exists m e, Prim2SF x = S754_finite false m e.
Proof.
  unfold fnan, fv. pose proof (Prim2SF_valid x) as Hv. pose proof top_pos.
  destruct (Prim2SF x) as [s | s | | s m e]; cbn [Zval is_nan_sf];
    intros Hn Hpos; try discriminate; try lia.
  - destruct s; cbn [cond_Zopp] in Hpos; lia.
  - pose proof (finite_pos_bounds s m e Hv).
    destruct s; cbn [cond_Zopp] in Hpos; [lia |]. eauto.
Qed.

Lemma milli_qmilli (m : positive) (e : Z) :
  valid_binary (S754_finite false m e) = true ->
  milli m e = qmilli (Z.pos m * 2 ^ (e + 1074)).
Proof.
  intros Hv. apply valid_finite in Hv as (He & _).
  unfold milli, qmilli, one_units.
  destruct (Z.leb_spec 0 e) as [Hpos | Hneg].
  - rewrite (Z.pow_add_r 2 e 1074) by lia.
    replace (1000 * (Z.pos m * (2 ^ e * 2 ^ 1074)))
      with (Z.pos m * 1000 * 2 ^ e * 2 ^ 1074) by lia.
    rewrite rhe_div_exact by reflexivity. reflexivity.
  - replace (2 ^ 1074) with (2 ^ (- e) * 2 ^ (e + 1074)).
    + replace (1000 * (Z.pos m * 2 ^ (e + 1074)))
        with (Z.pos m * 1000 * 2 ^ (e + 1074)) by lia.
      rewrite rhe_div_scale; [reflexivity | apply pow2_pos; lia | apply pow2_pos; lia].
    + rewrite <- Z.pow_add_r by lia. f_equal. lia.
Qed.

Lemma one_units_lt_top : one_units < top.
Proof. reflexivity. Qed.

(** On a clamped score, [round3] is the nearest binary64 of a whole
    number of thousandths. *)
Lemma round3_clamp (b : float) :
  round3 (clamp b) = ofmilli (qmilli (fv (clamp b))).
Proof.
  destruct (fnan b) eqn:Hn.
  { rewrite (clamp_nan b Hn). vm_compute. reflexivity. }
  destruct (clamp_cases b Hn) as [[-> Hb] | [[-> Hb] | [-> Hb]]].
  - pose proof one_units_lt_top.
    destruct (positive_is_finite b Hn ltac:(lia)) as (m & e & E).
    unfold round3, ofmilli, fv. rewrite E. cbn [Zval cond_Zopp].
    rewrite milli_qmilli; [reflexivity |].
    rewrite <- E. apply Prim2SF_valid.
  - vm_compute. reflexivity.
  - vm_compute. reflexivity.
Qed.

Lemma qmilli_mono (a b : Z) : a <= b -> qmilli a <= qmilli b.
Proof.
  intros Hab. unfold qmilli. apply rhe_div_mono; [exact one_units_pos | lia].
Qed.

Lemma qmilli_range (v : Z) : 0 <= v <= one_units -> 0 <= qmilli v <= 1000.
Proof.
  intros [Hl Hh]. split.
  - change 0 with (qmilli 0) at 1. apply qmilli_mono, Hl.
  - replace 1000 with (qmilli one_units).
    + apply qmilli_mono, Hh.
    + unfold qmilli. apply rhe_div_exact. exact one_units_pos.
Qed.

Lemma ofmilli_steps_ok : ofmilli_steps = true.
Proof. vm_cast_no_check (eq_refl true). Qed.

Lemma ofmilli_step (n : nat) :
  (n < 1000)%nat ->
  (ofmilli (Z.of_nat n) <=? ofmilli (Z.of_nat (S n)))%float = true.
Proof.
  intros Hn. pose proof ofmilli_steps_ok as H. unfold ofmilli_steps in H.
  rewrite forallb_forall in H. apply H. apply in_seq. lia.
Qed.

Lemma leb_true_fv (a b : float) :
  (a <=? b)%float = true <-> fnan a = false /\ fnan b = false /\ fv a <= fv b.
Proof.
  rewrite leb_fv, !andb_true_iff, !negb_true_iff, Z.leb_le. tauto.
Qed.

Lemma ofmilli_mono_nat (n k : nat) :
  (n + k <= 1000)%nat ->
  fnan (ofmilli (Z.of_nat n)) = false
  /\ fnan (ofmilli (Z.of_nat (n + k))) = false
  /\ fv (ofmilli (Z.of_nat n)) <= fv (ofmilli (Z.of_nat (n + k))).
Proof.
  induction k as [| k IH]; intros Hk.
  - rewrite Nat.add_0_r.
    assert (Hn : fnan (ofmilli (Z.of_nat n)) = false).
    { destruct (Nat.eq_dec n 1000%nat) as [-> | Hne]; [reflexivity |].
      pose proof (ofmilli_step n ltac:(lia)) as Hs.
      apply leb_true_fv in Hs. tauto. }
    repeat split; try exact Hn. lia.
  - destruct (IH ltac:(lia)) as (Hn & _ & Hle).
    pose proof (ofmilli_step (n + k) ltac:(lia)) as Hs.
    apply leb_true_fv in Hs as (_ & Hn' & Hle').
    replace (n + S k)%nat with (S (n + k)) by lia.
    repeat split; [exact Hn | exact Hn' | lia].
Qed.

Lemma ofmilli_mono (p q : Z) :
  0 <= p <= q -> q <= 1000 -> (ofmilli p <=? ofmilli q)%float = true.
Proof.
  intros Hp Hq.
  pose proof (ofmilli_mono_nat (Z.to_nat p) (Z.to_nat (q - p)) ltac:(lia)) as H.
  replace (Z.to_nat p + Z.to_nat (q - p))%nat with (Z.to_nat q) in H by lia.
  rewrite !Z2Nat.id in H by lia. apply leb_true_fv. exact H.
Qed.

Lemma final_thousandths (base : float) :
  exists q, 0 <= q <= 1000 /\ final base = ofmilli q.
Proof.
  exists (qmilli (fv (clamp base))). split.
  - apply qmilli_range, clamp_fv_range.
  - apply round3_clamp.
Qed.

Lemma final_range (base : float) :
  (0 <=? final base)%float = true /\ (final base <=? 1)%float = true.
Proof.
  destruct (final_thousandths base) as (q & Hq & ->).
  split.
  - change 0%float with (ofmilli 0). apply ofmilli_mono; lia.
  - change 1%float with (ofmilli 1000). apply ofmilli_mono; lia.
Qed.

Lemma final_mono (a b : float) :
  fle a b -> (final a <=? final b)%float = true.
Proof.
  intros Hab. unfold final. rewrite !round3_clamp.
  pose proof (clamp_fv_range a). pose proof (clamp_fv_range b).
  pose proof (clamp_mono a b Hab).
  apply ofmilli_mono.
  - split; [apply qmilli_range; assumption | apply qmilli_mono; assumption].
  - apply qmilli_range; assumption.
Qed.

End ScoreFacts.

(* ===================================================================== *)
(** * The suspicion scorer                                               *)
(* ===================================================================== *)

Module ScorerFacts.
Import F64 F64Facts ScoreFacts Scorer.
Import Notions Examples.

(** Replace the base named in [Hb : t = (b, rs)] by the first component
    of [t]. *)
Ltac base_of Hb :=
  match type of Hb with
  | ?t = (?b, _) => replace b with (t.1) by (rewrite Hb; reflexivity)
  end.

Section Facts.
Context `{Builtins}.

Lemma compute_score_inv (e v : gmap string pyval) (sender : string)
    (r : gmap string pyval) :
  compute_score e v sender = Ok r ->
  exists base reasons,
    base_and_reasons e v sender = Ok (base, reasons) /\ r = result_of base reasons.
Proof.
  unfold compute_score. destruct (base_and_reasons e v sender) as [[b rs] | x]; cbn.
  - intros [= <-]. eauto.
  - discriminate.
Qed.

Lemma compute_score_ok (e v : gmap string pyval) (sender : string)
    (st : float * list pyval) :
  base_and_reasons e v sender = Ok st ->
  compute_score e v sender = Ok (result_of st.1 st.2).
Proof. unfold compute_score. intros ->. reflexivity. Qed.

Lemma result_score (base : float) (reasons : list pyval) :
  result_of base reasons !! "suspicious_score" = Some (VFloat (final base)).
Proof. reflexivity. Qed.

Lemma result_action (base : float) (reasons : list pyval) :
  result_of base reasons !! "action" = Some (VStr (action_of (clamp base))).
Proof. reflexivity. Qed.

Lemma result_reasons (base : float) (reasons : list pyval) :
  result_of base reasons !! "reasons" = Some (VList reasons).
Proof. reflexivity. Qed.

Lemma fle_refl (a : float) : fle a a.
Proof. unfold fle. destruct (fnan a); [left | right]; repeat split; lia. Qed.

Lemma fle_trans (a b c : float) : fle a b -> fle b c -> fle a c.
Proof.
  unfold fle. intros [[? ?] | (? & ? & ?)] [[? ?] | (? & ? & ?)];
    try congruence; [left | right]; repeat split; try assumption; lia.
Qed.

Lemma fle_add_both (a b c : float) :
  ffinite c = true -> fle a b -> fle (a + c) (b + c).
Proof.
  intros Fc [[Ha Hb] | (Ha & Hb & Hab)].
  - left. split; apply add_nan; assumption.
  - right. destruct (add_fv a c Ha Fc) as [Na _]. destruct (add_fv b c Hb Fc) as [Nb _].
    repeat split; try assumption. apply add_mono; assumption.
Qed.

Lemma fle_add_r (a c : float) :
  ffinite c = true -> 0 <= fv c -> fle a (a + c).
Proof.
  intros Fc Hc. destruct (fnan a) eqn:Ha.
  - left. split; [exact Ha | apply add_nan, Ha].
  - right. destruct (add_fv a c Ha Fc) as [Na _].
    repeat split; try assumption. apply add_increases; assumption.
Qed.

Lemma increment_facts :
  (ffinite 0.35 = true /\ 0 <= fv 0.35)
  /\ (ffinite 0.30 = true /\ 0 <= fv 0.30)
  /\ (ffinite 0.15 = true /\ 0 <= fv 0.15).
Proof. repeat split; vm_compute; congruence. Qed.

Lemma hold_above_request (score : float) :
  (0.75 <=? score)%float = true -> (0.35 <=? score)%float = true.
Proof.
  rewrite !leb_true_fv. intros (_ & Hn & Hle).
  split; [reflexivity |]. split; [exact Hn |].
  assert (fv 0.35 <= fv 0.75) by (vm_compute; discriminate). lia.
Qed.

Lemma bump_invoice_mono (e v : gmap string pyval) (a b : float * list pyval) :
  fle a.1 b.1 -> fle (bump_invoice e v a).1 (bump_invoice e v b).1.
Proof.
  intros Hab. unfold bump_invoice.
  destruct (truthy (Py.get e "invoice_number") && negb (truthy (Py.get v "invoice_exists")));
    [| exact Hab].
  cbn [fst]. apply fle_add_both; [apply increment_facts | exact Hab].
Qed.

Lemma bump_invoice_incr (e v : gmap string pyval) (a : float * list pyval) :
  fle a.1 (bump_invoice e v a).1.
Proof.
  unfold bump_invoice.
  destruct (truthy (Py.get e "invoice_number") && negb (truthy (Py.get v "invoice_exists")));
    [| apply fle_refl].
  cbn [fst]. apply fle_add_r; apply increment_facts.
Qed.

Lemma bump_sender_mono (sender : string) (a b : float * list pyval) :
  fle a.1 b.1 -> fle (bump_sender sender a).1 (bump_sender sender b).1.
Proof.
  intros Hab. unfold bump_sender.
  destruct (truthy (VStr sender) && negb (trusted_sender sender)); [| exact Hab].
  cbn [fst]. apply fle_add_both; [apply increment_facts | exact Hab].
Qed.

Lemma bump_sender_incr (sender : string) (a : float * list pyval) :
  fle a.1 (bump_sender sender a).1.
Proof.
  unfold bump_sender.
  destruct (truthy (VStr sender) && negb (trusted_sender sender)); [| apply fle_refl].
  cbn [fst]. apply fle_add_r; apply increment_facts.
Qed.

Lemma bump_sender_trusted (sender : string) (a : float * list pyval) :
  trusted_sender sender = true -> bump_sender sender a = a.
Proof. unfold bump_sender. intros ->. rewrite andb_false_r. reflexivity. Qed.

Lemma bump_sender_empty (a : float * list pyval) : bump_sender "" a = a.
Proof. reflexivity. Qed.

Lemma base_and_reasons_eq (e v : gmap string pyval) (sender : string) :
  base_and_reasons e v sender
  = match confidence_of e with
    | Ok c =>
        match bump_contradictions v ((1 - c)%float, []) with
        | Ok st => Ok (bump_sender sender (bump_invoice e v st))
        | Raise x => Raise x
        end
    | Raise x => Raise x
    end.
Proof.
  unfold base_and_reasons, confidence_of.
  destruct (py_float _) as [c | x]; [| reflexivity].
  cbn. destruct (bump_contradictions _ _); reflexivity.
Qed.

(** [compute_score] returns exactly when the confidence converts to a
    float and the contradictions, if there are any, can be iterated. *)
Lemma compute_score_returns (e v : gmap string pyval) (sender : string) :
  is_ok (compute_score e v sender)
  = is_ok (confidence_of e)
    && (negb (truthy (Py.get v "contradictions"))
        || is_ok (py_iter (Py.get v "contradictions"))).
Proof.
  unfold compute_score. rewrite base_and_reasons_eq.
  destruct (confidence_of e) as [c | x]; [| reflexivity].
  unfold bump_contradictions, Py.get, Py.get_or.
  destruct (v !! "contradictions") as [l |]; [| reflexivity].
  cbn. destruct (truthy l); [| reflexivity].
  destruct (py_iter l); reflexivity.
Qed.

Lemma get_insert (v : gmap string pyval) (k : string) (x : pyval) :
  Py.get (<[k := x]> v) k = x.
Proof. unfold Py.get. rewrite lookup_insert_eq. reflexivity. Qed.

Lemma get_insert_ne (v : gmap string pyval) (k k' : string) (x : pyval) :
  k <> k' -> Py.get (<[k := x]> v) k' = Py.get v k'.
Proof. intros Hk. unfold Py.get. rewrite lookup_insert_ne by exact Hk. reflexivity. Qed.

Lemma get_or_insert (v : gmap string pyval) (k : string) (x d : pyval) :
  Py.get_or (<[k := x]> v) k d = x.
Proof. unfold Py.get_or. rewrite lookup_insert_eq. reflexivity. Qed.

Lemma bump_contradictions_list (v : gmap string pyval) (l : list pyval)
    (st : float * list pyval) :
  bump_contradictions (<["contradictions" := VList l]> v) st
  = Ok (match l with
        | [] => st
        | _ :: _ => ((st.1 + 0.35)%float, st.2 ++ l)
        end).
Proof.
  unfold bump_contradictions. rewrite get_insert, get_or_insert.
  destruct l; reflexivity.
Qed.

Lemma bump_invoice_other (e v : gmap string pyval) (k : string) (x : pyval)
    (st : float * list pyval) :
  k <> "invoice_exists" ->
  bump_invoice e (<[k := x]> v) st = bump_invoice e v st.
Proof. intros Hk. unfold bump_invoice. rewrite get_insert_ne by exact Hk. reflexivity. Qed.

Lemma bump_contradictions_other (v : gmap string pyval) (k : string) (x : pyval)
    (st : float * list pyval) :
  k <> "contradictions" ->
  bump_contradictions (<[k := x]> v) st = bump_contradictions v st.
Proof.
  intros Hk. unfold bump_contradictions, Py.get_or.
  rewrite get_insert_ne, lookup_insert_ne by exact Hk. reflexivity.
Qed.

Lemma length_smap (f : ascii -> ascii) (s : string) :
  String.length (smap f s) = String.length s.
Proof. induction s as [| c s IH]; cbn; [reflexivity | f_equal; exact IH]. Qed.

Lemma substring_smap (f : ascii -> ascii) (s : string) (n m : nat) :
  substring n m (smap f s) = smap f (substring n m s).
Proof.
  revert n m. induction s as [| c s IH]; intros n m.
  - destruct n, m; reflexivity.
  - destruct n as [| n].
    + destruct m as [| m]; [reflexivity |]. cbn. f_equal. apply (IH 0%nat m).
    + cbn. apply IH.
Qed.

(** A text that ends with a suffix still does once both are
    lower-cased. *)
Lemma endswith_lower (s p : string) :
  endswith s p = true -> endswith (lower s) (lower p) = true.
Proof.
  unfold endswith, lower. rewrite !length_smap, !andb_true_iff, !String.eqb_eq.
  intros [Hlen Hsub]. split; [exact Hlen |].
  rewrite substring_smap, Hsub. reflexivity.
Qed.

Lemma score_le_results (b0 b1 : float) (rs0 rs1 : list pyval) :
  fle b0 b1 -> score_le (result_of b0 rs0) (result_of b1 rs1).
Proof.
  intros Hb. exists (final b0), (final b1).
  split; [reflexivity |]. split; [reflexivity |]. apply final_mono, Hb.
Qed.

End Facts.
End ScorerFacts.

(** C1 (as amended). Whenever [compute_score] returns, the score it
    returns is [round(score, 3)] of the clamped base: the binary64
    nearest to a whole number [q] of thousandths with [0 <= q <= 1000],
    so it lies in [[0.0, 1.0]]. The action is decided by the clamped base
    before it is rounded: [HOLD_PAYMENT] exactly when it is at least
    0.75, [REQUEST_DOCS] exactly when it is at least 0.35 and not at
    least 0.75, [AUTO_APPROVE] exactly when it is not at least 0.35; in
    particular an unrounded score of 0.75 gives [HOLD_PAYMENT], 0.35 gives
    [REQUEST_DOCS] and 0.349 gives [AUTO_APPROVE]. *)
Theorem C1_score_and_action `{Builtins}
    (extraction verification : gmap string pyval) (sender : string)
    (r : gmap string pyval) :
  Scorer.compute_score extraction verification sender = Ok r ->
  exists base reasons q,
    Scorer.base_and_reasons extraction verification sender = Ok (base, reasons)
    /\ r !! "suspicious_score" = Some (VFloat (round3 (Scorer.clamp base)))
    /\ 0 <= q <= 1000
    /\ round3 (Scorer.clamp base) = float_of_ratio false q 1000
    /\ (0 <=? round3 (Scorer.clamp base))%float = true
    /\ (round3 (Scorer.clamp base) <=? 1)%float = true
    /\ r !! "action" = Some (VStr (Scorer.action_of (Scorer.clamp base)))
    /\ (Scorer.action_of (Scorer.clamp base) = "HOLD_PAYMENT"
        <-> (0.75 <=? Scorer.clamp base)%float = true)
    /\ (Scorer.action_of (Scorer.clamp base) = "REQUEST_DOCS"
        <-> (0.35 <=? Scorer.clamp base)%float = true
            /\ (0.75 <=? Scorer.clamp base)%float = false)
    /\ (Scorer.action_of (Scorer.clamp base) = "AUTO_APPROVE"
        <-> (0.35 <=? Scorer.clamp base)%float = false)
    /\ Scorer.action_of 0.75 = "HOLD_PAYMENT"
    /\ Scorer.action_of 0.35 = "REQUEST_DOCS"
    /\ Scorer.action_of 0.349 = "AUTO_APPROVE".
Proof.
  intros Hr.
  destruct (ScorerFacts.compute_score_inv _ _ _ _ Hr) as (base & reasons & Hb & ->).
  destruct (ScoreFacts.final_thousandths base) as (q & Hq & Eq).
  destruct (ScoreFacts.final_range base) as [Hlo Hhi].
  exists base, reasons, q.
  split; [exact Hb |]. split; [reflexivity |]. split; [exact Hq |].
  split; [exact Eq |]. split; [exact Hlo |]. split; [exact Hhi |].
  split; [reflexivity |].
  unfold Scorer.action_of, fge.
  destruct (0.75 <=? Scorer.clamp base)%float eqn:E75;
    destruct (0.35 <=? Scorer.clamp base)%float eqn:E35;
    repeat split; intros; try discriminate; try reflexivity;
    try (destruct_and?; discriminate).
  pose proof (ScorerFacts.hold_above_request _ E75). congruence.
Qed.

(** C1, a run of the theorem: confidence 0.9 and nothing else. *)
Lemma C1_witness :
  @Scorer.compute_score Examples.plain_builtins
     (<["confidence" := VFloat 0.9]> ∅) ∅ ""
  = Ok (Notions.result_of (1 - 0.9) [])
  /\ exists base,
       Notions.result_of (1 - 0.9) [] !! "suspicious_score"
       = Some (VFloat (round3 (Scorer.clamp base)))
       /\ (round3 (Scorer.clamp base) <=? 1)%float = true.
Proof.
  assert (Hrun : @Scorer.compute_score Examples.plain_builtins
                    (<["confidence" := VFloat 0.9]> ∅) ∅ ""
                  = Ok (Notions.result_of (1 - 0.9) [])) by reflexivity.
  split; [exact Hrun |].
  destruct (C1_score_and_action _ _ _ _ Hrun)
    as (base & reasons & q & _ & Hs & _ & _ & _ & Hle & _).
  exists base. split; [exact Hs | exact Hle].
Defined.

(** C1 as stated fails: with confidence 0.2504 and no risk signal the
    unrounded score 0.7496 selects [REQUEST_DOCS], while the returned
    score is its rounding 0.75. *)
Lemma C1_counterexample :
  exists r,
    @Scorer.compute_score Examples.plain_builtins
       (<["confidence" := VFloat 0.2504]> ∅) ∅ "" = Ok r
    /\ r !! "suspicious_score" = Some (VFloat 0.75)
    /\ r !! "action" = Some (VStr "REQUEST_DOCS")
    /\ r !! "action" <> Some (VStr "HOLD_PAYMENT").
Proof.
  eexists. split; [reflexivity |].
  split; [reflexivity |]. split; [reflexivity | discriminate].
Qed.

(** C9. The returned score is monotone in each risk signal, the other
    inputs being the same: whenever [compute_score] returns for an empty
    contradiction list it returns for any list of contradictions, with a
    score at least as large; whenever it returns with [invoice_exists]
    true it returns with [invoice_exists] false, with a score at least as
    large; and whenever it returns for a sender of the trusted domain it
    returns for any other sender, with a score at least as large. *)
Theorem C9_score_monotone `{Builtins} (e v : gmap string pyval) (sender : string) :
  (forall l r0,
     Scorer.compute_score e (<["contradictions" := VList []]> v) sender = Ok r0 ->
     exists r1,
       Scorer.compute_score e (<["contradictions" := VList l]> v) sender = Ok r1
       /\ Notions.score_le r0 r1)
  /\ (forall r0,
     Scorer.compute_score e (<["invoice_exists" := VBool true]> v) sender = Ok r0 ->
     exists r1,
       Scorer.compute_score e (<["invoice_exists" := VBool false]> v) sender = Ok r1
       /\ Notions.score_le r0 r1)
  /\ (forall trusted other r0,
     Scorer.trusted_sender trusted = true ->
     Scorer.compute_score e v trusted = Ok r0 ->
     exists r1,
       Scorer.compute_score e v other = Ok r1 /\ Notions.score_le r0 r1).
Proof.
  split; [| split].
  - intros l r0 Hr.
    apply ScorerFacts.compute_score_inv in Hr as (b0 & rs0 & Hb & ->).
    rewrite ScorerFacts.base_and_reasons_eq in Hb.
    destruct (Notions.confidence_of e) as [c | x] eqn:Ec; [| discriminate].
    rewrite ScorerFacts.bump_contradictions_list in Hb.
    rewrite ScorerFacts.bump_invoice_other in Hb by discriminate.
    injection Hb as Hb.
    eexists. split.
    + apply ScorerFacts.compute_score_ok.
      rewrite ScorerFacts.base_and_reasons_eq, Ec, ScorerFacts.bump_contradictions_list.
      rewrite ScorerFacts.bump_invoice_other by discriminate. reflexivity.
    + apply ScorerFacts.score_le_results. ScorerFacts.base_of Hb.
      apply ScorerFacts.bump_sender_mono, ScorerFacts.bump_invoice_mono.
      destruct l; [apply ScorerFacts.fle_refl |].
      cbn [fst]. apply ScorerFacts.fle_add_r; apply ScorerFacts.increment_facts.
  - intros r0 Hr.
    apply ScorerFacts.compute_score_inv in Hr as (b0 & rs0 & Hb & ->).
    rewrite ScorerFacts.base_and_reasons_eq in Hb.
    destruct (Notions.confidence_of e) as [c | x] eqn:Ec; [| discriminate].
    rewrite ScorerFacts.bump_contradictions_other in Hb by discriminate.
    destruct (Scorer.bump_contradictions v ((1 - c)%float, [])) as [st | x] eqn:Est;
      [| discriminate].
    injection Hb as Hb.
    eexists. split.
    + apply ScorerFacts.compute_score_ok.
      rewrite ScorerFacts.base_and_reasons_eq, Ec.
      rewrite ScorerFacts.bump_contradictions_other by discriminate.
      rewrite Est. reflexivity.
    + apply ScorerFacts.score_le_results. ScorerFacts.base_of Hb.
      apply ScorerFacts.bump_sender_mono.
      unfold Scorer.bump_invoice. rewrite !ScorerFacts.get_insert.
      cbn [truthy negb]. rewrite andb_false_r, andb_true_r.
      destruct (truthy (Py.get e "invoice_number")); [| apply ScorerFacts.fle_refl].
      cbn [fst]. apply ScorerFacts.fle_add_r; apply ScorerFacts.increment_facts.
  - intros trusted other r0 Ht Hr.
    apply ScorerFacts.compute_score_inv in Hr as (b0 & rs0 & Hb & ->).
    rewrite ScorerFacts.base_and_reasons_eq in Hb.
    destruct (Notions.confidence_of e) as [c | x] eqn:Ec; [| discriminate].
    destruct (Scorer.bump_contradictions v ((1 - c)%float, [])) as [st | x] eqn:Est;
      [| discriminate].
    rewrite ScorerFacts.bump_sender_trusted in Hb by exact Ht.
    injection Hb as Hb.
    eexists. split.
    + apply ScorerFacts.compute_score_ok.
      rewrite ScorerFacts.base_and_reasons_eq, Ec, Est. reflexivity.
    + apply ScorerFacts.score_le_results. ScorerFacts.base_of Hb.
      apply ScorerFacts.bump_sender_incr.
Qed.

(** C9, a run of the theorem: confidence 0.6, then one contradiction. *)
Lemma C9_witness :
  exists r0 r1,
    @Scorer.compute_score Examples.plain_builtins
       (<["confidence" := VFloat 0.6]> ∅) (<["contradictions" := VList []]> ∅) ""
    = Ok r0
    /\ @Scorer.compute_score Examples.plain_builtins
         (<["confidence" := VFloat 0.6]> ∅)
         (<["contradictions" := VList [VStr "amount_mismatch"]]> ∅) ""
       = Ok r1
    /\ Notions.score_le r0 r1.
Proof.
  assert (Hrun : @Scorer.compute_score Examples.plain_builtins
                    (<["confidence" := VFloat 0.6]> ∅)
                    (<["contradictions" := VList []]> ∅) ""
                  = Ok (Notions.result_of (1 - 0.6) [])) by reflexivity.
  destruct (@C9_score_monotone Examples.plain_builtins
              (<["confidence" := VFloat 0.6]> ∅) ∅ "") as [A _].
  destruct (A [VStr "amount_mismatch"] _ Hrun) as (r1 & H1 & Hle).
  exists (Notions.result_of (1 - 0.6) []), r1.
  split; [exact Hrun |]. split; [exact H1 | exact Hle].
Defined.

(** C10. The trusted-domain test ignores letter case: a sender that
    differs only in the case of its letters from an address ending with
    ["@abcchem.com"] passes it, so [compute_score] adds no 0.15 and
    appends no ["non_standard_sender"] for it, and returns what it
    returns for that address and for the empty sender; the empty sender
    is never penalised either. *)
Theorem C10_sender_case_insensitive `{Builtins}
    (e v : gmap string pyval) (sender address : string) :
  Notions.case_variant sender address ->
  endswith address "@abcchem.com" = true ->
  Scorer.trusted_sender sender = true
  /\ (forall st, Scorer.bump_sender sender st = st)
  /\ (forall st, Scorer.bump_sender "" st = st)
  /\ Scorer.compute_score e v sender = Scorer.compute_score e v address
  /\ Scorer.compute_score e v sender = Scorer.compute_score e v "".
Proof.
  intros Hcase Hend.
  assert (Ha : Scorer.trusted_sender address = true).
  { unfold Scorer.trusted_sender.
    change "@abcchem.com" with (lower "@abcchem.com").
    apply ScorerFacts.endswith_lower, Hend. }
  assert (Hs : Scorer.trusted_sender sender = true).
  { unfold Scorer.trusted_sender. rewrite Hcase. exact Ha. }
  assert (Hb : forall t, Scorer.trusted_sender t = true ->
                 Scorer.compute_score e v t = Scorer.compute_score e v "").
  { intros t Ht. unfold Scorer.compute_score.
    rewrite !ScorerFacts.base_and_reasons_eq.
    destruct (Notions.confidence_of e); [| reflexivity].
    destruct (Scorer.bump_contradictions v _); [| reflexivity].
    rewrite ScorerFacts.bump_sender_trusted by exact Ht. reflexivity. }
  split; [exact Hs |].
  split; [intros st; apply ScorerFacts.bump_sender_trusted, Hs |].
  split; [intros st; reflexivity |].
  split; [rewrite (Hb sender Hs), (Hb address Ha); reflexivity | exact (Hb sender Hs)].
Qed.

(** C10, a run of the theorem on a sender in mixed case. *)
Lemma C10_witness :
  Notions.case_variant "Bob@ABCchem.COM" "bob@abcchem.com"
  /\ endswith "bob@abcchem.com" "@abcchem.com" = true
  /\ Scorer.trusted_sender "Bob@ABCchem.COM" = true.
Proof.
  assert (Hc : Notions.case_variant "Bob@ABCchem.COM" "bob@abcchem.com")
    by reflexivity.
  assert (He : endswith "bob@abcchem.com" "@abcchem.com" = true) by reflexivity.
  split; [exact Hc |]. split; [exact He |].
  exact (proj1 (@C10_sender_case_insensitive Examples.plain_builtins ∅ ∅
                  "Bob@ABCchem.COM" "bob@abcchem.com" Hc He)).
Defined.

(* ===================================================================== *)
(** * The record verifier                                                *)
(* ===================================================================== *)

(** C6. With the record store unreachable ([_connect] gave [None]),
    [verify] returns, for every extraction, the result it first built:
    the three existence flags false, the ids and the amount [None], no
    receipt ids, no status and no contradiction; it does not raise. *)
Theorem C6_verify_offline `{Builtins} (extraction : gmap string pyval) :
  exists out,
    Verifier.verify None extraction = Ok out
    /\ out !! "invoice_exists" = Some (VBool false)
    /\ out !! "po_exists" = Some (VBool false)
    /\ out !! "grn_exists" = Some (VBool false)
    /\ out !! "invoice_id" = Some VNone
    /\ out !! "invoice_amount" = Some VNone
    /\ out !! "invoice_status" = None
    /\ out !! "po_id" = Some VNone
    /\ out !! "grn_ids" = Some (VList [])
    /\ out !! "contradictions" = Some (VList []).
Proof.
  exists Verifier.defaults. repeat split; reflexivity.
Qed.

Module VerifierFacts.
Import Verifier.
Import Notions Examples.

Section Facts.
Context `{Builtins}.

Lemma verify_eq (conn : connection) (e : gmap string pyval) :
  verify (Some conn) e
  = match lookup_invoice conn (Py.get e "invoice_number") defaults with
    | Ok out1 =>
        match lookup_po conn (Py.get e "po_number") out1 with
        | Ok out2 => Ok (finish e out2)
        | Raise x => Raise x
        end
    | Raise x => Raise x
    end.
Proof.
  unfold verify. destruct (lookup_invoice _ _ _) as [out1 | x]; [| reflexivity].
  cbn. destruct (lookup_po _ _ _); reflexivity.
Qed.

Lemma verify_inv (conn : connection) (e out : gmap string pyval) :
  verify (Some conn) e = Ok out ->
  exists out1 out2,
    lookup_invoice conn (Py.get e "invoice_number") defaults = Ok out1
    /\ lookup_po conn (Py.get e "po_number") out1 = Ok out2
    /\ out = finish e out2.
Proof.
  rewrite verify_eq.
  destruct (lookup_invoice _ _ _) as [out1 | x] eqn:E1; [| discriminate].
  destruct (lookup_po _ _ _) as [out2 | x] eqn:E2; [| discriminate].
  intros [= <-]. exists out1, out2. auto.
Qed.

Lemma finish_get (e out : gmap string pyval) (k : string) :
  k <> "contradictions" -> Py.get (finish e out) k = Py.get out k.
Proof.
  intros Hk. unfold finish, Py.get. rewrite lookup_insert_ne by congruence. reflexivity.
Qed.

Lemma finish_contradictions (e out : gmap string pyval) :
  finish e out !! "contradictions" = Some (VList (contradictions_of e out)).
Proof. unfold finish. apply lookup_insert_eq. Qed.

(** The four lists that the two checks can leave, in their order. *)
Lemma contradictions_shape (e out : gmap string pyval) :
  contradictions_of e out = []
  \/ contradictions_of e out = [VStr "not_received_but_grn_exists"]
  \/ contradictions_of e out = [VStr "amount_mismatch"]
  \/ contradictions_of e out
     = [VStr "not_received_but_grn_exists"; VStr "amount_mismatch"].
Proof.
  unfold contradictions_of.
  destruct (claims_not_received e && truthy (Py.get out "grn_exists"));
    destruct (amount_mismatch e out); cbn; auto.
Qed.

Lemma mismatch_in_list (e out : gmap string pyval) :
  In (VStr "amount_mismatch") (contradictions_of e out)
  <-> amount_mismatch e out = true.
Proof.
  unfold contradictions_of.
  destruct (claims_not_received e && truthy (Py.get out "grn_exists"));
    destruct (amount_mismatch e out); cbn; split; intros Hin;
    try discriminate; auto;
    repeat (destruct Hin as [Hin | Hin]; try discriminate); contradiction.
Qed.

Lemma amount_mismatch_spec (e out : gmap string pyval) :
  amount_mismatch e out = true
  <-> truthy (Py.get e "claimed_amount") = true
      /\ truthy (Py.get out "invoice_amount") = true
      /\ exists a b,
           py_float (Py.get e "claimed_amount") = Ok a
           /\ Py.get out "invoice_amount" = VFloat b
           /\ fgt (abs (a - b)) 1 = true.
Proof.
  unfold amount_mismatch, differs, py_or.
  destruct (truthy (Py.get e "claimed_amount")) eqn:Tc; cbn [andb];
    [| split; [discriminate | intros [? _]; discriminate]].
  destruct (truthy (Py.get out "invoice_amount")) eqn:Ti; cbn [andb];
    [| split; [discriminate | intros (_ & ? & _); discriminate]].
  destruct (py_float (Py.get e "claimed_amount")) as [a | x] eqn:Ea; cbn.
  - destruct (Py.get out "invoice_amount") as [| | | b | | |] eqn:Eb; cbn;
      try (split; [discriminate | intros (_ & _ & a' & b' & _ & ? & _); discriminate]).
    split.
    + intros Hd. repeat split; try reflexivity. exists a, b. auto.
    + intros (_ & _ & a' & b' & [= <-] & [= <-] & Hd). exact Hd.
  - split; [discriminate | intros (_ & _ & a' & b' & ? & _); discriminate].
Qed.

Lemma bump_invoice_keeps (e v : gmap string pyval) (st : float * list pyval)
    (x : pyval) :
  In x st.2 -> In x (Scorer.bump_invoice e v st).2.
Proof.
  intros Hin. unfold Scorer.bump_invoice.
  destruct (_ && _); [| exact Hin]. cbn [snd]. apply in_or_app. left. exact Hin.
Qed.

Lemma bump_sender_keeps (sender : string) (st : float * list pyval) (x : pyval) :
  In x st.2 -> In x (Scorer.bump_sender sender st).2.
Proof.
  intros Hin. unfold Scorer.bump_sender.
  destruct (_ && _); [| exact Hin]. cbn [snd]. apply in_or_app. left. exact Hin.
Qed.

End Facts.

End VerifierFacts.

(** The confidence that [compute_score] reads is the entry of the
    extraction when that entry is truthy, and 0.5 when the entry is
    missing or falsy. *)
Lemma confidence_read `{Builtins} (e : gmap string pyval) (c : float) :
  (exists v, e !! "confidence" = Some v /\ truthy v = true /\ py_float v = Ok c)
  \/ ((e !! "confidence" = None
       \/ exists v, e !! "confidence" = Some v /\ truthy v = false)
      /\ c = 0.5%float) ->
  Notions.confidence_of e = Ok c.
Proof.
  unfold Notions.confidence_of, Py.get_or, py_or.
  intros [(v & -> & Ht & Hc) | [[-> | (v & -> & Ht)] ->]];
    unfold default; cbn [from_option id].
  - rewrite Ht. exact Hc.
  - reflexivity.
  - rewrite Ht. reflexivity.
Qed.

(** C7 (as amended). For an extraction whose claim type is
    ["not_received"], when [verify] returns with [grn_exists] true its
    contradiction list holds ["not_received_but_grn_exists"]. Let [c] be
    the confidence that [compute_score] uses: the ["confidence"] entry
    of the extraction, converted to a float, when that entry is truthy,
    and 0.5 when the entry is missing or falsy (as [None] and [0.0]
    are). Then for every sender [compute_score] on that pair returns,
    lists the tag among its reasons and returns a score at least
    [(1 - c) + 0.35] clamped to [[0, 1]] and rounded to three
    decimals. *)
Theorem C7_not_received_with_receipts `{Builtins}
    (conn : Verifier.connection) (e out : gmap string pyval) :
  Py.get e "claim_type" = VStr "not_received" ->
  Verifier.verify (Some conn) e = Ok out ->
  truthy (Py.get out "grn_exists") = true ->
  exists l,
    out !! "contradictions" = Some (VList l)
    /\ In (VStr "not_received_but_grn_exists") l
    /\ forall (sender : string) (c : float),
         (exists v, e !! "confidence" = Some v
                    /\ truthy v = true /\ py_float v = Ok c)
         \/ ((e !! "confidence" = None
              \/ exists v, e !! "confidence" = Some v /\ truthy v = false)
             /\ c = 0.5%float) ->
         exists r reasons score,
           Scorer.compute_score e out sender = Ok r
           /\ r !! "reasons" = Some (VList reasons)
           /\ In (VStr "not_received_but_grn_exists") reasons
           /\ r !! "suspicious_score" = Some (VFloat score)
           /\ (round3 (Scorer.clamp ((1 - c) + 0.35)) <=? score)%float = true.
Proof.
  intros Hct Hv Hgrn.
  apply VerifierFacts.verify_inv in Hv as (out1 & out2 & _ & _ & ->).
  rewrite VerifierFacts.finish_get in Hgrn by discriminate.
  set (l := Verifier.contradictions_of e out2).
  assert (Hl : exists rest, l = VStr "not_received_but_grn_exists" :: rest).
  { subst l. unfold Verifier.contradictions_of, Verifier.claims_not_received.
    rewrite Hct, Hgrn. cbn. eauto. }
  destruct Hl as (rest & Hl).
  exists l. split; [apply VerifierFacts.finish_contradictions |].
  split; [rewrite Hl; left; reflexivity |].
  intros sender c Hc. apply confidence_read in Hc as Ec.
  set (st := (((1 - c) + 0.35)%float, l)).
  assert (Hb : Scorer.base_and_reasons e (Notions.finish e out2) sender
               = Ok (Scorer.bump_sender sender
                       (Scorer.bump_invoice e (Notions.finish e out2) st))).
  { rewrite ScorerFacts.base_and_reasons_eq, Ec. unfold Notions.finish. fold l.
    rewrite ScorerFacts.bump_contradictions_list. subst st. rewrite Hl. reflexivity. }
  apply ScorerFacts.compute_score_ok in Hb. rewrite Hb.
  eexists _, _, _. split; [reflexivity |].
  split; [apply ScorerFacts.result_reasons |].
  split.
  - apply VerifierFacts.bump_sender_keeps, VerifierFacts.bump_invoice_keeps.
    subst st. cbn [snd]. rewrite Hl. left. reflexivity.
  - split; [apply ScorerFacts.result_score |].
    apply ScoreFacts.final_mono.
    apply (ScorerFacts.fle_trans _ (Scorer.bump_invoice e (Notions.finish e out2) st).1).
    + apply (ScorerFacts.bump_invoice_incr e _ st).
    + apply ScorerFacts.bump_sender_incr.
Qed.

(** C7, a run of the theorem: a claim of non-receipt with confidence 0.6
    against a store that holds a goods receipt; scored for a sender of
    the company, the score is 0.75. *)
Lemma C7_witness :
  let e : gmap string pyval :=
    <["claim_type" := VStr "not_received"]>
    (<["po_number" := VStr "4500001"]> (<["confidence" := VFloat 0.6]> ∅)) in
  exists out,
    Py.get e "claim_type" = VStr "not_received"
    /\ @Verifier.verify Examples.plain_builtins
         (Some Examples.store_with_receipt) e = Ok out
    /\ truthy (Py.get out "grn_exists") = true
    /\ (exists l, out !! "contradictions" = Some (VList l)
                  /\ In (VStr "not_received_but_grn_exists") l)
    /\ exists r score,
         @Scorer.compute_score Examples.plain_builtins e out "ap@abcchem.com" = Ok r
         /\ r !! "suspicious_score" = Some (VFloat score)
         /\ (round3 (Scorer.clamp ((1 - 0.6) + 0.35)) <=? score)%float = true.
Proof.
  intros e.
  destruct (@Verifier.verify Examples.plain_builtins
              (Some Examples.store_with_receipt) e) as [out | x] eqn:Ev;
    [| discriminate Ev].
  assert (Hg : truthy (Py.get out "grn_exists") = true).
  { injection Ev as <-. reflexivity. }
  exists out. split; [reflexivity |]. split; [reflexivity |]. split; [exact Hg |].
  destruct (@C7_not_received_with_receipts Examples.plain_builtins
              Examples.store_with_receipt e out eq_refl Ev Hg)
    as (l & Hl & Hin & Hscore).
  split; [exists l; split; [exact Hl | exact Hin] |].
  destruct (Hscore "ap@abcchem.com" 0.6%float) as (r & reasons & score & Hr & _ & _ & Hs & Hle).
  { left. exists (VFloat 0.6). repeat split; reflexivity. }
  exists r, score. auto.
Defined.

(** C7 as stated fails, in two ways. With confidence 0.2 the base 1.15 is
    clamped, so the score 1.0 is below [1 - confidence + 0.35]. With
    confidence 0.0, which is falsy, [compute_score] reads 0.5 instead:
    the score is 0.85, below [1 - confidence + 0.35] and below that
    bound clamped to 1.0. *)
Lemma C7_counterexample :
  let e (c : float) : gmap string pyval :=
    <["claim_type" := VStr "not_received"]>
    (<["po_number" := VStr "4500001"]> (<["confidence" := VFloat c]> ∅)) in
  (exists out r,
     @Verifier.verify Examples.plain_builtins
        (Some Examples.store_with_receipt) (e 0.2%float) = Ok out
     /\ out !! "grn_exists" = Some (VBool true)
     /\ @Scorer.compute_score Examples.plain_builtins (e 0.2%float) out "" = Ok r
     /\ r !! "suspicious_score" = Some (VFloat 1)
     /\ (1 - 0.2 + 0.35 <=? 1)%float = false)
  /\ (exists out r,
        @Verifier.verify Examples.plain_builtins
           (Some Examples.store_with_receipt) (e 0%float) = Ok out
        /\ out !! "grn_exists" = Some (VBool true)
        /\ @Scorer.compute_score Examples.plain_builtins (e 0%float) out "" = Ok r
        /\ r !! "suspicious_score" = Some (VFloat 0.85)
        /\ (1 - 0 + 0.35 <=? 0.85)%float = false
        /\ (round3 (Scorer.clamp (1 - 0 + 0.35)) <=? 0.85)%float = false).
Proof.
  cbv zeta. split.
  - eexists. eexists.
    split; [reflexivity |]. split; [reflexivity |]. split; [reflexivity |].
    split; reflexivity.
  - eexists. eexists.
    split; [reflexivity |]. split; [reflexivity |]. split; [reflexivity |].
    split; [reflexivity |]. split; reflexivity.
Qed.

(** C8 (as amended). Once the store lookups have returned, [verify]
    returns: the comparison of the amounts never raises. The list it
    returns holds ["amount_mismatch"] exactly when the claimed amount and
    the invoice amount looked up are both truthy (neither [None] nor
    zero), the claimed amount converts to a float [a], and
    [abs(a - invoice_amount) > 1.0] in binary64; a claimed amount that
    does not convert leaves no flag. The list is one of [[]],
    [[not_received_but_grn_exists]], [[amount_mismatch]] and
    [[not_received_but_grn_exists, amount_mismatch]]: the tags come in
    that order and at most once each. *)
Theorem C8_amount_mismatch `{Builtins}
    (conn : Verifier.connection) (e out1 out2 : gmap string pyval) :
  Verifier.lookup_invoice conn (Py.get e "invoice_number") Verifier.defaults
  = Ok out1 ->
  Verifier.lookup_po conn (Py.get e "po_number") out1 = Ok out2 ->
  exists out l,
    Verifier.verify (Some conn) e = Ok out
    /\ out !! "contradictions" = Some (VList l)
    /\ (In (VStr "amount_mismatch") l
        <-> truthy (Py.get e "claimed_amount") = true
            /\ truthy (Py.get out "invoice_amount") = true
            /\ exists a b,
                 py_float (Py.get e "claimed_amount") = Ok a
                 /\ Py.get out "invoice_amount" = VFloat b
                 /\ fgt (abs (a - b)) 1 = true)
    /\ (l = []
        \/ l = [VStr "not_received_but_grn_exists"]
        \/ l = [VStr "amount_mismatch"]
        \/ l = [VStr "not_received_but_grn_exists"; VStr "amount_mismatch"]).
Proof.
  intros H1 H2.
  exists (Notions.finish e out2), (Verifier.contradictions_of e out2).
  split; [rewrite VerifierFacts.verify_eq, H1, H2; reflexivity |].
  split; [apply VerifierFacts.finish_contradictions |].
  split; [| apply VerifierFacts.contradictions_shape].
  rewrite VerifierFacts.finish_get by discriminate.
  rewrite VerifierFacts.mismatch_in_list. apply VerifierFacts.amount_mismatch_spec.
Qed.

(** C8, a run of the theorem: 100.0 claimed against an invoice of
    500.0. *)
Lemma C8_witness :
  let e : gmap string pyval :=
    <["invoice_number" := VStr "INV-1"]> (<["claimed_amount" := VFloat 100]> ∅) in
  exists out1 out,
    @Verifier.lookup_invoice Examples.store_with_invoice
       (Py.get e "invoice_number") Verifier.defaults = Ok out1
    /\ Verifier.lookup_po Examples.store_with_invoice
         (Py.get e "po_number") out1 = Ok out1
    /\ @Verifier.verify Examples.plain_builtins
         (Some Examples.store_with_invoice) e = Ok out.
Proof.
  intros e.
  destruct (Verifier.lookup_invoice Examples.store_with_invoice
              (Py.get e "invoice_number") Verifier.defaults) as [out1 | x] eqn:E1;
    [| discriminate E1].
  assert (E2 : Verifier.lookup_po Examples.store_with_invoice
                 (Py.get e "po_number") out1 = Ok out1) by reflexivity.
  destruct (@C8_amount_mismatch Examples.plain_builtins
              Examples.store_with_invoice e out1 out1 E1 E2)
    as (out & l & Hv & _).
  exists out1, out. split; [reflexivity |]. split; [exact E2 | exact Hv].
Defined.

(** C8 as stated fails: a claimed amount of 0.0 is present and differs
    from the invoice amount 500.0 by more than 1.0, yet nothing is
    flagged, because the guard tests truth values. *)
Lemma C8_counterexample :
  let e : gmap string pyval :=
    <["invoice_number" := VStr "INV-1"]> (<["claimed_amount" := VFloat 0]> ∅) in
  exists out,
    @Verifier.verify Examples.plain_builtins
       (Some Examples.store_with_invoice) e = Ok out
    /\ e !! "claimed_amount" = Some (VFloat 0)
    /\ out !! "invoice_amount" = Some (VFloat 500)
    /\ fgt (abs (0 - 500)) 1 = true
    /\ out !! "contradictions" = Some (VList []).
Proof.
  cbv zeta. eexists.
  split; [reflexivity |]. split; [reflexivity |]. split; [reflexivity |].
  split; reflexivity.
Qed.

(* ===================================================================== *)
(** * The pattern extractor                                              *)
(* ===================================================================== *)

Module ParserFacts.
Import EmailParser.
Import Notions Examples.

Lemma not_word_not_digit (c : ascii) : is_word c = false -> is_digit c = false.
Proof.
  unfold is_word. intros Hw. repeat (apply orb_false_elim in Hw as [Hw _]). exact Hw.
Qed.

Lemma search_from_hit (r : Re.regex) (fuel : nat) (st : Re.cursor) (m : Re.rmatch) :
  Re.match_at r st = Some m -> Re.search_from r fuel st = Some m.
Proof. intros Hm. destruct fuel; cbn; rewrite Hm; reflexivity. Qed.

Lemma invoice_at_start (post : string) :
  ends_word post ->
  extract_invoice_regex (String.append "INV-4521" post) = Some "INV-4521".
Proof.
  intros Hpost. destruct post as [| c s]; [reflexivity |].
  cbn in Hpost.
  destruct c as [[] [] [] [] [] [] [] []]; try discriminate Hpost; reflexivity.
Qed.

Lemma normalize_po_prefixed (matched : string) :
  startswith (normalize_po matched) "45" = true.
Proof.
  unfold normalize_po.
  destruct (startswith (strip (replace_char "-" "" (replace "PO" "" matched))) "45")
    eqn:E; cbn [negb]; [exact E | reflexivity].
Qed.

End ParserFacts.

(** C3 (as amended). A body that starts with ["INV-4521"], followed by
    the end of the text or by a character that is no word character,
    yields the invoice number ["INV-4521"]. The body
    ["INV-4521 450012345"] yields that invoice number and no PO number:
    the nine digits match neither [45\d{5,6}] nor [PO[-\s]?\d{3,7}]
    between word boundaries. The normalisation of a matched PO text
    removes ["PO"] and the hyphens, strips it, and puts ["45"] in front
    exactly when what is left does not start with ["45"]: ["4500123"]
    stays as it is, ["PO-0012345"] becomes ["450012345"], and every PO
    number returned starts with ["45"]. *)
Theorem C3_pattern_extraction :
  (forall post, Notions.ends_word post ->
     EmailParser.extract_invoice_regex (String.append "INV-4521" post)
     = Some "INV-4521")
  /\ EmailParser.extract_invoice_regex "INV-4521 450012345" = Some "INV-4521"
  /\ EmailParser.extract_po_regex "INV-4521 450012345" = None
  /\ EmailParser.extract_po_regex "order 4500123 is late" = Some "4500123"
  /\ EmailParser.extract_po_regex "see PO-0012345" = Some "450012345"
  /\ (forall matched,
        EmailParser.normalize_po matched
        = let v := strip (replace_char "-" "" (replace "PO" "" matched)) in
          if startswith v "45" then v else String.append "45" v)
  /\ (forall text po,
        EmailParser.extract_po_regex text = Some po -> startswith po "45" = true).
Proof.
  split; [exact ParserFacts.invoice_at_start |].
  split; [reflexivity |]. split; [reflexivity |].
  split; [reflexivity |]. split; [reflexivity |].
  split.
  - intros matched. unfold EmailParser.normalize_po. cbv zeta.
    destruct (startswith _ "45"); reflexivity.
  - intros text po. unfold EmailParser.extract_po_regex.
    destruct (Re.search EmailParser.PO_RE text); [| discriminate].
    intros [= <-]. apply ParserFacts.normalize_po_prefixed.
Qed.

(** C3, a run of the theorem on a body that ends after the number and
    on one that names a purchase order. *)
Lemma C3_witness :
  Notions.ends_word ""
  /\ EmailParser.extract_invoice_regex (String.append "INV-4521" "") = Some "INV-4521"
  /\ EmailParser.extract_po_regex "see PO-0012345" = Some "450012345"
  /\ startswith "450012345" "45" = true.
Proof.
  destruct C3_pattern_extraction as (Hinv & _ & _ & _ & Hpo & _ & Hpre).
  split; [exact I |]. split; [exact (Hinv "" I) |]. split; [exact Hpo |].
  exact (Hpre "see PO-0012345" "450012345" Hpo).
Defined.

(** C3 as stated fails: a body that contains both ["INV-4521"] and
    ["450012345"] and yields no PO number at all. *)
Lemma C3_counterexample :
  contains "INV-4521 450012345" "INV-4521" = true
  /\ contains "INV-4521 450012345" "450012345" = true
  /\ EmailParser.extract_invoice_regex "INV-4521 450012345" = Some "INV-4521"
  /\ EmailParser.extract_po_regex "INV-4521 450012345" = None
  /\ EmailParser.extract_po_regex "INV-4521 450012345" <> Some "45450012345".
Proof. repeat split; try reflexivity. discriminate. Qed.

(* ===================================================================== *)
(** * The claim normaliser                                               *)
(* ===================================================================== *)

Module NormalizerFacts.
Import EmailParser.
Import Notions Examples.

Section Facts.
Context `{Builtins} `{Provider}.

Lemma obtain_eq (subject body model : string) (cache_file : option string)
    (w : world) :
  obtain subject body model cache_file w
  = let cache := cache_of cache_file w in
    let key := _make_key subject body in
    let prompt := USER_PROMPT subject body in
    match cache !! key with
    | Some llm_out => (Ok (llm_out, cache), w)
    | None =>
        match llm_reply (length (llm_calls w)) model prompt with
        | Raise e => (Raise e, called prompt w)
        | Ok raw =>
            match decode_reply raw with
            | None => (Raise (RuntimeError "LLM did not return JSON"), called prompt w)
            | Some llm_out =>
                match cache_file with
                | Some p =>
                    (Ok (llm_out, <[key := llm_out]> cache),
                     saved p (<[key := llm_out]> cache) (called prompt w))
                | None => (Ok (llm_out, cache), called prompt w)
                end
            end
        end
    end.
Proof.
  unfold obtain, cache_of, ask_provider, call_llm_system_user, called, saved.
  unfold load_cache, save_cache, read, update, raise.
  unfold mbind, mret, io_bind, io_ret. cbv zeta.
  destruct cache_file as [p |].
  - destruct (default ∅ (fs w !! p) !! _make_key subject body) as [v |] eqn:Ek;
      [reflexivity |].
    destruct (llm_reply _ _ _) as [raw | e]; [| reflexivity].
    destruct (decode_reply raw) as [v |]; reflexivity.
  - rewrite lookup_empty.
    destruct (llm_reply _ _ _) as [raw | e]; [| reflexivity].
    destruct (decode_reply raw) as [v |]; reflexivity.
Qed.

Lemma extract_structured_llm (subject body : string) (model : string)
    (cache_path : option string) (w : world) :
  found_both subject body = false ->
  extract_structured subject body true model cache_path w
  = match obtain subject body model (cache_file_of cache_path) w with
    | (Ok oc, w') =>
        (complete subject body (cache_file_of cache_path) (now w') oc, w')
    | (Raise e, w') => (Raise e, w')
    end.
Proof.
  unfold found_both, text_of. intros Hf.
  unfold extract_structured. cbv zeta. rewrite Hf. cbn [negb].
  unfold mbind, mret, io_bind, io_ret, lift, read.
  destruct (obtain subject body model (cache_file_of cache_path) w) as [[oc | e] w'];
    [| reflexivity].
  unfold complete, text_of.
  destruct (merge oc.1 _) as [merged | e]; reflexivity.
Qed.

Lemma extract_structured_fast (subject body : string) (flag : bool) (model : string)
    (cache_path : option string) (w : world) :
  found_both subject body = true ->
  exists d, extract_structured subject body flag model cache_path w = (Ok d, w).
Proof.
  unfold found_both, text_of. intros Hf.
  unfold extract_structured. cbv zeta. rewrite Hf. eexists. reflexivity.
Qed.

Lemma extract_structured_disabled (subject body : string) (model : string)
    (cache_path : option string) (w : world) :
  found_both subject body = false ->
  exists d, extract_structured subject body false model cache_path w = (Ok d, w).
Proof.
  unfold found_both, text_of. intros Hf.
  unfold extract_structured. cbv zeta. rewrite Hf. eexists. reflexivity.
Qed.

Lemma complete_status (subject body : string) (cache_file : option string)
    (t1 t2 : string) (oc : pyval * gmap string pyval) :
  match complete subject body cache_file t1 oc,
        complete subject body cache_file t2 oc with
  | Ok d1, Ok d2 =>
      exists core used,
        d1 = <["_meta" := meta t1 used]> core
        /\ d2 = <["_meta" := meta t2 used]> core
  | Raise e1, Raise e2 => e1 = e2
  | _, _ => False
  end.
Proof.
  unfold complete. destruct (merge oc.1 _) as [merged | e]; [| reflexivity].
  cbv zeta. eexists _, _. split; reflexivity.
Qed.

End Facts.

End NormalizerFacts.

Module ReturnFacts.
Import EmailParser.
Import Notions Examples.

Section Facts.
Context `{Builtins} `{Provider}.



End Facts.
End ReturnFacts.




(** C4 (as amended). With a cache path given and the content key in the
    cache file, [extract_structured] leaves the world as it is, and a
    second call that finds the same cache file raises the same exception
    or returns a result that agrees with the first on every key but
    ["_meta"]; the ["_meta"] entries, when there are any, hold the clock
    reading of each call, so the two results are identical when the clock
    reads the same. *)
Theorem C4_warm_cache_idempotent `{Builtins} `{Provider}
    (subject body : string) (flag : bool) (model : string)
    (cache_path : option string) (p : string) (w1 w2 : world) :
  EmailParser.cache_file_of cache_path = Some p ->
  is_Some (default ∅ (fs w1 !! p) !! EmailParser._make_key subject body) ->
  fs w2 !! p = fs w1 !! p ->
  let r1 := EmailParser.extract_structured subject body flag model cache_path w1 in
  let r2 := EmailParser.extract_structured subject body flag model cache_path w2 in
  r1.2 = w1 /\ r2.2 = w2
  /\ (forall e, r1.1 = Raise e -> r2.1 = Raise e)
  /\ (forall d1, r1.1 = Ok d1 ->
        exists d2,
          r2.1 = Ok d2
          /\ (forall k, k <> "_meta" -> d1 !! k = d2 !! k)
          /\ (is_Some (d1 !! "_meta") ->
                exists used,
                  d1 !! "_meta" = Some (EmailParser.meta (now w1) used)
                  /\ d2 !! "_meta" = Some (EmailParser.meta (now w2) used))
          /\ (now w1 = now w2 -> d1 = d2)).
Proof.
  intros Hc Hk Hfs. cbv zeta.
  destruct (Notions.found_both subject body) eqn:Hf.
  { destruct (NormalizerFacts.extract_structured_fast subject body flag model
                cache_path w1 Hf) as (d & E1).
    assert (E2 : EmailParser.extract_structured subject body flag model cache_path w2
                 = (Ok d, w2)).
    { revert E1. unfold EmailParser.extract_structured. cbv zeta.
      unfold Notions.found_both, Notions.text_of in Hf. rewrite Hf.
      unfold mret, io_ret. intros [= <-]. reflexivity. }
    rewrite E1, E2. cbn [fst snd].
    repeat split; try discriminate.
    intros d1 [= <-]. exists d. repeat split; auto.
    intros Hm.
    exfalso. revert E1 Hm. unfold EmailParser.extract_structured. cbv zeta.
    unfold Notions.found_both, Notions.text_of in Hf. rewrite Hf.
    unfold mret, io_ret. intros [= <-]. cbn. intros [? ?]. discriminate. }
  destruct flag.
  2:{ destruct (NormalizerFacts.extract_structured_disabled subject body model
                  cache_path w1 Hf) as (d & E1).
      assert (E2 : EmailParser.extract_structured subject body false model
                     cache_path w2 = (Ok d, w2)).
      { revert E1. unfold EmailParser.extract_structured. cbv zeta.
        unfold Notions.found_both, Notions.text_of in Hf. rewrite Hf.
        unfold mret, io_ret. cbn [negb]. intros [= <-]. reflexivity. }
      rewrite E1, E2. cbn [fst snd].
      repeat split; try discriminate.
      intros d1 [= <-]. exists d. repeat split; auto.
      intros Hm.
      exfalso. revert E1 Hm. unfold EmailParser.extract_structured. cbv zeta.
      unfold Notions.found_both, Notions.text_of in Hf. rewrite Hf.
      unfold mret, io_ret. cbn [negb]. intros [= <-]. cbn. intros [? ?]. discriminate. }
  rewrite !(NormalizerFacts.extract_structured_llm subject body model cache_path _ Hf).
  rewrite !NormalizerFacts.obtain_eq. cbv zeta. rewrite Hc.
  unfold Notions.cache_of. rewrite Hfs.
  destruct Hk as [v Hk]. rewrite Hk. cbn [fst snd].
  pose proof (NormalizerFacts.complete_status subject body (Some p) (now w1) (now w2)
                (v, default ∅ (fs w1 !! p))) as Hst.
  destruct (Notions.complete subject body (Some p) (now w1) _) as [d1 | e1];
    destruct (Notions.complete subject body (Some p) (now w2) _) as [d2 | e2];
    try contradiction.
  - destruct Hst as (core & used & -> & ->).
    repeat split; try discriminate.
    intros d [= <-]. eexists. split; [reflexivity |].
    split; [| split].
    + intros k Hne. rewrite !lookup_insert_ne by congruence. reflexivity.
    + intros _. exists used. rewrite !lookup_insert_eq. split; reflexivity.
    + intros ->. reflexivity.
  - subst e2. repeat split; try discriminate. intros e [= <-]. reflexivity.
Qed.

(** C4, a run of the theorem on a warm cache, the second call five
    seconds after the first. *)
Lemma C4_witness :
  let key := @EmailParser._make_key Examples.plain_builtins
               "Claim" "goods never arrived" in
  let v := VDict [("issue_summary", VStr "Goods not received")] in
  let w1 := Examples.warm_world "cache.json" key v "2024-01-01T10:00:00" in
  let w2 := Examples.warm_world "cache.json" key v "2024-01-01T10:00:05" in
  EmailParser.cache_file_of (Some "cache.json") = Some "cache.json"
  /\ is_Some (default ∅ (fs w1 !! "cache.json") !! key)
  /\ fs w2 !! "cache.json" = fs w1 !! "cache.json"
  /\ (@EmailParser.extract_structured Examples.plain_builtins
        Examples.silent_provider "Claim" "goods never arrived" true
        "gpt-4o" (Some "cache.json") w1).2 = w1.
Proof.
  cbv zeta.
  set (key := @EmailParser._make_key Examples.plain_builtins
                "Claim" "goods never arrived").
  set (v := VDict [("issue_summary", VStr "Goods not received")]).
  set (w1 := Examples.warm_world "cache.json" key v "2024-01-01T10:00:00").
  set (w2 := Examples.warm_world "cache.json" key v "2024-01-01T10:00:05").
  assert (Hc : EmailParser.cache_file_of (Some "cache.json") = Some "cache.json")
    by reflexivity.
  assert (Hk : is_Some (default ∅ (fs w1 !! "cache.json") !! key))
    by (exists v; reflexivity).
  assert (Hfs : fs w2 !! "cache.json" = fs w1 !! "cache.json") by reflexivity.
  split; [exact Hc |]. split; [exact Hk |]. split; [exact Hfs |].
  exact (proj1 (@C4_warm_cache_idempotent Examples.plain_builtins
                  Examples.silent_provider "Claim" "goods never arrived"
                  true "gpt-4o" (Some "cache.json") "cache.json" w1 w2 Hc Hk Hfs)).
Defined.

(** C4 as stated fails: on a warm cache, two calls with the same
    arguments, the second five seconds after the first, return results
    that differ in ["_meta"]["extracted_at"]. *)
Lemma C4_counterexample :
  let key := @EmailParser._make_key Examples.plain_builtins
               "Claim" "goods never arrived" in
  let v := VDict [("issue_summary", VStr "Goods not received")] in
  let w1 := Examples.warm_world "cache.json" key v "2024-01-01T10:00:00" in
  let w2 := Examples.warm_world "cache.json" key v "2024-01-01T10:00:05" in
  let r1 := @EmailParser.extract_structured Examples.plain_builtins
              Examples.silent_provider "Claim" "goods never arrived" true
              "gpt-4o" (Some "cache.json") w1 in
  let r2 := @EmailParser.extract_structured Examples.plain_builtins
              Examples.silent_provider "Claim" "goods never arrived" true
              "gpt-4o" (Some "cache.json") w2 in
  is_Some (default ∅ (fs w1 !! "cache.json") !! key)
  /\ fs w2 = fs w1
  /\ r1.2 = w1
  /\ is_ok r1.1 = true /\ is_ok r2.1 = true
  /\ r1.1 <> r2.1.
Proof.
  cbv zeta.
  split; [eexists; reflexivity |]. split; [reflexivity |]. split; [reflexivity |].
  split; [reflexivity |]. split; [reflexivity |].
  intros Heq. apply (f_equal Notions.meta_of) in Heq.
  vm_compute in Heq. discriminate Heq.
Qed.

(* ===================================================================== *)
(** * The batch run of the pipeline                                      *)
(* ===================================================================== *)

Module BatchFacts.
Import Notions Examples.

Section Runner.
Context `{Builtins} `{Extractor.Chat}.
Variable connect : nat -> option Verifier.connection.
Variable summary_open : option pyexn.






End Runner.

End BatchFacts.




(* ===================================================================== *)
(** * Further properties of the code                                    *)
(* ===================================================================== *)

Module SubFacts.
Import F64 F64Facts.

Lemma SFsub_opp (x y : spec_float) :
  SF64sub x y = SF64add x (SFopp y).
Proof.
  destruct x as [[] | [] | | sx mx ex], y as [[] | [] | | sy my ey];
    try reflexivity.
  unfold SF64sub, SF64add. cbn [SFsub SFadd SFopp]. f_equal.
  destruct sy; cbn [negb cond_Zopp]; lia.
Qed.

(** [1 - c], in units. *)
Lemma sub_fv (x c : float) :
  ffinite x = true -> fnan c = false ->
  fnan (x - c) = false
  /\ fv (x - c) = if ffinite c then rnd (fv x - fv c) else - fv c.
Proof.
  unfold fnan, fv, ffinite. intros Fx Nc. rewrite sub_spec, SFsub_opp.
  pose proof (Prim2SF_valid x) as Hx. pose proof (Prim2SF_valid c) as Hc.
  destruct (finite_sf (Prim2SF c)) eqn:Fc.
  - assert (Ho : valid_binary (SFopp (Prim2SF c)) = true)
      by (destruct (Prim2SF c); try discriminate; exact Hc).
    assert (Fo : finite_sf (SFopp (Prim2SF c)) = true)
      by (destruct (Prim2SF c); try discriminate; reflexivity).
    destruct (SFadd_Zval _ _ Hx Ho Fx Fo) as [Hn Hv]. split; [exact Hn |].
    rewrite Hv. f_equal.
    destruct (Prim2SF c) as [s | s | | s m e]; try discriminate; cbn [SFopp Zval]; try lia.
    destruct s; cbn [negb cond_Zopp]; lia.
  - destruct (Prim2SF c) as [s | s | | s m e]; try discriminate.
    destruct (Prim2SF x) as [sx | sx | | sx mx ex]; try discriminate;
      destruct s; split; reflexivity.
Qed.

Lemma sub_nan (x c : float) : fnan c = true -> fnan (x - c) = true.
Proof.
  unfold fnan. rewrite sub_spec.
  destruct (Prim2SF c); try discriminate. destruct (Prim2SF x); reflexivity.
Qed.

(** Subtracting more leaves less. *)
Lemma sub_antimono (x c d : float) :
  ffinite x = true -> fnan c = false -> fnan d = false ->
  fv c <= fv d -> fv (x - d) <= fv (x - c).
Proof.
  intros Fx Nc Nd Hcd.
  destruct (sub_fv x c Fx Nc) as [_ Ec]. destruct (sub_fv x d Fx Nd) as [_ Ed].
  rewrite Ec, Ed.
  pose proof (fv_finite_lt x Fx) as Hx.
  destruct (ffinite c) eqn:Fc, (ffinite d) eqn:Fd.
  - apply rnd_mono. lia.
  - destruct (fv_inf d Nd Fd) as [E | E].
    + rewrite E. pose proof (rnd_range (fv x - fv c)). lia.
    + pose proof (fv_finite_lt c Fc). lia.
  - destruct (fv_inf c Nc Fc) as [E | E].
    + pose proof (fv_finite_lt d Fd). lia.
    + rewrite E. pose proof (rnd_range (fv x - fv d)). lia.
  - lia.
Qed.

End SubFacts.

Module ActionFacts.
Import F64 F64Facts ScoreFacts ScorerFacts Scorer.
Import Notions Shapes.

Lemma clamp_idem (b : float) : clamp (clamp b) = clamp b.
Proof.
  destruct (fnan b) eqn:Hn.
  - rewrite (clamp_nan b Hn). vm_compute. reflexivity.
  - destruct (clamp_cases b Hn) as [[E Hb] | [[E Hb] | [E Hb]]].
    + rewrite E. destruct (clamp_cases b Hn) as [[E' _] | [[_ Hb'] | [_ Hb']]];
        [exact E' | lia | lia].
    + rewrite E. vm_compute. reflexivity.
    + rewrite E. vm_compute. reflexivity.
Qed.

Lemma final_clamp (b : float) : final (clamp b) = final b.
Proof. unfold final. rewrite clamp_idem. reflexivity. Qed.

Lemma fge_fv (score t : float) :
  fnan score = false -> fnan t = false -> fge score t = (fv t <=? fv score).
Proof. intros Hs Ht. unfold fge. rewrite leb_fv, Hs, Ht. reflexivity. Qed.

Lemma thresholds :
  fnan 0.75 = false /\ fnan 0.35 = false /\ fv 0.35 < fv 0.75
  /\ 0 < fv 0.35 /\ fv 0.75 < one_units.
Proof. repeat split; vm_compute; reflexivity. Qed.

(** The action in terms of the value of the clamped score. *)
Lemma action_of_fv (score : float) :
  fnan score = false ->
  action_of score
  = if fv 0.75 <=? fv score then "HOLD_PAYMENT"
    else if fv 0.35 <=? fv score then "REQUEST_DOCS"
    else "AUTO_APPROVE".
Proof.
  intros Hs. destruct thresholds as (N75 & N35 & _).
  unfold action_of. rewrite !fge_fv by assumption. reflexivity.
Qed.

Lemma severity_mono (a b : float) :
  fle a b -> (severity (action_of (clamp a)) <= severity (action_of (clamp b)))%nat.
Proof.
  intros Hab. pose proof (clamp_mono a b Hab) as Hle.
  destruct thresholds as (_ & _ & Hlt & _).
  rewrite !action_of_fv by apply clamp_not_nan.
  destruct (Z.leb_spec (fv 0.75) (fv (clamp a))), (Z.leb_spec (fv 0.75) (fv (clamp b)));
    destruct (Z.leb_spec (fv 0.35) (fv (clamp a))), (Z.leb_spec (fv 0.35) (fv (clamp b)));
    cbn; lia.
Qed.

Lemma action_le_results (b0 b1 : float) (rs0 rs1 : list pyval) :
  fle b0 b1 -> action_le (result_of b0 rs0) (result_of b1 rs1).
Proof.
  intros Hb. exists (action_of (clamp b0)), (action_of (clamp b1)).
  split; [reflexivity |]. split; [reflexivity |]. apply severity_mono, Hb.
Qed.

Section Facts.
Context `{Builtins}.

(** The bases of two runs that differ in one risk signal are ordered. *)
Lemma signal_contradictions (e v : gmap string pyval) (sender : string)
    (l : list pyval) (r0 : gmap string pyval) :
  compute_score e (<["contradictions" := VList []]> v) sender = Ok r0 ->
  exists b0 rs0 b1 rs1,
    r0 = result_of b0 rs0
    /\ compute_score e (<["contradictions" := VList l]> v) sender
       = Ok (result_of b1 rs1)
    /\ fle b0 b1.
Proof.
  intros Hr.
  apply compute_score_inv in Hr as (b0 & rs0 & Hb & ->).
  rewrite base_and_reasons_eq in Hb.
  destruct (confidence_of e) as [c | x] eqn:Ec; [| discriminate].
  rewrite bump_contradictions_list in Hb.
  rewrite bump_invoice_other in Hb by discriminate.
  injection Hb as Hb.
  eexists b0, rs0, _, _. split; [reflexivity |]. split.
  - apply compute_score_ok.
    rewrite base_and_reasons_eq, Ec, bump_contradictions_list.
    rewrite bump_invoice_other by discriminate. reflexivity.
  - base_of Hb.
    apply bump_sender_mono, bump_invoice_mono.
    destruct l; [apply fle_refl |].
    cbn [fst]. apply fle_add_r; apply increment_facts.
Qed.

Lemma signal_invoice (e v : gmap string pyval) (sender : string)
    (r0 : gmap string pyval) :
  compute_score e (<["invoice_exists" := VBool true]> v) sender = Ok r0 ->
  exists b0 rs0 b1 rs1,
    r0 = result_of b0 rs0
    /\ compute_score e (<["invoice_exists" := VBool false]> v) sender
       = Ok (result_of b1 rs1)
    /\ fle b0 b1.
Proof.
  intros Hr.
  apply compute_score_inv in Hr as (b0 & rs0 & Hb & ->).
  rewrite base_and_reasons_eq in Hb.
  destruct (confidence_of e) as [c | x] eqn:Ec; [| discriminate].
  rewrite bump_contradictions_other in Hb by discriminate.
  destruct (bump_contradictions v ((1 - c)%float, [])) as [st | x] eqn:Est;
    [| discriminate].
  injection Hb as Hb.
  eexists b0, rs0, _, _. split; [reflexivity |]. split.
  - apply compute_score_ok.
    rewrite base_and_reasons_eq, Ec.
    rewrite bump_contradictions_other by discriminate.
    rewrite Est. reflexivity.
  - base_of Hb.
    apply bump_sender_mono.
    unfold bump_invoice. rewrite !get_insert.
    cbn [truthy negb]. rewrite andb_false_r, andb_true_r.
    destruct (truthy (Py.get e "invoice_number")); [| apply fle_refl].
    cbn [fst]. apply fle_add_r; apply increment_facts.
Qed.

Lemma signal_sender (e v : gmap string pyval) (trusted other : string)
    (r0 : gmap string pyval) :
  trusted_sender trusted = true ->
  compute_score e v trusted = Ok r0 ->
  exists b0 rs0 b1 rs1,
    r0 = result_of b0 rs0
    /\ compute_score e v other = Ok (result_of b1 rs1)
    /\ fle b0 b1.
Proof.
  intros Ht Hr.
  apply compute_score_inv in Hr as (b0 & rs0 & Hb & ->).
  rewrite base_and_reasons_eq in Hb.
  destruct (confidence_of e) as [c | x] eqn:Ec; [| discriminate].
  destruct (bump_contradictions v ((1 - c)%float, [])) as [st | x] eqn:Est;
    [| discriminate].
  rewrite bump_sender_trusted in Hb by exact Ht.
  injection Hb as Hb.
  eexists b0, rs0, _, _. split; [reflexivity |]. split.
  - apply compute_score_ok.
    rewrite base_and_reasons_eq, Ec, Est. reflexivity.
  - base_of Hb. apply bump_sender_incr.
Qed.

(** A confidence whose truth value is false counts as 0.5. *)
Lemma confidence_falsy (e : gmap string pyval) :
  truthy (Py.get e "confidence") = false -> confidence_of e = Ok 0.5%float.
Proof.
  unfold confidence_of, Py.get, Py.get_or, py_or.
  destruct (e !! "confidence") as [x |]; cbn [default].
  - intros ->. reflexivity.
  - intros _. reflexivity.
Qed.

Lemma confidence_insert (e : gmap string pyval) (c : float) :
  truthy (VFloat c) = true ->
  confidence_of (<["confidence" := VFloat c]> e) = Ok c.
Proof.
  intros Hc. unfold confidence_of, py_or. rewrite get_or_insert, Hc. reflexivity.
Qed.

Lemma bump_invoice_extraction (e v : gmap string pyval) (k : string) (x : pyval)
    (st : float * list pyval) :
  k <> "invoice_number" ->
  bump_invoice (<[k := x]> e) v st = bump_invoice e v st.
Proof. intros Hk. unfold bump_invoice. rewrite get_insert_ne by exact Hk. reflexivity. Qed.

(** Every increment is at most the constant it adds. *)
Lemma bump_invoice_le (e v : gmap string pyval) (a : float * list pyval) (b : float) :
  fle a.1 b -> fle (bump_invoice e v a).1 (b + 0.30).
Proof.
  intros Hab. unfold bump_invoice.
  destruct (_ && _); cbn [fst].
  - apply fle_add_both; [apply increment_facts | exact Hab].
  - apply (fle_trans _ b); [exact Hab |]. apply fle_add_r; apply increment_facts.
Qed.

Lemma bump_sender_le (sender : string) (a : float * list pyval) (b : float) :
  fle a.1 b -> fle (bump_sender sender a).1 (b + 0.15).
Proof.
  intros Hab. unfold bump_sender.
  destruct (_ && _); cbn [fst].
  - apply fle_add_both; [apply increment_facts | exact Hab].
  - apply (fle_trans _ b); [exact Hab |]. apply fle_add_r; apply increment_facts.
Qed.

Lemma bump_contradictions_le (v : gmap string pyval) (a st : float * list pyval)
    (b : float) :
  bump_contradictions v a = Ok st -> fle a.1 b -> fle st.1 (b + 0.35).
Proof.
  unfold bump_contradictions. intros Hst Hab.
  destruct (truthy _).
  - destruct (py_iter _) as [items | x]; [| discriminate].
    cbn in Hst. injection Hst as <-. cbn [fst].
    apply fle_add_both; [apply increment_facts | exact Hab].
  - cbn in Hst. injection Hst as <-.
    apply (fle_trans _ b); [exact Hab |]. apply fle_add_r; apply increment_facts.
Qed.

(** A NaN base stays NaN through the increments. *)
Lemma bump_contradictions_nan (v : gmap string pyval) (a st : float * list pyval) :
  bump_contradictions v a = Ok st -> fnan a.1 = true -> fnan st.1 = true.
Proof.
  unfold bump_contradictions. intros Hst Ha.
  destruct (truthy _).
  - destruct (py_iter _) as [items | x]; [| discriminate].
    cbn in Hst. injection Hst as <-. cbn [fst]. apply add_nan, Ha.
  - cbn in Hst. injection Hst as <-. exact Ha.
Qed.

Lemma bump_invoice_nan (e v : gmap string pyval) (a : float * list pyval) :
  fnan a.1 = true -> fnan (bump_invoice e v a).1 = true.
Proof.
  intros Ha. unfold bump_invoice. destruct (_ && _); [| exact Ha].
  cbn [fst]. apply add_nan, Ha.
Qed.

Lemma bump_sender_nan (sender : string) (a : float * list pyval) :
  fnan a.1 = true -> fnan (bump_sender sender a).1 = true.
Proof.
  intros Ha. unfold bump_sender. destruct (_ && _); [| exact Ha].
  cbn [fst]. apply add_nan, Ha.
Qed.

End Facts.
End ActionFacts.

(** X1. A confidence whose truth value is false (a missing key, [None],
    [0], [0.0], [False], an empty string or list) counts as 0.5:
    [compute_score] returns what it returns when the confidence is
    0.5. *)
Theorem X1_confidence_default `{Builtins}
    (e v : gmap string pyval) (sender : string) :
  truthy (Py.get e "confidence") = false ->
  Scorer.compute_score e v sender
  = Scorer.compute_score (<["confidence" := VFloat 0.5]> e) v sender.
Proof.
  intros Hc. unfold Scorer.compute_score.
  rewrite !ScorerFacts.base_and_reasons_eq.
  rewrite (ActionFacts.confidence_falsy e Hc).
  rewrite ActionFacts.confidence_insert by reflexivity.
  destruct (Scorer.bump_contradictions v _) as [st | x]; [| reflexivity].
  rewrite ActionFacts.bump_invoice_extraction by discriminate. reflexivity.
Qed.

(** X1, a run of the theorem: a confidence of 0.0 and no risk signal give
    the score 0.5, not 1.0. *)
Lemma X1_witness :
  truthy (Py.get (<["confidence" := VFloat 0]> ∅) "confidence") = false
  /\ @Scorer.compute_score Examples.plain_builtins
       (<["confidence" := VFloat 0]> ∅) ∅ ""
     = Ok (Notions.result_of 0.5 []).
Proof.
  assert (Hc : truthy (Py.get (<["confidence" := VFloat 0]> ∅) "confidence") = false)
    by reflexivity.
  split; [exact Hc |].
  rewrite (@X1_confidence_default Examples.plain_builtins
             (<["confidence" := VFloat 0]> ∅) ∅ "" Hc).
  reflexivity.
Defined.

(** X2. A confidence that is not a number (NaN) gives the highest
    suspicion: whenever [compute_score] returns, the score is 1.0 and the
    action [HOLD_PAYMENT], whatever the risk signals. *)
Theorem X2_nan_confidence `{Builtins}
    (e v : gmap string pyval) (sender : string) (c : float)
    (r : gmap string pyval) :
  Notions.confidence_of e = Ok c ->
  F64.fnan c = true ->
  Scorer.compute_score e v sender = Ok r ->
  r !! "suspicious_score" = Some (VFloat 1)
  /\ r !! "action" = Some (VStr "HOLD_PAYMENT").
Proof.
  intros Ec Hn Hr.
  apply ScorerFacts.compute_score_inv in Hr as (b & rs & Hb & ->).
  rewrite ScorerFacts.base_and_reasons_eq, Ec in Hb.
  destruct (Scorer.bump_contradictions v _) as [st | x] eqn:Est; [| discriminate].
  injection Hb as Hb.
  assert (Nb : F64.fnan b = true).
  { ScorerFacts.base_of Hb.
    apply ActionFacts.bump_sender_nan, ActionFacts.bump_invoice_nan.
    apply (ActionFacts.bump_contradictions_nan v _ st Est).
    cbn [fst]. apply SubFacts.sub_nan, Hn. }
  unfold Notions.result_of. rewrite (ScoreFacts.clamp_nan b Nb).
  split; reflexivity.
Qed.

(** X2, a run of the theorem on the confidence NaN. *)
Lemma X2_witness :
  exists r,
    @Scorer.compute_score Examples.plain_builtins
       (<["confidence" := VFloat nan]> ∅) ∅ "bob@abcchem.com" = Ok r
    /\ r !! "suspicious_score" = Some (VFloat 1)
    /\ r !! "action" = Some (VStr "HOLD_PAYMENT").
Proof.
  assert (Hrun : @Scorer.compute_score Examples.plain_builtins
                    (<["confidence" := VFloat nan]> ∅) ∅ "bob@abcchem.com"
                  = Ok (Notions.result_of (1 - nan) [])) by reflexivity.
  assert (Ec : @Notions.confidence_of Examples.plain_builtins
                 (<["confidence" := VFloat nan]> ∅) = Ok nan) by reflexivity.
  assert (Hn : F64.fnan nan = true) by reflexivity.
  eexists. split; [exact Hrun |].
  exact (@X2_nan_confidence Examples.plain_builtins _ _ _ nan _ Ec Hn Hrun).
Defined.

(** X3. The action is monotone in each risk signal, the other inputs
    being the same: a non-empty list of contradictions, an invoice that
    is not on record, or a sender outside the trusted domain never leads
    to a milder action ([AUTO_APPROVE] below [REQUEST_DOCS] below
    [HOLD_PAYMENT]). *)
Theorem X3_action_monotone `{Builtins}
    (e v : gmap string pyval) (sender : string) :
  (forall l r0,
     Scorer.compute_score e (<["contradictions" := VList []]> v) sender = Ok r0 ->
     exists r1,
       Scorer.compute_score e (<["contradictions" := VList l]> v) sender = Ok r1
       /\ Shapes.action_le r0 r1)
  /\ (forall r0,
     Scorer.compute_score e (<["invoice_exists" := VBool true]> v) sender = Ok r0 ->
     exists r1,
       Scorer.compute_score e (<["invoice_exists" := VBool false]> v) sender = Ok r1
       /\ Shapes.action_le r0 r1)
  /\ (forall trusted other r0,
     Scorer.trusted_sender trusted = true ->
     Scorer.compute_score e v trusted = Ok r0 ->
     exists r1,
       Scorer.compute_score e v other = Ok r1 /\ Shapes.action_le r0 r1).
Proof.
  split; [| split].
  - intros l r0 Hr.
    destruct (ActionFacts.signal_contradictions e v sender l r0 Hr)
      as (b0 & rs0 & b1 & rs1 & -> & H1 & Hle).
    eexists. split; [exact H1 |]. apply ActionFacts.action_le_results, Hle.
  - intros r0 Hr.
    destruct (ActionFacts.signal_invoice e v sender r0 Hr)
      as (b0 & rs0 & b1 & rs1 & -> & H1 & Hle).
    eexists. split; [exact H1 |]. apply ActionFacts.action_le_results, Hle.
  - intros trusted other r0 Ht Hr.
    destruct (ActionFacts.signal_sender e v trusted other r0 Ht Hr)
      as (b0 & rs0 & b1 & rs1 & -> & H1 & Hle).
    eexists. split; [exact H1 |]. apply ActionFacts.action_le_results, Hle.
Qed.

(** X3, a run of the theorem: confidence 0.7, then one contradiction. *)
Lemma X3_witness :
  exists r0 r1,
    @Scorer.compute_score Examples.plain_builtins
       (<["confidence" := VFloat 0.7]> ∅) (<["contradictions" := VList []]> ∅) ""
    = Ok r0
    /\ @Scorer.compute_score Examples.plain_builtins
         (<["confidence" := VFloat 0.7]> ∅)
         (<["contradictions" := VList [VStr "amount_mismatch"]]> ∅) ""
       = Ok r1
    /\ r0 !! "action" = Some (VStr "AUTO_APPROVE")
    /\ Shapes.action_le r0 r1.
Proof.
  assert (Hrun : @Scorer.compute_score Examples.plain_builtins
                    (<["confidence" := VFloat 0.7]> ∅)
                    (<["contradictions" := VList []]> ∅) ""
                  = Ok (Notions.result_of (1 - 0.7) [])) by reflexivity.
  destruct (@X3_action_monotone Examples.plain_builtins
              (<["confidence" := VFloat 0.7]> ∅) ∅ "") as [A _].
  destruct (A [VStr "amount_mismatch"] _ Hrun) as (r1 & H1 & Hle).
  exists (Notions.result_of (1 - 0.7) []), r1.
  split; [exact Hrun |]. split; [exact H1 |]. split; [reflexivity | exact Hle].
Defined.

(** X4. The returned score and the action agree up to the rounding:
    [HOLD_PAYMENT] comes with a score of at least 0.75, [REQUEST_DOCS]
    with a score between 0.35 and 0.75, [AUTO_APPROVE] with a score of at
    most 0.35; so a returned score above 0.75 means [HOLD_PAYMENT] and
    one below 0.35 means [AUTO_APPROVE], and only the returned scores
    0.75 and 0.35 leave the action open. *)
Theorem X4_action_and_score `{Builtins}
    (e v : gmap string pyval) (sender : string) (r : gmap string pyval) :
  Scorer.compute_score e v sender = Ok r ->
  exists score action,
    r !! "suspicious_score" = Some (VFloat score)
    /\ r !! "action" = Some (VStr action)
    /\ (action = "HOLD_PAYMENT" \/ action = "REQUEST_DOCS"
        \/ action = "AUTO_APPROVE")
    /\ (action = "HOLD_PAYMENT" -> (0.75 <=? score)%float = true)
    /\ (action = "REQUEST_DOCS" ->
          (0.35 <=? score)%float = true /\ (score <=? 0.75)%float = true)
    /\ (action = "AUTO_APPROVE" -> (score <=? 0.35)%float = true)
    /\ ((0.75 <? score)%float = true -> action = "HOLD_PAYMENT")
    /\ ((score <? 0.35)%float = true -> action = "AUTO_APPROVE").
Proof.
  intros Hr.
  apply ScorerFacts.compute_score_inv in Hr as (b & rs & _ & ->).
  exists (Notions.final b), (Scorer.action_of (Scorer.clamp b)).
  split; [reflexivity |]. split; [reflexivity |].
  pose proof (ScoreFacts.clamp_not_nan b) as Hn.
  destruct ActionFacts.thresholds as (N75 & N35 & Hlt & _).
  assert (Hup : forall t, F64.fnan t = false ->
                  F64.fv t <= F64.fv (Scorer.clamp b) ->
                  (Notions.final t <=? Notions.final b)%float = true).
  { intros t Nt Hle. rewrite <- (ActionFacts.final_clamp b).
    apply ScoreFacts.final_mono. right. auto. }
  assert (Hdn : forall t, F64.fnan t = false ->
                  F64.fv (Scorer.clamp b) <= F64.fv t ->
                  (Notions.final b <=? Notions.final t)%float = true).
  { intros t Nt Hle. rewrite <- (ActionFacts.final_clamp b).
    apply ScoreFacts.final_mono. right. auto. }
  pose proof (Hup 0.75%float N75) as U75. pose proof (Hup 0.35%float N35) as U35.
  pose proof (Hdn 0.75%float N75) as D75. pose proof (Hdn 0.35%float N35) as D35.
  change (Notions.final 0.75) with 0.75%float in *.
  change (Notions.final 0.35) with 0.35%float in *.
  assert (Hno : forall x y, (x <? y)%float = true -> (y <=? x)%float = true -> False).
  { intros x y. rewrite F64Facts.ltb_fv, F64Facts.leb_fv, !andb_true_iff.
    rewrite Z.ltb_lt, Z.leb_le. lia. }
  rewrite (ActionFacts.action_of_fv _ Hn).
  destruct (Z.leb_spec (F64.fv 0.75) (F64.fv (Scorer.clamp b))) as [H75 | H75];
    [| destruct (Z.leb_spec (F64.fv 0.35) (F64.fv (Scorer.clamp b))) as [H35 | H35]];
    (split; [auto |]); repeat split;
    first
      [ reflexivity
      | intros _; reflexivity
      | intros Hs; discriminate Hs
      | match goal with Hs : @eq string _ _ |- _ => discriminate Hs end
      | first [apply U75; lia | apply U35; lia | apply D75; lia | apply D35; lia]
      | intros _; first [apply U75; lia | apply U35; lia | apply D75; lia | apply D35; lia]
      | intros Hs; exfalso;
        first [apply (Hno _ _ Hs), U35; lia | apply (Hno _ _ Hs), D75; lia] ].
Qed.

(** X4, a run of the theorem: the confidence 0.2504 gives the score
    0.75 with [REQUEST_DOCS], within the bounds. *)
Lemma X4_witness :
  exists score action,
    Notions.result_of (1 - 0.2504) [] !! "suspicious_score" = Some (VFloat score)
    /\ Notions.result_of (1 - 0.2504) [] !! "action" = Some (VStr action)
    /\ (action = "REQUEST_DOCS" -> (score <=? 0.75)%float = true).
Proof.
  assert (Hrun : @Scorer.compute_score Examples.plain_builtins
                    (<["confidence" := VFloat 0.2504]> ∅) ∅ ""
                  = Ok (Notions.result_of (1 - 0.2504) [])) by reflexivity.
  destruct (@X4_action_and_score Examples.plain_builtins _ _ _ _ Hrun)
    as (score & action & Hs & Ha & _ & _ & Hreq & _).
  exists score, action. split; [exact Hs |]. split; [exact Ha |].
  intros Hq. exact (proj2 (Hreq Hq)).
Defined.

(** X5. The confidence is not checked against the range 0..1: with a
    confidence of 1.8 or more the three increments together (0.8) cannot
    lift the base above zero, so whenever [compute_score] returns, the
    score is 0.0 and the action [AUTO_APPROVE], whatever the risk
    signals. *)
Theorem X5_overconfident `{Builtins}
    (e v : gmap string pyval) (sender : string) (c : float)
    (r : gmap string pyval) :
  Notions.confidence_of e = Ok c ->
  (1.8 <=? c)%float = true ->
  Scorer.compute_score e v sender = Ok r ->
  r !! "suspicious_score" = Some (VFloat 0)
  /\ r !! "action" = Some (VStr "AUTO_APPROVE").
Proof.
  intros Ec Hc Hr.
  apply ScoreFacts.leb_true_fv in Hc as (N18 & Nc & Hc).
  apply ScorerFacts.compute_score_inv in Hr as (b & rs & Hb & ->).
  rewrite ScorerFacts.base_and_reasons_eq, Ec in Hb.
  destruct (Scorer.bump_contradictions v _) as [st | x] eqn:Est; [| discriminate].
  injection Hb as Hb.
  assert (H0 : Notions.fle (1 - c) (1 - 1.8)).
  { right. split; [apply SubFacts.sub_fv; [reflexivity | exact Nc] |].
    split; [reflexivity |].
    apply SubFacts.sub_antimono; [reflexivity | exact N18 | exact Nc | exact Hc]. }
  assert (Hle : Notions.fle b (1 - 1.8 + 0.35 + 0.30 + 0.15)).
  { ScorerFacts.base_of Hb.
    apply ActionFacts.bump_sender_le, ActionFacts.bump_invoice_le.
    apply (ActionFacts.bump_contradictions_le v _ st _ Est). exact H0. }
  apply ScoreFacts.clamp_mono in Hle.
  change (F64.fv (Scorer.clamp (1 - 1.8 + 0.35 + 0.30 + 0.15))) with 0 in Hle.
  pose proof (ScoreFacts.clamp_fv_range b) as [Hlo _].
  assert (E : Scorer.clamp b = 0%float).
  { pose proof ScoreFacts.one_units_pos.
    destruct (F64.fnan b) eqn:Nb.
    - rewrite (ScoreFacts.clamp_nan b Nb), ScoreFacts.fv_one in Hle. lia.
    - destruct (ScoreFacts.clamp_cases b Nb) as [[E Hb'] | [[E _] | [E _]]].
      + rewrite E in Hle. lia.
      + exact E.
      + rewrite E, ScoreFacts.fv_one in Hle. lia. }
  unfold Notions.result_of. rewrite E. split; reflexivity.
Qed.

(** X5, a run of the theorem: confidence 2.0, a contradiction, an
    invoice that is not on record and an outside sender. *)
Lemma X5_witness :
  exists r,
    @Scorer.compute_score Examples.plain_builtins
       (<["invoice_number" := VStr "INV-1"]> (<["confidence" := VFloat 2]> ∅))
       (<["contradictions" := VList [VStr "amount_mismatch"]]> ∅)
       "eve@example.org" = Ok r
    /\ r !! "reasons"
       = Some (VList [VStr "amount_mismatch"; VStr "invoice_missing_in_sap";
                      VStr "non_standard_sender"])
    /\ r !! "suspicious_score" = Some (VFloat 0)
    /\ r !! "action" = Some (VStr "AUTO_APPROVE").
Proof.
  destruct (@Scorer.compute_score Examples.plain_builtins
       (<["invoice_number" := VStr "INV-1"]> (<["confidence" := VFloat 2]> ∅))
       (<["contradictions" := VList [VStr "amount_mismatch"]]> ∅)
       "eve@example.org") as [r | x] eqn:Hrun; [| discriminate Hrun].
  assert (Ec : @Notions.confidence_of Examples.plain_builtins
                 (<["invoice_number" := VStr "INV-1"]>
                    (<["confidence" := VFloat 2]> ∅)) = Ok 2%float) by reflexivity.
  assert (Hc : (1.8 <=? 2)%float = true) by reflexivity.
  exists r. split; [reflexivity |].
  split; [injection Hrun as <-; reflexivity |].
  exact (@X5_overconfident Examples.plain_builtins _ _ _ _ _ Ec Hc Hrun).
Defined.

Module LookupFacts.
Import Verifier.
Import Notions.

Section Facts.
Context `{Builtins}.

(** What the invoice lookup leaves in [out]. *)
Lemma lookup_invoice_cases (conn : connection) (invoice : pyval)
    (out out1 : gmap string pyval) :
  lookup_invoice conn invoice out = Ok out1 ->
  out1 = out
  \/ (truthy invoice = true
      /\ exists row,
           out1 = <["invoice_status" := sap_status row]>
                  (<["invoice_amount" := opt_amount (amount row)]>
                  (<["invoice_id" := VInt (invoice_id row)]>
                  (<["invoice_exists" := VBool true]> out)))).
Proof.
  unfold lookup_invoice. destruct (truthy invoice); [| intros [= <-]; auto].
  destruct (select_invoice conn invoice) as [[row |] | x]; cbn;
    [| intros [= <-]; auto | discriminate].
  intros [= <-]. right. split; [reflexivity |]. exists row. reflexivity.
Qed.

(** What the purchase-order lookup leaves in [out]. *)
Lemma lookup_po_cases (conn : connection) (po : pyval)
    (out out2 : gmap string pyval) :
  lookup_po conn po out = Ok out2 ->
  out2 = out
  \/ (truthy po = true
      /\ exists po_id,
           out2 = <["po_id" := VInt po_id]> (<["po_exists" := VBool true]> out)
           \/ exists row rows,
                out2 = <["grn_ids" := VList (map VInt (row :: rows))]>
                       (<["grn_exists" := VBool true]>
                       (<["po_id" := VInt po_id]>
                       (<["po_exists" := VBool true]> out)))).
Proof.
  unfold lookup_po. destruct (truthy po); [| intros [= <-]; auto].
  destruct (select_purchase_order conn po) as [[po_id |] | x]; cbn;
    [| intros [= <-]; auto | discriminate].
  destruct (select_goods_receipts conn po_id) as [[| row rows] | x]; cbn;
    [| | discriminate]; intros [= <-]; right; (split; [reflexivity |]);
    exists po_id; [left | right]; eauto.
Qed.

End Facts.
End LookupFacts.

Ltac pick ie pe ids :=
  match goal with
  | |- context [Notions.finish ?e ?o] =>
      exists ie, pe, ids, (Verifier.contradictions_of e o)
  end.

(** X6. The dict that [verify] returns is consistent: [grn_exists] is
    true exactly when receipt ids are listed, and only for a purchase
    order that was found; a purchase order or an invoice is found only
    for a number that the extraction holds, and comes with its integer
    id; an invoice that was not found leaves no id, amount or status;
    ["not_received_but_grn_exists"] is listed only when receipts exist
    and ["amount_mismatch"] only for an invoice that was found. *)
Theorem X6_verification_consistent `{Builtins}
    (conn : option Verifier.connection) (e out : gmap string pyval) :
  Verifier.verify conn e = Ok out ->
  exists ie pe ids l,
    out !! "invoice_exists" = Some (VBool ie)
    /\ out !! "po_exists" = Some (VBool pe)
    /\ out !! "grn_exists"
       = Some (VBool (match ids with [] => false | _ :: _ => true end))
    /\ out !! "grn_ids" = Some (VList (map VInt ids))
    /\ out !! "contradictions" = Some (VList l)
    /\ (ids <> [] -> pe = true)
    /\ (pe = true ->
          truthy (Py.get e "po_number") = true
          /\ exists n, out !! "po_id" = Some (VInt n))
    /\ (pe = false -> out !! "po_id" = Some VNone)
    /\ (ie = true ->
          truthy (Py.get e "invoice_number") = true
          /\ (exists n, out !! "invoice_id" = Some (VInt n))
          /\ is_Some (out !! "invoice_status"))
    /\ (ie = false ->
          out !! "invoice_id" = Some VNone
          /\ out !! "invoice_amount" = Some VNone
          /\ out !! "invoice_status" = None)
    /\ (In (VStr "not_received_but_grn_exists") l -> ids <> [])
    /\ (In (VStr "amount_mismatch") l -> ie = true).
Proof.
  destruct conn as [conn |].
  2:{ intros [= <-]. exists false, false, [], [].
      repeat split; try reflexivity; try discriminate; try contradiction;
        intros []. }
  intros Hv. apply VerifierFacts.verify_inv in Hv as (out1 & out2 & H1 & H2 & ->).
  apply LookupFacts.lookup_invoice_cases in H1.
  apply LookupFacts.lookup_po_cases in H2.
  assert (Hnr : forall ids : list Z,
            Py.get out2 "grn_exists" = VBool (match ids with [] => false | _ => true end) ->
            In (VStr "not_received_but_grn_exists") (Verifier.contradictions_of e out2) ->
            ids <> []).
  { intros ids Hg. unfold Verifier.contradictions_of. rewrite Hg.
    destruct ids; [| discriminate]. cbn [truthy]. rewrite andb_false_r.
    destruct (Verifier.amount_mismatch e out2); cbn; intros Hin;
      repeat (destruct Hin as [Hin | Hin]; try discriminate); contradiction. }
  assert (Ham : Py.get out2 "invoice_amount" = VNone ->
            In (VStr "amount_mismatch") (Verifier.contradictions_of e out2) -> False).
  { intros Hg Hin. apply VerifierFacts.mismatch_in_list in Hin.
    unfold Verifier.amount_mismatch in Hin. rewrite Hg in Hin.
    cbn [truthy] in Hin. rewrite andb_false_r in Hin. discriminate. }
  destruct H1 as [-> | (Ti & row & ->)];
    destruct H2 as [-> | (Tp & po_id & [-> | (g & gs & ->)])].
  - pick false false (@nil Z).
    repeat split; try reflexivity; try discriminate; try congruence;
      try (apply (Hnr []); reflexivity);
      try (intros Hin; exfalso; apply Ham; [reflexivity | exact Hin]).
  - pick false true (@nil Z).
    repeat split; try reflexivity; try discriminate; try congruence; eauto;
      try (apply (Hnr []); reflexivity);
      try (intros Hin; exfalso; revert Hin; apply Ham; reflexivity).
  - pick false true ((g :: gs)).
    repeat split; try reflexivity; try discriminate; try congruence; eauto;
      try (intros Hin; exfalso; revert Hin; apply Ham; reflexivity).
  - pick true false (@nil Z).
    repeat split; try reflexivity; try discriminate; try congruence; eauto;
      try (apply (Hnr []); reflexivity).
  - pick true true (@nil Z).
    repeat split; try reflexivity; try discriminate; try congruence; eauto;
      try (apply (Hnr []); reflexivity).
  - pick true true ((g :: gs)).
    repeat split; try reflexivity; try discriminate; try congruence; eauto.
Qed.

(** X6, a run of the theorem against a store that holds a goods
    receipt. *)
Lemma X6_witness :
  let e : gmap string pyval := <["po_number" := VStr "4500001"]> ∅ in
  exists out pe,
    @Verifier.verify Examples.plain_builtins
       (Some Examples.store_with_receipt) e = Ok out
    /\ out !! "grn_exists" = Some (VBool true)
    /\ out !! "po_exists" = Some (VBool pe)
    /\ pe = true.
Proof.
  intros e.
  destruct (@Verifier.verify Examples.plain_builtins
              (Some Examples.store_with_receipt) e) as [out | x] eqn:Ev;
    [| discriminate Ev].
  destruct (@X6_verification_consistent Examples.plain_builtins _ e out Ev)
    as (ie & pe & ids & l & _ & Hpe & Hg & _ & _ & Himp & _).
  assert (Hgrn : out !! "grn_exists" = Some (VBool true))
    by (injection Ev as <-; reflexivity).
  exists out, pe. split; [reflexivity |]. split; [exact Hgrn |].
  split; [exact Hpe |]. apply Himp.
  destruct ids; [rewrite Hg in Hgrn; discriminate Hgrn | discriminate].
Defined.

(** X7. An extraction that holds neither an invoice number nor a PO
    number (missing, [None] or empty) is verified without a query: with
    any store, even one whose queries fail, [verify] returns the dict it
    first built, as it does when the store cannot be reached. *)
Theorem X7_nothing_to_look_up `{Builtins}
    (conn : option Verifier.connection) (e : gmap string pyval) :
  truthy (Py.get e "invoice_number") = false ->
  truthy (Py.get e "po_number") = false ->
  Verifier.verify conn e = Ok Verifier.defaults
  /\ Verifier.verify conn e = Verifier.verify None e.
Proof.
  intros Hi Hp.
  assert (E : Verifier.verify conn e = Ok Verifier.defaults).
  { destruct conn as [conn |]; [| reflexivity].
    rewrite VerifierFacts.verify_eq.
    unfold Verifier.lookup_invoice, Verifier.lookup_po. rewrite Hi, Hp. cbn.
    f_equal. unfold Notions.finish.
    assert (Hc : Verifier.contradictions_of e Verifier.defaults = []).
    { unfold Verifier.contradictions_of, Verifier.amount_mismatch.
      change (Py.get Verifier.defaults "grn_exists") with (VBool false).
      change (Py.get Verifier.defaults "invoice_amount") with VNone.
      cbn [truthy]. rewrite !andb_false_r. reflexivity. }
    rewrite Hc. apply insert_id. reflexivity. }
  split; [exact E | rewrite E; reflexivity].
Qed.

(** X7, a run of the theorem: a claim without numbers against a store
    whose queries fail. *)
Lemma X7_witness :
  let e : gmap string pyval :=
    <["claim_type" := VStr "not_received"]> (<["claimed_amount" := VFloat 100]> ∅) in
  truthy (Py.get e "invoice_number") = false
  /\ truthy (Py.get e "po_number") = false
  /\ @Verifier.verify Examples.plain_builtins (Some Inputs.failing_store) e
     = Ok Verifier.defaults.
Proof.
  intros e.
  assert (Hi : truthy (Py.get e "invoice_number") = false) by reflexivity.
  assert (Hp : truthy (Py.get e "po_number") = false) by reflexivity.
  split; [exact Hi |]. split; [exact Hp |].
  exact (proj1 (@X7_nothing_to_look_up Examples.plain_builtins
                  (Some Inputs.failing_store) e Hi Hp)).
Defined.

Module ExtractorFacts.
Import Extractor.
Import Notions Shapes.

Lemma append_cons (c : ascii) (s t : string) :
  String.append (String c s) t = String c (String.append s t).
Proof. reflexivity. Qed.

Lemma append_assoc (s t u : string) :
  String.append (String.append s t) u = String.append s (String.append t u).
Proof.
  induction s as [| c s IH]; [reflexivity |].
  rewrite !append_cons, IH. reflexivity.
Qed.

Lemma length_prefix (n : nat) (s : string) :
  (String.length (Py.prefix n s) <= n)%nat.
Proof.
  unfold Py.prefix. revert n. induction s as [| c s IH]; intros [| n]; cbn; try lia.
  specialize (IH n). lia.
Qed.

Lemma occurs_prefix (c : ascii) (n : nat) (s : string) :
  occurs c s = false -> occurs c (Py.prefix n s) = false.
Proof.
  unfold Py.prefix. revert n. induction s as [| x s IH]; intros [| n]; cbn; auto.
  intros Ho. apply orb_false_elim in Ho as [-> Ho]. cbn. apply IH, Ho.
Qed.

Lemma occurs_replace_char (c : ascii) (new s : string) :
  occurs c new = false -> occurs c (replace_char c new s) = false.
Proof.
  intros Hn. induction s as [| x s IH]; cbn; [reflexivity |].
  destruct (Ascii.eqb x c) eqn:E.
  - clear E. revert IH. generalize (replace_char c new s). intros t Ht.
    induction new as [| y new IHn]; [exact Ht |].
    cbn [occurs] in Hn. apply orb_false_elim in Hn as [Hy Hn].
    change (String.append (String y new) t) with (String y (String.append new t)).
    cbn [occurs]. rewrite Hy. apply IHn, Hn.
  - cbn. rewrite E. exact IH.
Qed.

Lemma length_replace_char1 (old new : ascii) (s : string) :
  String.length (replace_char old (String new EmptyString) s) = String.length s.
Proof.
  induction s as [| c s IH]; [reflexivity |].
  cbn [replace_char]. destruct (Ascii.eqb c old).
  - rewrite append_cons. cbn [String.length]. f_equal. exact IH.
  - cbn [String.length]. f_equal. exact IH.
Qed.

Lemma starts_black_prefix (n : nat) (s : string) :
  starts_black s -> starts_black (Py.prefix n s).
Proof. unfold Py.prefix. destruct s, n; cbn; auto. Qed.

Lemma srev_acc_app (s acc : string) :
  srev_acc s acc = String.append (srev_acc s EmptyString) acc.
Proof.
  revert acc. induction s as [| c s IH]; intros acc; cbn; [reflexivity |].
  rewrite (IH (String c acc)), (IH (String c EmptyString)).
  rewrite append_assoc. reflexivity.
Qed.

Lemma srev_snoc (s : string) (c : ascii) :
  srev (String.append s (String c EmptyString)) = String c (srev s).
Proof.
  unfold srev.
  assert (G : forall acc, srev_acc (String.append s (String c EmptyString)) acc
                          = String c (srev_acc s acc)).
  { induction s as [| x s IH]; intros acc; [reflexivity |].
    rewrite append_cons. cbn [srev_acc]. apply IH. }
  apply G.
Qed.

Lemma srev_cons (c : ascii) (s : string) :
  srev (String c s) = String.append (srev s) (String c EmptyString).
Proof. unfold srev. cbn. apply srev_acc_app. Qed.

(** Stripping at the left of a text that ends with a black character
    leaves a text that ends with it. *)
Lemma lstrip_snoc (s : string) (c : ascii) :
  is_space c = false ->
  exists t, lstrip (String.append s (String c EmptyString))
            = String.append t (String c EmptyString).
Proof.
  intros Hc. induction s as [| x s IH].
  - change (String.append EmptyString (String c EmptyString)) with (String c EmptyString).
    cbn [lstrip]. rewrite Hc. exists EmptyString. reflexivity.
  - rewrite append_cons. cbn [lstrip].
    destruct (is_space x); [exact IH |].
    exists (String x s). reflexivity.
Qed.

Lemma lstrip_black (s : string) : starts_black (lstrip s).
Proof.
  induction s as [| c s IH]; cbn; [exact I |].
  destruct (is_space c) eqn:E; [exact IH | exact E].
Qed.

Lemma strip_black (s : string) : starts_black (strip s).
Proof.
  unfold strip. pose proof (lstrip_black s) as Hl.
  destruct (lstrip s) as [| c u]; [exact I |].
  cbn in Hl. rewrite srev_cons.
  destruct (lstrip_snoc (srev u) c Hl) as (t & ->).
  rewrite srev_snoc. exact Hl.
Qed.

Lemma starts_black_replace_lf (s : string) :
  starts_black s -> starts_black (replace_char (ascii_of_nat 10) " " s).
Proof.
  destruct s as [| c s]; [auto |]. cbn [starts_black replace_char]. intros Hc.
  destruct (Ascii.eqb c (ascii_of_nat 10)) eqn:E.
  - apply Ascii.eqb_eq in E. subst c. discriminate Hc.
  - exact Hc.
Qed.

Section Facts.
Context `{Builtins} `{Chat}.

(** The dict of the pattern extraction, for a claimed amount. *)
Lemma regex_extract_inv (body : string) (r : gmap string pyval) :
  _regex_extract body = Ok r ->
  exists claimed_amount,
    claimed_amount_of body = Ok claimed_amount
    /\ r = <["invoice_number" := opt_text (matched INV_RE body)]>
           (<["po_number" := opt_text (matched PO_RE body)]>
           (<["claimed_amount" := claimed_amount]>
           (<["currency" := if truthy claimed_amount then VStr "INR" else VNone]>
           (<["claim_type" := VStr (claim_type_of body)]>
           (<["claim_text" :=
                VStr (Py.prefix 300 (replace_char (ascii_of_nat 10) " " (strip body)))]>
           (<["confidence" := VFloat 0.6]> ∅)))))).
Proof.
  unfold _regex_extract. destruct (claimed_amount_of body) as [a | x]; cbn.
  - intros [= <-]. eauto.
  - discriminate.
Qed.

(** The two shapes of what [extract_body] returns. *)
Lemma extract_body_inv (body : string) (e : gmap string pyval) :
  extract_body body = Ok e ->
  (exists r, _regex_extract body = Ok r /\ e = <["llm_raw" := VNone]> r)
  \/ (exists llm_result c,
        _call_openai body = Some llm_result
        /\ e = <["invoice_number" := catch (json_get llm_result "invoice_number" VNone) VNone]>
               (<["po_number" := catch (json_get llm_result "po_number" VNone) VNone]>
               (<["claimed_amount" := catch (json_get llm_result "claimed_amount" VNone) VNone]>
               (<["currency" := catch (json_get llm_result "currency" VNone) VNone]>
               (<["claim_type" := catch (json_get llm_result "claim_type" VNone) VNone]>
               (<["claim_text" := catch (json_get llm_result "claim_text" VNone) VNone]>
               (<["confidence" := VFloat c]>
               (<["llm_raw" := llm_result]> ∅)))))))).
Proof.
  unfold extract_body.
  destruct (_call_openai body) as [llm_result |].
  - destruct (truthy llm_result).
    + destruct (py_float _) as [c | x]; cbn; [| discriminate].
      intros [= <-]. right. eauto.
    + destruct (_regex_extract body) as [r | x]; cbn; [| discriminate].
      intros [= <-]. left. eauto.
  - destruct (_regex_extract body) as [r | x]; cbn; [| discriminate].
    intros [= <-]. left. eauto.
Qed.

Lemma extract_inv (email e : gmap string pyval) :
  extract email = Ok e -> exists body, body_of email = Ok body /\ extract_body body = Ok e.
Proof.
  unfold extract. destruct (body_of email) as [body | x]; cbn; [| discriminate].
  eauto.
Qed.

(** Without a key the extractor is the pattern extraction. *)
Lemma extract_body_no_key (body : string) :
  api_key_set = false ->
  extract_body body
  = match _regex_extract body with
    | Ok r => Ok (<["llm_raw" := VNone]> r)
    | Raise y => Raise y
    end.
Proof.
  intros Hk. unfold extract_body, _call_openai. rewrite Hk. cbn [negb].
  destruct (_regex_extract body); reflexivity.
Qed.

End Facts.
End ExtractorFacts.

Module PipelineFacts.
Import Notions Shapes.

Section Facts.
Context `{Builtins}.

(** [verify] always leaves a list of contradictions. *)
Lemma verify_contradictions (conn : option Verifier.connection)
    (e v : gmap string pyval) :
  Verifier.verify conn e = Ok v ->
  exists l, v !! "contradictions" = Some (VList l).
Proof.
  destruct conn as [conn |].
  - intros Hv. apply VerifierFacts.verify_inv in Hv as (out1 & out2 & _ & _ & ->).
    eexists. apply VerifierFacts.finish_contradictions.
  - intros [= <-]. exists []. reflexivity.
Qed.

Lemma prefix_short (n : nat) (s : string) :
  (String.length s <= n)%nat -> Py.prefix n s = s.
Proof.
  unfold Py.prefix. revert n. induction s as [| c s IH]; intros [| n]; cbn; try lia.
  - reflexivity.
  - reflexivity.
  - intros Hn. f_equal. apply IH. lia.
Qed.

End Facts.

Section Runner.
Context `{Builtins} `{Extractor.Chat}.
Variable connect : nat -> option Verifier.connection.

Lemma process_one_eq (i : nat) (email : gmap string pyval) :
  Runner.process_one connect i email
  = match Extractor.extract email with
    | Ok e =>
        match Verifier.verify (connect i) e with
        | Ok v =>
            match Runner.sender_of email with
            | Ok sender =>
                match Scorer.compute_score e v sender with
                | Ok score =>
                    Ok {| Runner.s_email_id := Py.get email "email_id";
                          Runner.s_subject := Py.get email "subject";
                          Runner.s_extraction := e;
                          Runner.s_verification := v;
                          Runner.s_score := score |}
                | Raise x => Raise x
                end
            | Raise x => Raise x
            end
        | Raise x => Raise x
        end
    | Raise x => Raise x
    end.
Proof.
  unfold Runner.process_one.
  destruct (Extractor.extract email) as [e | x]; [| reflexivity]. cbn.
  destruct (Verifier.verify (connect i) e) as [v | x]; [| reflexivity]. cbn.
  destruct (Runner.sender_of email) as [sender | x]; [| reflexivity]. cbn.
  destruct (Scorer.compute_score e v sender); reflexivity.
Qed.

End Runner.
End PipelineFacts.

(** X8. What [extract] returns can always be scored: on either path,
    the chat completion or the patterns, the dict holds exactly the eight
    keys of the extraction and its confidence is a float, so that
    [compute_score] returns for it, for whatever [verify] returned and
    for every sender. In the pipeline the scoring stage never raises. *)
Theorem X8_extraction_can_be_scored `{Builtins} `{Extractor.Chat}
    (email e : gmap string pyval) :
  Extractor.extract email = Ok e ->
  (forall k, is_Some (e !! k) <-> In k Shapes.extraction_keys)
  /\ (exists c, e !! "confidence" = Some (VFloat c))
  /\ (forall conn v sender,
        Verifier.verify conn e = Ok v ->
        is_ok (Scorer.compute_score e v sender) = true).
Proof.
  intros He. apply ExtractorFacts.extract_inv in He as (body & _ & He).
  assert (Hc : exists c, e !! "confidence" = Some (VFloat c)).
  { apply ExtractorFacts.extract_body_inv in He
      as [(r & Hr & ->) | (llm & c & _ & ->)].
    - apply ExtractorFacts.regex_extract_inv in Hr as (a & _ & ->).
      exists 0.6%float. reflexivity.
    - exists c. reflexivity. }
  split; [| split; [exact Hc |]].
  - intros k. unfold Shapes.extraction_keys. cbn [In].
    apply ExtractorFacts.extract_body_inv in He
      as [(r & Hr & ->) | (llm & c & _ & ->)].
    + apply ExtractorFacts.regex_extract_inv in Hr as (a & _ & ->).
      rewrite !lookup_insert_is_Some'.
      pose proof (lookup_empty_is_Some (M := gmap string) (A := pyval) k). tauto.
    + rewrite !lookup_insert_is_Some'.
      pose proof (lookup_empty_is_Some (M := gmap string) (A := pyval) k). tauto.
  - intros conn v sender Hv. destruct Hc as (c & Hc).
    destruct (PipelineFacts.verify_contradictions conn e v Hv) as (l & Hl).
    rewrite ScorerFacts.compute_score_returns.
    unfold Notions.confidence_of, Py.get_or, Py.get. rewrite Hc, Hl.
    cbn [default from_option id]. unfold py_or.
    destruct (truthy (VFloat c)); cbn [py_float is_ok py_iter andb];
      apply orb_true_r.
Qed.

(** X8, a run of the theorem: an email without a key for the chat
    completion. *)
Lemma X8_witness :
  exists e,
    @Extractor.extract Examples.plain_builtins Examples.no_chat
      (<["body" := VStr "Invoice INV-4521 was never received"]> ∅) = Ok e
    /\ e !! "confidence" = Some (VFloat 0.6)
    /\ e !! "claim_type" = Some (VStr "not_received")
    /\ forall sender,
         is_ok (@Scorer.compute_score Examples.plain_builtins e
                  Verifier.defaults sender) = true.
Proof.
  destruct (@Extractor.extract Examples.plain_builtins Examples.no_chat
              (<["body" := VStr "Invoice INV-4521 was never received"]> ∅))
    as [e | x] eqn:He; [| discriminate He].
  destruct (@X8_extraction_can_be_scored Examples.plain_builtins Examples.no_chat
              _ e He) as (_ & _ & Hscore).
  exists e. split; [reflexivity |].
  split; [injection He as <-; reflexivity |].
  split; [injection He as <-; reflexivity |].
  intros sender. exact (Hscore None Verifier.defaults sender eq_refl).
Defined.

(** X9. With no key for the chat completion and the record store out of
    reach, an email that is processed gets the confidence 0.6 of the
    pattern extraction and the verification built at first, and its score
    depends on two facts only: whether the extraction holds an invoice
    number (which, offline, counts as missing from the records) and
    whether the sender is given and outside the trusted domain. The
    score is 0.4, 0.7, 0.55 or 0.85; the action is [HOLD_PAYMENT] when
    both hold and [REQUEST_DOCS] otherwise, never [AUTO_APPROVE]. *)
Theorem X9_offline_pipeline `{Builtins} `{Extractor.Chat}
    (connect : nat -> option Verifier.connection) (i : nat)
    (email : gmap string pyval) (s : Runner.summary) :
  Extractor.api_key_set = false ->
  connect i = None ->
  Runner.process_one connect i email = Ok s ->
  exists sender,
    Runner.sender_of email = Ok sender
    /\ Runner.s_verification s = Verifier.defaults
    /\ Runner.s_extraction s !! "confidence" = Some (VFloat 0.6)
    /\ Runner.s_score s
       = let inv := truthy (Py.get (Runner.s_extraction s) "invoice_number") in
         let out := Shapes.outside_sender sender in
         <["suspicious_score" :=
             VFloat (if inv then if out then 0.85 else 0.7
                     else if out then 0.55 else 0.4)]>
         (<["action" :=
              VStr (if inv && out then "HOLD_PAYMENT" else "REQUEST_DOCS")]>
         (<["reasons" :=
              VList ((if inv then [VStr "invoice_missing_in_sap"] else [])
                     ++ (if out then [VStr "non_standard_sender"] else []))]> ∅)).
Proof.
  intros Hk Hc. rewrite PipelineFacts.process_one_eq, Hc.
  unfold Extractor.extract.
  destruct (Extractor.body_of email) as [body | x]; cbn [mbind res_bind]; [| discriminate].
  rewrite (ExtractorFacts.extract_body_no_key body Hk).
  destruct (Extractor._regex_extract body) as [r | x] eqn:Hr; [| discriminate].
  apply ExtractorFacts.regex_extract_inv in Hr as (a & _ & ->).
  cbn [Verifier.verify mret res_ret].
  destruct (Runner.sender_of email) as [sender | x]; [| discriminate].
  set (e := <["llm_raw" := VNone]> _).
  destruct (Scorer.compute_score e Verifier.defaults sender) as [score | x] eqn:Hs;
    [| discriminate].
  intros [= <-]. cbn [Runner.s_verification Runner.s_extraction Runner.s_score].
  exists sender. split; [reflexivity |]. split; [reflexivity |].
  split; [reflexivity |].
  assert (E1 : Notions.confidence_of e = Ok 0.6%float) by reflexivity.
  assert (E2 : forall st, Scorer.bump_contradictions Verifier.defaults st = Ok st)
    by reflexivity.
  assert (Hb : Scorer.base_and_reasons e Verifier.defaults sender
               = Ok (Scorer.bump_sender sender
                       (Scorer.bump_invoice e Verifier.defaults
                          ((1 - 0.6)%float, []))))
    by (rewrite ScorerFacts.base_and_reasons_eq, E1, E2; reflexivity).
  apply ScorerFacts.compute_score_ok in Hb. rewrite Hb in Hs. injection Hs as <-.
  cbv zeta. unfold Scorer.bump_invoice, Scorer.bump_sender.
  change (Py.get Verifier.defaults "invoice_exists") with (VBool false).
  cbn [truthy negb]. rewrite andb_true_r.
  change (negb (String.eqb sender "") && negb (Scorer.trusted_sender sender))
    with (Shapes.outside_sender sender).
  destruct (truthy (Py.get e "invoice_number"));
    destruct (Shapes.outside_sender sender); reflexivity.
Qed.

(** X9, a run of the theorem: an email from outside that names an
    invoice is held. *)
Lemma X9_witness :
  let email : gmap string pyval :=
    <["from" := VStr "eve@example.org"]>
    (<["body" := VStr "Please pay invoice INV-4521 today"]> ∅) in
  exists s,
    @Runner.process_one Examples.plain_builtins Examples.no_chat
      (fun _ => None) 0 email = Ok s
    /\ Runner.s_score s !! "suspicious_score" = Some (VFloat 0.85)
    /\ Runner.s_score s !! "action" = Some (VStr "HOLD_PAYMENT").
Proof.
  intros email.
  destruct (@Runner.process_one Examples.plain_builtins Examples.no_chat
              (fun _ => None) 0 email) as [s | x] eqn:Hs; [| discriminate Hs].
  destruct (@X9_offline_pipeline Examples.plain_builtins Examples.no_chat
              (fun _ => None) 0%nat email s eq_refl eq_refl Hs)
    as (sender & Hsender & _ & _ & Hscore).
  exists s. split; [reflexivity |].
  injection Hsender as <-. rewrite Hscore.
  injection Hs as <-. split; reflexivity.
Defined.

(** X10. The claim text of the pattern extraction is the body stripped
    of surrounding white space, with every line feed replaced by a space,
    cut after 300 characters: it has at most 300 characters, holds no
    line feed and does not begin with white space, and a stripped body of
    at most 300 characters is kept whole. *)
Theorem X10_claim_text_bounded `{Builtins}
    (body : string) (r : gmap string pyval) :
  Extractor._regex_extract body = Ok r ->
  exists t,
    r !! "claim_text" = Some (VStr t)
    /\ (String.length t <= 300)%nat
    /\ Shapes.occurs (ascii_of_nat 10) t = false
    /\ Shapes.starts_black t
    /\ ((String.length (strip body) <= 300)%nat ->
          t = replace_char (ascii_of_nat 10) " " (strip body)).
Proof.
  intros Hr. apply ExtractorFacts.regex_extract_inv in Hr as (a & _ & ->).
  eexists. split; [reflexivity |].
  split; [apply ExtractorFacts.length_prefix |].
  split; [apply ExtractorFacts.occurs_prefix, ExtractorFacts.occurs_replace_char;
          reflexivity |].
  split.
  - apply ExtractorFacts.starts_black_prefix, ExtractorFacts.starts_black_replace_lf,
      ExtractorFacts.strip_black.
  - intros Hlen. apply PipelineFacts.prefix_short.
    rewrite ExtractorFacts.length_replace_char1. exact Hlen.
Qed.

(** X10, a run of the theorem on a body of two lines. *)
Lemma X10_witness :
  exists r t,
    @Extractor._regex_extract Examples.plain_builtins
      (String.append "  goods short" (String.append EmailParser.nl "by two boxes "))
    = Ok r
    /\ r !! "claim_text" = Some (VStr t)
    /\ t = "goods short by two boxes".
Proof.
  destruct (@Extractor._regex_extract Examples.plain_builtins
      (String.append "  goods short" (String.append EmailParser.nl "by two boxes ")))
    as [r | x] eqn:Hr; [| discriminate Hr].
  destruct (@X10_claim_text_bounded Examples.plain_builtins _ r Hr)
    as (t & Ht & _ & _ & _ & Hshort).
  exists r, t. split; [reflexivity |]. split; [exact Ht |].
  rewrite Hshort; [reflexivity | vm_compute; lia].
Defined.

Module CacheFacts.
Import EmailParser.
Import Notions Examples Shapes.

Section Facts.
Context `{Builtins} `{Provider}.

(** The results of the two paths that ask no provider carry no
    ["_meta"]. *)
Lemma regex_result_meta (text : string) (x : pyval) :
  (<["issue_summary" := x]> (regex_result text)) !! "_meta" = None.
Proof. reflexivity. Qed.

Lemma extract_structured_quick (subject body : string) (flag : bool)
    (model : string) (cache_path : option string) (w : world) :
  found_both subject body = true \/ flag = false ->
  exists x,
    extract_structured subject body flag model cache_path w
    = (Ok (<["issue_summary" := x]> (regex_result (text_of subject body))), w).
Proof.
  unfold found_both, text_of, extract_structured. cbv zeta.
  destruct (truthy _ && truthy _); [intros _; eexists; reflexivity |].
  intros [Hf | ->]; [discriminate |]. eexists. reflexivity.
Qed.

(** On the quick paths the world plays no part. *)
Lemma extract_structured_quick_world (subject body : string) (flag : bool)
    (model : string) (cache_path : option string) (w w2 : world)
    (d : gmap string pyval) (w1 : world) :
  found_both subject body = true \/ flag = false ->
  extract_structured subject body flag model cache_path w = (Ok d, w1) ->
  extract_structured subject body flag model cache_path w2 = (Ok d, w2).
Proof.
  unfold found_both, text_of, extract_structured. cbv zeta.
  destruct (truthy _ && truthy _).
  - intros _. unfold mret, io_ret. intros [= <- _]. reflexivity.
  - intros [Hf | ->]; [discriminate |]. cbn [negb].
    unfold mret, io_ret. intros [= <- _]. reflexivity.
Qed.

(** The summary of the quick paths depends on the text only. *)
Lemma extract_structured_quick_text (s1 b1 s2 b2 : string) (flag : bool)
    (model : string) (cache_path : option string) (w : world) :
  text_of s1 b1 = text_of s2 b2 ->
  found_both s1 b1 = true \/ flag = false ->
  extract_structured s1 b1 flag model cache_path w
  = extract_structured s2 b2 flag model cache_path w.
Proof.
  unfold found_both, text_of, extract_structured. cbv zeta. intros ->.
  destruct (truthy _ && truthy _); [reflexivity |].
  intros [Hf | ->]; [discriminate | reflexivity].
Qed.

Lemma complete_ok (subject body : string) (cache_file : option string)
    (t : string) (oc : pyval * gmap string pyval) (d : gmap string pyval) :
  complete subject body cache_file t oc = Ok d ->
  exists merged,
    merge oc.1 (regex_result (text_of subject body)) = Ok merged
    /\ d = <["_meta" := meta t
               match cache_file with
               | Some _ => negb (bool_decide (is_Some (oc.2 !! _make_key subject body)))
               | None => true
               end]>
           (if negb (truthy (Py.get (coerce_amounts merged) "issue_summary"))
            then <["issue_summary" := VStr "Merged regex + LLM extraction"]>
                   (coerce_amounts merged)
            else coerce_amounts merged).
Proof.
  unfold complete. destruct (merge oc.1 _) as [merged | e]; [| discriminate].
  cbv zeta. intros [= <-]. eauto.
Qed.

(** The three ways in which [extract_structured] goes: it answers from
    the patterns alone, or it fails to obtain the provider's output, or
    it completes that output. *)
Lemma extract_structured_cases (subject body : string) (flag : bool)
    (model : string) (cache_path : option string) (w : world) :
  ((found_both subject body = true \/ flag = false)
   /\ exists x,
        extract_structured subject body flag model cache_path w
        = (Ok (<["issue_summary" := x]> (regex_result (text_of subject body))), w))
  \/ (found_both subject body = false /\ flag = true
      /\ exists e w',
           obtain subject body model (cache_file_of cache_path) w = (Raise e, w')
           /\ extract_structured subject body flag model cache_path w = (Raise e, w'))
  \/ (found_both subject body = false /\ flag = true
      /\ exists oc w',
           obtain subject body model (cache_file_of cache_path) w = (Ok oc, w')
           /\ extract_structured subject body flag model cache_path w
              = (complete subject body (cache_file_of cache_path) (now w') oc, w')).
Proof.
  destruct (found_both subject body) eqn:Hf.
  { left. split; [auto |]. apply extract_structured_quick. auto. }
  destruct flag.
  2:{ left. split; [auto |]. apply extract_structured_quick. auto. }
  right. rewrite (NormalizerFacts.extract_structured_llm subject body model cache_path w Hf).
  destruct (obtain subject body model (cache_file_of cache_path) w) as [[oc | e] w'].
  - right. repeat split. eauto.
  - left. repeat split. eauto.
Qed.

(** What [obtain] leaves in the world. *)
Lemma obtain_world (subject body model : string) (cache_file : option string)
    (w : world) :
  let r := obtain subject body model cache_file w in
  now r.2 = now w
  /\ written r.2 = written w
  /\ (llm_calls r.2 = llm_calls w
      \/ llm_calls r.2 = llm_calls w ++ [USER_PROMPT subject body])
  /\ (forall q, cache_file <> Some q -> fs r.2 !! q = fs w !! q)
  /\ (forall key v, cache_of cache_file w !! key = Some v ->
        cache_of cache_file r.2 !! key = Some v).
Proof.
  cbv zeta. rewrite NormalizerFacts.obtain_eq. cbv zeta.
  destruct (cache_of cache_file w !! _make_key subject body) as [v |] eqn:Ek.
  { cbn [fst snd]. repeat split; auto. }
  destruct (llm_reply _ _ _) as [raw | e].
  2:{ cbn [fst snd called now written llm_calls fs]. repeat split; auto. }
  destruct (decode_reply raw) as [out |].
  2:{ cbn [fst snd called now written llm_calls fs]. repeat split; auto. }
  destruct cache_file as [p |];
    cbn [fst snd called saved now written llm_calls fs]; repeat split; auto.
  - intros q Hq. apply lookup_insert_ne. congruence.
  - intros key v. unfold cache_of, saved, called. cbn [fs]. rewrite lookup_insert_eq. cbn.
    intros Hv. rewrite lookup_insert_ne; [exact Hv |].
    intros Heq. rewrite <- Heq in Hv. unfold cache_of in Ek. congruence.
Qed.

(** When [obtain] returns with a cache file, the file then holds what it
    returned, under the content key. *)
Lemma obtain_cached (subject body model p : string) (w w' : world)
    (oc : pyval * gmap string pyval) :
  obtain subject body model (Some p) w = (Ok oc, w') ->
  default ∅ (fs w' !! p) = oc.2
  /\ oc.2 !! _make_key subject body = Some oc.1.
Proof.
  rewrite NormalizerFacts.obtain_eq. cbv zeta. unfold cache_of.
  destruct (default ∅ (fs w !! p) !! _make_key subject body) as [v |] eqn:Ek.
  { intros [= <- <-]. cbn [fst snd]. auto. }
  destruct (llm_reply _ _ _) as [raw | e]; [| discriminate].
  destruct (decode_reply raw) as [out |]; [| discriminate].
  intros [= <- <-]. cbn [fst snd saved fs]. rewrite !lookup_insert_eq. auto.
Qed.

(** A cache file that holds the key answers for the provider. *)
Lemma obtain_hit (subject body model p : string) (w : world) (v : pyval) :
  default ∅ (fs w !! p) !! _make_key subject body = Some v ->
  obtain subject body model (Some p) w = (Ok (v, default ∅ (fs w !! p)), w).
Proof.
  intros Hk. rewrite NormalizerFacts.obtain_eq. cbv zeta. unfold cache_of.
  rewrite Hk. reflexivity.
Qed.

(** *** The merge of the provider's output *)

Lemma merge_key_other (llm_out : pyval) (result r : gmap string pyval)
    (k k' : string) :
  merge_key llm_out result k = Ok r -> k <> k' -> r !! k' = result !! k'.
Proof.
  unfold merge_key. intros Hr Hk.
  destruct (none_or_empty (Py.get result k)); [| injection Hr as <-; reflexivity].
  destruct (dict_get llm_out k) as [v | e]; [| discriminate]. cbn in Hr.
  injection Hr as <-. destruct (negb (is_none v)); [| reflexivity].
  apply lookup_insert_ne, Hk.
Qed.

Lemma merge_key_keep (llm_out : pyval) (result r : gmap string pyval)
    (k k' : string) :
  merge_key llm_out result k = Ok r ->
  none_or_empty (Py.get result k') = false -> r !! k' = result !! k'.
Proof.
  intros Hr Hk'. destruct (String.eqb_spec k k') as [<- | Hne].
  - unfold merge_key in Hr. rewrite Hk' in Hr. injection Hr as <-. reflexivity.
  - exact (merge_key_other _ _ _ _ _ Hr Hne).
Qed.

Lemma merge_key_fill (llm_out : pyval) (result r : gmap string pyval)
    (k : string) (v : pyval) :
  merge_key llm_out result k = Ok r ->
  none_or_empty (Py.get result k) = true ->
  dict_get llm_out k = Ok v -> v <> VNone -> r !! k = Some v.
Proof.
  unfold merge_key. intros Hr He Hv Hn. rewrite He, Hv in Hr. cbn in Hr.
  injection Hr as <-. destruct v; try contradiction; apply lookup_insert_eq.
Qed.

Lemma merge_fold_raise (llm_out : pyval) (e : pyexn) (ks : list string) :
  foldl (fun acc k => r ← acc; merge_key llm_out r k) (Raise e) ks = Raise e.
Proof. induction ks as [| k ks IH]; [reflexivity | exact IH]. Qed.

Lemma merge_fold_cons (llm_out : pyval) (acc merged : gmap string pyval)
    (k : string) (ks : list string) :
  foldl (fun acc k => r ← acc; merge_key llm_out r k) (Ok acc) (k :: ks) = Ok merged ->
  exists r,
    merge_key llm_out acc k = Ok r
    /\ foldl (fun acc k => r ← acc; merge_key llm_out r k) (Ok r) ks = Ok merged.
Proof.
  cbn [foldl]. change (Ok acc ≫= (fun r => merge_key llm_out r k))
    with (merge_key llm_out acc k).
  destruct (merge_key llm_out acc k) as [r | e]; [eauto |].
  rewrite merge_fold_raise. discriminate.
Qed.

Lemma get_lookup (m1 m2 : gmap string pyval) (k : string) :
  m1 !! k = m2 !! k -> Py.get m1 k = Py.get m2 k.
Proof. unfold Py.get. intros ->. reflexivity. Qed.

Lemma merge_fold_keep (llm_out : pyval) (ks : list string)
    (acc merged : gmap string pyval) (k' : string) :
  foldl (fun acc k => r ← acc; merge_key llm_out r k) (Ok acc) ks = Ok merged ->
  none_or_empty (Py.get acc k') = false -> merged !! k' = acc !! k'.
Proof.
  revert acc. induction ks as [| k ks IH]; intros acc Hm Hk'.
  - injection Hm as <-. reflexivity.
  - apply merge_fold_cons in Hm as (r & Hr & Hm).
    pose proof (merge_key_keep _ _ _ _ _ Hr Hk') as E.
    rewrite (IH r Hm); [exact E |].
    rewrite (get_lookup _ _ _ E). exact Hk'.
Qed.

Lemma merge_fold_other (llm_out : pyval) (ks : list string)
    (acc merged : gmap string pyval) (k' : string) :
  foldl (fun acc k => r ← acc; merge_key llm_out r k) (Ok acc) ks = Ok merged ->
  ~ In k' ks -> merged !! k' = acc !! k'.
Proof.
  revert acc. induction ks as [| k ks IH]; intros acc Hm Hk'.
  - injection Hm as <-. reflexivity.
  - apply merge_fold_cons in Hm as (r & Hr & Hm).
    rewrite (IH r Hm) by (intros Hin; apply Hk'; right; exact Hin).
    apply (merge_key_other _ _ _ _ _ Hr). intros ->. apply Hk'. left. reflexivity.
Qed.

Lemma merge_fold_fill (llm_out : pyval) (pre post : list string)
    (acc merged : gmap string pyval) (k : string) (v : pyval) :
  foldl (fun acc k => r ← acc; merge_key llm_out r k) (Ok acc) (pre ++ k :: post)
  = Ok merged ->
  ~ In k pre -> ~ In k post ->
  none_or_empty (Py.get acc k) = true ->
  dict_get llm_out k = Ok v -> v <> VNone -> merged !! k = Some v.
Proof.
  revert acc. induction pre as [| k0 pre IH]; intros acc Hm Hpre Hpost Hk Hv Hn.
  - cbn [app] in Hm. apply merge_fold_cons in Hm as (r & Hr & Hm).
    rewrite (merge_fold_other _ _ _ _ _ Hm Hpost).
    exact (merge_key_fill _ _ _ _ _ Hr Hk Hv Hn).
  - rewrite <- app_comm_cons in Hm. apply merge_fold_cons in Hm as (r & Hr & Hm).
    apply (IH r Hm); auto.
    + intros Hin. apply Hpre. right. exact Hin.
    + rewrite (get_lookup r acc k); [exact Hk |].
      apply (merge_key_other _ _ _ _ _ Hr). intros ->. apply Hpre. left. reflexivity.
Qed.

Lemma coerce_amounts_other (m : gmap string pyval) (k : string) :
  ~ In k amount_keys -> coerce_amounts m !! k = m !! k.
Proof.
  intros Hk. unfold coerce_amounts. cbn [foldl].
  rewrite !lookup_insert_ne; [reflexivity | |];
    intros <-; apply Hk; cbn; auto.
Qed.

Lemma coerce_amounts_amount (m : gmap string pyval) (k : string) :
  In k amount_keys -> coerce_amounts m !! k = Some (coerce_amount (Py.get m k)).
Proof.
  unfold coerce_amounts. cbn [foldl]. intros [<- | [<- | []]].
  - rewrite lookup_insert_ne by discriminate. apply lookup_insert_eq.
  - rewrite lookup_insert_eq. f_equal. f_equal.
    unfold Py.get. rewrite lookup_insert_ne by discriminate. reflexivity.
Qed.

(** The value found by the patterns for an amount is a float or
    [None]. *)
Lemma regex_amount (text : string) (k : string) :
  In k amount_keys ->
  none_or_empty (Py.get (regex_result text) k) = false ->
  exists f, regex_result text !! k = Some (VFloat f).
Proof.
  unfold regex_result. cbv zeta.
  intros [<- | [<- | []]].
  - change (Py.get _ "invoice_amount")
      with (opt_float (head (extract_amounts_regex text))).
    change ((_ : gmap string pyval) !! "invoice_amount")
      with (Some (opt_float (head (extract_amounts_regex text)))).
    destruct (head _) as [f |]; [eauto | discriminate].
  - change (Py.get _ "po_amount")
      with (opt_float (head (tail (extract_amounts_regex text)))).
    change ((_ : gmap string pyval) !! "po_amount")
      with (Some (opt_float (head (tail (extract_amounts_regex text))))).
    destruct (head _) as [f |]; [eauto | discriminate].
Qed.

(** The entries of a completed result. *)
Lemma complete_lookup (subject body : string) (cache_file : option string)
    (t : string) (oc : pyval * gmap string pyval) (d : gmap string pyval)
    (k : string) :
  complete subject body cache_file t oc = Ok d ->
  k <> "issue_summary" -> k <> "_meta" ->
  exists merged,
    merge oc.1 (regex_result (text_of subject body)) = Ok merged
    /\ d !! k = coerce_amounts merged !! k.
Proof.
  intros Hd Hk1 Hk2. apply complete_ok in Hd as (merged & Hm & ->).
  exists merged. split; [exact Hm |].
  rewrite lookup_insert_ne by congruence.
  destruct (negb _); [| reflexivity].
  apply lookup_insert_ne. congruence.
Qed.

End Facts.
End CacheFacts.

(** X11. The ["used_llm"] entry of ["_meta"] tells whether a cache path
    was given, not whether the provider was called: the key is looked up
    in the cache after the provider's output has been put there, so with
    a cache path the entry is false also for a call that has just asked
    the provider, and without one it is true. ["extracted_at"] is the
    clock reading of the call. *)
Theorem X11_used_llm_flag `{Builtins} `{Provider}
    (subject body : string) (flag : bool) (model : string)
    (cache_path : option string) (w : world) (d : gmap string pyval)
    (m : pyval) :
  (EmailParser.extract_structured subject body flag model cache_path w).1 = Ok d ->
  d !! "_meta" = Some m ->
  m = EmailParser.meta (now w)
        match EmailParser.cache_file_of cache_path with
        | Some _ => false
        | None => true
        end.
Proof.
  intros Hd Hm.
  destruct (CacheFacts.extract_structured_cases subject body flag model cache_path w)
    as [(_ & x & E) | [(_ & _ & e & w' & _ & E) | (_ & _ & oc & w' & Ho & E)]];
    rewrite E in Hd; cbn [fst] in Hd.
  - injection Hd as <-. rewrite CacheFacts.regex_result_meta in Hm. discriminate.
  - discriminate.
  - apply CacheFacts.complete_ok in Hd as (merged & _ & ->).
    rewrite lookup_insert_eq in Hm. injection Hm as <-.
    pose proof (CacheFacts.obtain_world subject body model
                  (EmailParser.cache_file_of cache_path) w) as (Hnow & _).
    rewrite Ho in Hnow. cbn [snd] in Hnow. rewrite Hnow.
    destruct (EmailParser.cache_file_of cache_path) as [p |]; [| reflexivity].
    apply CacheFacts.obtain_cached in Ho as (_ & Hk). rewrite Hk.
    rewrite bool_decide_eq_true_2 by eauto. reflexivity.
Qed.

(** X11, a run of the theorem: the provider is called, its output is
    cached, and ["used_llm"] is false. *)
Lemma X11_witness :
  let r := @EmailParser.extract_structured Examples.plain_builtins
             Examples.replying_provider "Claim" "goods never arrived"
             true "gpt-4o" (Some "cache.json") (Examples.fresh_world "t0") in
  exists d,
    r.1 = Ok d
    /\ length (llm_calls r.2) = 1%nat
    /\ d !! "_meta" = Some (EmailParser.meta "t0" false).
Proof.
  cbv zeta.
  assert (Hcalls : length (llm_calls
            (@EmailParser.extract_structured Examples.plain_builtins
               Examples.replying_provider "Claim" "goods never arrived"
               true "gpt-4o" (Some "cache.json") (Examples.fresh_world "t0")).2)
          = 1%nat) by (vm_compute; reflexivity).
  assert (Hmeta : match (@EmailParser.extract_structured Examples.plain_builtins
               Examples.replying_provider "Claim" "goods never arrived"
               true "gpt-4o" (Some "cache.json") (Examples.fresh_world "t0")).1
                  with
                  | Ok d => is_Some (d !! "_meta")
                  | Raise _ => False
                  end) by (vm_compute; eexists; reflexivity).
  destruct (@EmailParser.extract_structured Examples.plain_builtins
              Examples.replying_provider "Claim" "goods never arrived"
              true "gpt-4o" (Some "cache.json") (Examples.fresh_world "t0"))
    as [[d | x] w'] eqn:E; [| contradiction Hmeta].
  cbn [fst snd] in Hcalls, Hmeta. destruct Hmeta as [m Hm].
  pose proof (@X11_used_llm_flag Examples.plain_builtins Examples.replying_provider
                "Claim" "goods never arrived" true "gpt-4o" (Some "cache.json")
                (Examples.fresh_world "t0") d m) as Hflag.
  rewrite E in Hflag. specialize (Hflag eq_refl Hm).
  exists d. split; [reflexivity |]. split; [exact Hcalls |].
  rewrite Hm, Hflag. reflexivity.
Defined.

(** X12. With a cache path, a call that returns leaves the cache file
    such that the same call, made again while the file is as it was
    left, asks no provider and changes nothing, and returns a result
    that agrees with the first on every key but ["_meta"] (and on that
    too when the clock reads the same). *)
Theorem X12_second_call_is_cached `{Builtins} `{Provider}
    (subject body : string) (flag : bool) (model : string)
    (cache_path : option string) (p : string) (w w1 w2 : world)
    (d : gmap string pyval) :
  EmailParser.cache_file_of cache_path = Some p ->
  EmailParser.extract_structured subject body flag model cache_path w = (Ok d, w1) ->
  fs w2 !! p = fs w1 !! p ->
  exists d2,
    EmailParser.extract_structured subject body flag model cache_path w2
    = (Ok d2, w2)
    /\ (forall k, k <> "_meta" -> d2 !! k = d !! k)
    /\ (now w2 = now w -> d2 = d).
Proof.
  intros Hc Hd Hfs.
  destruct (CacheFacts.extract_structured_cases subject body flag model cache_path w)
    as [(Hq & x & E) | [(_ & _ & e & w' & _ & E) | (Hf & -> & oc & w' & Ho & E)]].
  - exists d. split; [| split; reflexivity].
    exact (CacheFacts.extract_structured_quick_world subject body flag model
             cache_path w w2 d w1 Hq Hd).
  - rewrite E in Hd. discriminate.
  - rewrite E in Hd. injection Hd as Hd <-. rewrite Hc in Ho, Hd.
    pose proof (CacheFacts.obtain_world subject body model (Some p) w) as (Hnow & _).
    rewrite Ho in Hnow. cbn [snd] in Hnow.
    destruct (CacheFacts.obtain_cached _ _ _ _ _ _ _ Ho) as (Hcache & Hk).
    assert (Hk2 : default ∅ (fs w2 !! p) !! EmailParser._make_key subject body
                  = Some oc.1) by (rewrite Hfs, Hcache; exact Hk).
    rewrite (NormalizerFacts.extract_structured_llm _ _ _ _ _ Hf), Hc.
    rewrite (CacheFacts.obtain_hit _ _ _ _ _ _ Hk2), Hfs, Hcache.
    replace (oc.1, oc.2) with oc by (destruct oc; reflexivity).
    pose proof (NormalizerFacts.complete_status subject body (Some p) (now w2) (now w')
                  oc) as Hst.
    rewrite Hd in Hst.
    destruct (Notions.complete subject body (Some p) (now w2) oc) as [d2 | e2];
      [| contradiction].
    destruct Hst as (core & used & -> & ->).
    eexists. split; [reflexivity |]. split.
    + intros k Hk'. rewrite !lookup_insert_ne by congruence. reflexivity.
    + intros Ht. rewrite Ht, Hnow. reflexivity.
Qed.

(** X12, a run of the theorem: the first call asks the provider and
    fills the cache file; the second asks nobody. *)
Lemma X12_witness :
  let call := @EmailParser.extract_structured Examples.plain_builtins
                Examples.replying_provider "Claim" "goods never arrived"
                true "gpt-4o" (Some "cache.json") in
  exists d w1,
    call (Examples.fresh_world "t0") = (Ok d, w1)
    /\ length (llm_calls w1) = 1%nat
    /\ call w1 = (Ok d, w1).
Proof.
  cbv zeta.
  assert (Hfacts :
            let r := @EmailParser.extract_structured Examples.plain_builtins
                       Examples.replying_provider "Claim" "goods never arrived"
                       true "gpt-4o" (Some "cache.json")
                       (Examples.fresh_world "t0") in
            is_ok r.1 = true /\ length (llm_calls r.2) = 1%nat /\ now r.2 = "t0")
    by (vm_compute; auto).
  cbv zeta in Hfacts.
  destruct (@EmailParser.extract_structured Examples.plain_builtins
              Examples.replying_provider "Claim" "goods never arrived"
              true "gpt-4o" (Some "cache.json") (Examples.fresh_world "t0"))
    as [[d | x] w1] eqn:E; cbn [fst snd is_ok] in Hfacts;
    [| destruct Hfacts as [Hfalse _]; discriminate Hfalse].
  destruct Hfacts as (_ & Hcalls & Hnow).
  assert (Hc : EmailParser.cache_file_of (Some "cache.json") = Some "cache.json")
    by reflexivity.
  destruct (@X12_second_call_is_cached Examples.plain_builtins
              Examples.replying_provider "Claim" "goods never arrived"
              true "gpt-4o" (Some "cache.json") "cache.json"
              (Examples.fresh_world "t0") w1 w1 d Hc E eq_refl)
    as (d2 & E2 & _ & Hsame).
  rewrite (Hsame Hnow) in E2.
  exists d, w1. split; [reflexivity |]. split; [exact Hcalls | exact E2].
Defined.

(** X13. The patterns come before the provider. What the pattern pass
    found for the invoice number, the PO number and the two amounts is
    what the result holds, whatever the provider or the cache says; and
    where the patterns found nothing, a value of the provider's output
    that is not [None] is taken: as it is for the invoice number, the PO
    number and the supplier name, and converted to a float (or [None]
    when it does not convert) for the amounts. *)
Theorem X13_patterns_before_provider `{Builtins} `{Provider}
    (subject body : string) (flag : bool) (model : string)
    (cache_path : option string) (w : world) (d : gmap string pyval) :
  (EmailParser.extract_structured subject body flag model cache_path w).1 = Ok d ->
  let found := EmailParser.regex_result (Notions.text_of subject body) in
  (forall k, In k Shapes.pattern_keys ->
     EmailParser.none_or_empty (Py.get found k) = false -> d !! k = found !! k)
  /\ (forall oc w' k v,
        Notions.found_both subject body = false -> flag = true ->
        EmailParser.obtain subject body model
          (EmailParser.cache_file_of cache_path) w = (Ok oc, w') ->
        EmailParser.none_or_empty (Py.get found k) = true ->
        EmailParser.dict_get oc.1 k = Ok v -> v <> VNone ->
        (In k Shapes.text_keys -> d !! k = Some v)
        /\ (In k Shapes.amount_keys ->
              d !! k = Some (EmailParser.coerce_amount v))).
Proof.
  intros Hd. cbv zeta. split.
  - intros k Hk Hfound.
    assert (Hk1 : k <> "issue_summary")
      by (intros ->; cbn in Hk; intuition discriminate).
    assert (Hk2 : k <> "_meta") by (intros ->; cbn in Hk; intuition discriminate).
    destruct (CacheFacts.extract_structured_cases subject body flag model cache_path w)
      as [(_ & x & E) | [(_ & _ & e & w' & _ & E) | (_ & _ & oc & w' & _ & E)]];
      rewrite E in Hd; cbn [fst] in Hd.
    + injection Hd as <-. apply lookup_insert_ne. congruence.
    + discriminate.
    + destruct (CacheFacts.complete_lookup _ _ _ _ _ _ k Hd Hk1 Hk2)
        as (merged & Hm & ->).
      pose proof (CacheFacts.merge_fold_keep _ _ _ _ k Hm Hfound) as Hkeep.
      destruct (in_dec string_dec k Shapes.amount_keys) as [Ha | Ha].
      * rewrite (CacheFacts.coerce_amounts_amount _ _ Ha).
        destruct (CacheFacts.regex_amount _ _ Ha Hfound) as (f & Hf).
        unfold Py.get. rewrite Hkeep, Hf. reflexivity.
      * rewrite (CacheFacts.coerce_amounts_other _ _ Ha). exact Hkeep.
  - intros oc w' k v Hf -> Ho Hempty Hv Hn.
    rewrite (NormalizerFacts.extract_structured_llm _ _ _ _ _ Hf), Ho in Hd.
    cbn [fst] in Hd.
    assert (Hfill : forall pre post,
              EmailParser.merge_keys = pre ++ k :: post ->
              ~ In k pre -> ~ In k post ->
              forall merged,
                EmailParser.merge oc.1
                  (EmailParser.regex_result (Notions.text_of subject body))
                = Ok merged ->
                merged !! k = Some v).
    { intros pre post Hsplit Hpre Hpost merged Hm.
      unfold EmailParser.merge in Hm. rewrite Hsplit in Hm.
      exact (CacheFacts.merge_fold_fill _ _ _ _ _ _ _ Hm Hpre Hpost Hempty Hv Hn). }
    split.
    + intros Hk.
      assert (Hk1 : k <> "issue_summary")
        by (intros ->; cbn in Hk; intuition discriminate).
      assert (Hk2 : k <> "_meta") by (intros ->; cbn in Hk; intuition discriminate).
      destruct (CacheFacts.complete_lookup _ _ _ _ _ _ k Hd Hk1 Hk2)
        as (merged & Hm & ->).
      rewrite CacheFacts.coerce_amounts_other
        by (cbn in Hk |- *; intuition (subst; discriminate)).
      destruct Hk as [<- | [<- | [<- | []]]].
      * apply (Hfill [] ["po_number"; "invoice_amount"; "po_amount";
                         "supplier_name"; "issue_summary"]);
          [reflexivity | cbn; tauto | cbn; intuition discriminate | exact Hm].
      * apply (Hfill ["invoice_number"] ["invoice_amount"; "po_amount";
                                          "supplier_name"; "issue_summary"]);
          [reflexivity | cbn; intuition discriminate
           | cbn; intuition discriminate | exact Hm].
      * apply (Hfill ["invoice_number"; "po_number"; "invoice_amount"; "po_amount"]
                     ["issue_summary"]);
          [reflexivity | cbn; intuition discriminate
           | cbn; intuition discriminate | exact Hm].
    + intros Hk.
      assert (Hk1 : k <> "issue_summary")
        by (intros ->; cbn in Hk; intuition discriminate).
      assert (Hk2 : k <> "_meta") by (intros ->; cbn in Hk; intuition discriminate).
      destruct (CacheFacts.complete_lookup _ _ _ _ _ _ k Hd Hk1 Hk2)
        as (merged & Hm & ->).
      rewrite (CacheFacts.coerce_amounts_amount _ _ Hk). f_equal. f_equal.
      unfold Py.get.
      destruct Hk as [<- | [<- | []]].
      * rewrite (Hfill ["invoice_number"; "po_number"]
                       ["po_amount"; "supplier_name"; "issue_summary"]);
          [reflexivity | reflexivity | cbn; intuition discriminate
           | cbn; intuition discriminate | exact Hm].
      * rewrite (Hfill ["invoice_number"; "po_number"; "invoice_amount"]
                       ["supplier_name"; "issue_summary"]);
          [reflexivity | reflexivity | cbn; intuition discriminate
           | cbn; intuition discriminate | exact Hm].
Qed.

(** X13, a run of the theorem: the patterns find an invoice number, the
    provider names another one and a supplier; the invoice number of the
    patterns stays and the supplier is taken. *)
Lemma X13_witness :
  let r := @EmailParser.extract_structured Examples.plain_builtins
             Inputs.naming_provider "Claim" "INV-4521 is short"
             true "gpt-4o" None (Examples.fresh_world "t0") in
  exists d,
    r.1 = Ok d
    /\ d !! "invoice_number" = Some (VStr "INV-4521")
    /\ d !! "supplier_name" = Some (VStr "ACME").
Proof.
  cbv zeta.
  destruct (@EmailParser.extract_structured Examples.plain_builtins
              Inputs.naming_provider "Claim" "INV-4521 is short"
              true "gpt-4o" None (Examples.fresh_world "t0"))
    as [[d | x] w'] eqn:E; [| discriminate E].
  pose proof (@X13_patterns_before_provider Examples.plain_builtins
                Inputs.naming_provider "Claim" "INV-4521 is short"
                true "gpt-4o" None (Examples.fresh_world "t0") d) as HX.
  rewrite E in HX. destruct (HX eq_refl) as [Hwin Hfill].
  exists d. split; [reflexivity |]. split.
  - rewrite (Hwin "invoice_number"); [reflexivity | left; reflexivity | reflexivity].
  - destruct (@EmailParser.obtain Examples.plain_builtins Inputs.naming_provider
                "Claim" "INV-4521 is short" "gpt-4o"
                (EmailParser.cache_file_of None) (Examples.fresh_world "t0"))
      as [[oc | x] w1] eqn:Ho; [| discriminate Ho].
    assert (Hv : EmailParser.dict_get oc.1 "supplier_name" = Ok (VStr "ACME"))
      by (injection Ho as <- _; reflexivity).
    destruct (Hfill oc w1 "supplier_name" (VStr "ACME") eq_refl eq_refl eq_refl
                eq_refl Hv ltac:(discriminate)) as [Htext _].
    apply Htext. right. right. left. reflexivity.
Defined.

(** X14. [extract_structured] reads its subject and body through their
    concatenation [subject + "\n" + body] only, except for the prompt it
    sends: two pairs with the same concatenation have the same content
    key, and get the same answer whenever no provider is asked (both
    numbers found by the patterns, the provider disabled, or the key in
    the cache); so they share their cache entry. *)
Theorem X14_same_text_same_answer `{Builtins} `{Provider}
    (s1 b1 s2 b2 : string) (flag : bool) (model : string)
    (cache_path : option string) (w : world) :
  Notions.text_of s1 b1 = Notions.text_of s2 b2 ->
  EmailParser._make_key s1 b1 = EmailParser._make_key s2 b2
  /\ (Notions.found_both s1 b1 = true \/ flag = false
      \/ is_Some (Notions.cache_of (EmailParser.cache_file_of cache_path) w
                    !! EmailParser._make_key s1 b1) ->
      EmailParser.extract_structured s1 b1 flag model cache_path w
      = EmailParser.extract_structured s2 b2 flag model cache_path w).
Proof.
  intros Ht.
  assert (Hkey : EmailParser._make_key s1 b1 = EmailParser._make_key s2 b2).
  { unfold EmailParser._make_key. unfold Notions.text_of in Ht. rewrite Ht.
    reflexivity. }
  split; [exact Hkey |].
  intros Hq.
  destruct (Notions.found_both s1 b1) eqn:Hf.
  { apply CacheFacts.extract_structured_quick_text; auto. }
  destruct flag.
  2:{ apply CacheFacts.extract_structured_quick_text; auto. }
  destruct Hq as [Hq | [Hq | [v Hv]]]; try discriminate.
  assert (Hf2 : Notions.found_both s2 b2 = false)
    by (unfold Notions.found_both in *; rewrite <- Ht; exact Hf).
  rewrite (NormalizerFacts.extract_structured_llm _ _ _ _ _ Hf).
  rewrite (NormalizerFacts.extract_structured_llm _ _ _ _ _ Hf2).
  unfold Notions.cache_of in Hv.
  destruct (EmailParser.cache_file_of cache_path) as [p |];
    [| rewrite lookup_empty in Hv; discriminate].
  rewrite (CacheFacts.obtain_hit s1 b1 model p w v Hv).
  rewrite Hkey in Hv. rewrite (CacheFacts.obtain_hit s2 b2 model p w v Hv).
  unfold Notions.complete. rewrite Ht, Hkey. reflexivity.
Qed.

(** X14, a run of the theorem: a line moved from the body to the
    subject. *)
Lemma X14_witness :
  let s1 := String.append "Claim" (String.append EmailParser.nl "INV-4521") in
  let b2 := String.append "INV-4521" (String.append EmailParser.nl "not received") in
  Notions.text_of s1 "not received" = Notions.text_of "Claim" b2
  /\ @EmailParser._make_key Examples.plain_builtins s1 "not received"
     = @EmailParser._make_key Examples.plain_builtins "Claim" b2.
Proof.
  cbv zeta.
  assert (Ht : Notions.text_of
                 (String.append "Claim" (String.append EmailParser.nl "INV-4521"))
                 "not received"
               = Notions.text_of "Claim"
                   (String.append "INV-4521"
                      (String.append EmailParser.nl "not received")))
    by reflexivity.
  split; [exact Ht |].
  exact (proj1 (@X14_same_text_same_answer Examples.plain_builtins
                  Examples.silent_provider _ _ _ _ false "gpt-4o" None
                  (Examples.fresh_world "t0") Ht)).
Defined.

Module FootprintFacts.
Import EmailParser ExtractorAgent.
Import Notions Shapes.

Section Facts.
Context `{Builtins} `{Provider}.








End Facts.
End FootprintFacts.



Module ReFacts.
Import Re ReSem.

(** The matcher is sound: where it succeeds, the pattern leads to a
    cursor that the continuation accepts. *)
Lemma run_sound (r : regex) :
  forall (k : cursor -> option cursor) (st out : cursor),
    run r k st = Some out ->
    exists st', leads r st st' /\ k st' = Some out.
Proof.
  induction r as [| p | r1 IH1 r2 IH2 | r1 IH1 r2 IH2 | lo extra r1 IH1 | r1 IH1 | | i r1 IH1];
    intros k st out Hrun.
  - exists st. split; [reflexivity | exact Hrun].
  - cbn [run] in Hrun. destruct (rest st) as [| c s] eqn:Er; [discriminate |].
    destruct (p c) eqn:Ep; [| discriminate].
    exists (advance c s st). split; [| exact Hrun]. exists c, s. auto.
  - cbn [run] in Hrun. apply IH1 in Hrun as (mid & H1 & Hrun).
    apply IH2 in Hrun as (st' & H2 & Hk).
    exists st'. split; [| exact Hk]. exists mid. auto.
  - cbn [run] in Hrun. destruct (run r1 k st) as [x |] eqn:E1.
    + apply IH1 in E1 as (st' & H1 & Hk). injection Hrun as <-.
      exists st'. split; [left; exact H1 | exact Hk].
    + apply IH2 in Hrun as (st' & H2 & Hk).
      exists st'. split; [right; exact H2 | exact Hk].
  - cbn [run] in Hrun.
    assert (Hmay : forall n st,
              (fix may (n : nat) (st : cursor) {struct n} : option cursor :=
                 match n with
                 | O => k st
                 | S n' => match run r1 (may n') st with
                           | Some st' => Some st'
                           | None => k st
                           end
                 end) n st = Some out ->
              exists m st', (m <= n)%nat /\ steps m (leads r1) st st'
                            /\ k st' = Some out).
    { induction n as [| n IHn]; intros st0 H0.
      - exists 0%nat, st0. split; [lia |]. split; [reflexivity | exact H0].
      - cbn in H0.
        match type of H0 with
        | match run r1 ?f st0 with _ => _ end = _ =>
            destruct (run r1 f st0) as [x |] eqn:E1
        end.
        + injection H0 as ->. apply IH1 in E1 as (mid & H1 & Hrest).
          apply IHn in Hrest as (m & st' & Hm & Hs & Hk).
          exists (S m), st'. split; [lia |]. split; [| exact Hk].
          exists mid. auto.
        + exists 0%nat, st0. split; [lia |]. split; [reflexivity | exact H0]. }
    revert st Hrun. induction lo as [| lo IHlo]; intros st Hrun.
    + cbn in Hrun. apply Hmay in Hrun as (m & st' & Hm & Hs & Hk).
      exists st'. split; [| exact Hk]. exists m. split; [lia | exact Hs].
    + cbn in Hrun. apply IH1 in Hrun as (mid & H1 & Hrest).
      apply IHlo in Hrest as (st' & (n & Hn & Hs) & Hk).
      exists st'. split; [| exact Hk]. exists (S n). split; [lia |].
      exists mid. auto.
  - cbn [run] in Hrun. revert Hrun. generalize (String.length (rest st)).
    intros n. revert st. induction n as [| n IHn]; intros st0 H0.
    + exists st0. split; [exists 0%nat; reflexivity | exact H0].
    + cbn in H0.
      match type of H0 with
      | match run r1 ?f st0 with _ => _ end = _ =>
          destruct (run r1 f st0) as [x |] eqn:E1
      end.
      * injection H0 as ->. apply IH1 in E1 as (mid & H1 & Hrest).
        apply IHn in Hrest as (st' & (m & Hs) & Hk).
        exists st'. split; [| exact Hk]. exists (S m), mid. split; assumption.
      * exists st0. split; [exists 0%nat; reflexivity | exact H0].
  - cbn [run] in Hrun. destruct (at_boundary st) eqn:Eb; [| discriminate].
    exists st. split; [split; [exact Eb | reflexivity] | exact Hrun].
  - cbn [run] in Hrun. apply IH1 in Hrun as (st1 & H1 & Hk).
    exists (close_group i st st1). split; [| exact Hk]. exists st1.
    split; [exact H1 | reflexivity].
Qed.

Lemma append_nil_r (s : string) : String.append s EmptyString = s.
Proof.
  induction s as [| c s IH]; [reflexivity |].
  rewrite ExtractorFacts.append_cons, IH. reflexivity.
Qed.

Lemma length_append (s t : string) :
  String.length (String.append s t) = (String.length s + String.length t)%nat.
Proof.
  induction s as [| c s IH]; [reflexivity |].
  rewrite ExtractorFacts.append_cons. cbn [String.length]. rewrite IH. reflexivity.
Qed.

Lemma steps_words (R : cursor -> cursor -> Prop) (L : string -> Prop) :
  (forall st st', R st st' -> consumes L st st') ->
  forall n st st', steps n R st st' -> consumes (words n L) st st'.
Proof.
  intros HR. induction n as [| n IH]; intros st st' Hs.
  - cbn in Hs. subst st'. exists EmptyString. cbn. split; [reflexivity |].
    split; [reflexivity | lia].
  - destruct Hs as (mid & H1 & Hs). apply HR in H1 as (t1 & L1 & E1 & P1).
    apply IH in Hs as (t2 & L2 & E2 & P2).
    exists (String.append t1 t2). split; [exists t1, t2; auto |].
    split.
    + rewrite E1, E2, ExtractorFacts.append_assoc. reflexivity.
    + rewrite P2, P1, length_append. lia.
Qed.

Lemma leads_lang (r : regex) :
  forall st st', leads r st st' -> consumes (lang r) st st'.
Proof.
  induction r as [| p | r1 IH1 r2 IH2 | r1 IH1 r2 IH2 | lo extra r1 IH1 | r1 IH1 | | i r1 IH1];
    intros st st' H.
  - cbn in H. subst st'. exists EmptyString. cbn. repeat split; lia.
  - destruct H as (c & s & Er & Hp & ->).
    exists (String c EmptyString). split; [exists c; auto |].
    cbn. split; [exact Er | lia].
  - destruct H as (mid & H1 & H2).
    apply IH1 in H1 as (t1 & L1 & E1 & P1). apply IH2 in H2 as (t2 & L2 & E2 & P2).
    exists (String.append t1 t2). split; [exists t1, t2; auto |].
    split.
    + rewrite E1, E2, ExtractorFacts.append_assoc. reflexivity.
    + rewrite P2, P1, length_append. lia.
  - destruct H as [H | H].
    + apply IH1 in H as (t & L & E & P). exists t. split; [left; exact L | auto].
    + apply IH2 in H as (t & L & E & P). exists t. split; [right; exact L | auto].
  - destruct H as (n & Hn & Hs).
    apply (steps_words _ _ IH1) in Hs as (t & L & E & P).
    exists t. split; [exists n; auto | auto].
  - destruct H as (n & Hs).
    apply (steps_words _ _ IH1) in Hs as (t & L & E & P).
    exists t. split; [exists n; auto | auto].
  - destruct H as (_ & ->). exists EmptyString. cbn. repeat split; lia.
  - destruct H as (st1 & H1 & ->). apply IH1 in H1 as (t & L & E & P).
    exists t. split; [exact L |]. cbn. auto.
Qed.

(** *** Positions of a text *)

Lemma drop_next (n : nat) (text : string) (c : ascii) (s : string) :
  Py.drop n text = String c s ->
  Py.drop (S n) text = s /\ (n < String.length text)%nat.
Proof.
  revert text. induction n as [| n IH]; intros text Hd.
  - cbn in Hd. subst text. cbn. split; [reflexivity | lia].
  - destruct text as [| x text]; [discriminate |].
    cbn [Py.drop] in Hd. apply IH in Hd as [Hd Hl].
    split; [exact Hd | cbn; lia].
Qed.

Lemma within_start (text : string) : within text (start_of text).
Proof. split; [reflexivity | cbn; lia]. Qed.

Lemma within_advance (text : string) (st : cursor) (c : ascii) (s : string) :
  within text st -> rest st = String c s -> within text (advance c s st).
Proof.
  intros [Hr Hl] Ec. rewrite Hr in Ec. apply drop_next in Ec as [Hd Hlt].
  split; cbn; [symmetry; exact Hd | lia].
Qed.

Lemma substring_drop (n : nat) (text t u : string) :
  Py.drop n text = String.append t u -> substring n (String.length t) text = t.
Proof.
  revert text. induction n as [| n IH]; intros text Hd.
  - cbn in Hd. subst text. clear. induction t as [| c t IH]; cbn.
    + destruct u; reflexivity.
    + rewrite ExtractorFacts.append_cons. cbn. f_equal. exact IH.
  - destruct text as [| x text].
    + cbn in Hd. destruct t; [reflexivity | discriminate].
    + cbn [Py.drop] in Hd. cbn. apply IH, Hd.
Qed.

(** The search is sound: the text of a match belongs to the language of
    the pattern. *)
Lemma search_from_sound (r : regex) (text : string) (fuel : nat) (st : cursor)
    (m : rmatch) :
  within text st ->
  search_from r fuel st = Some m ->
  lang r (group0 text m).
Proof.
  revert st. induction fuel as [| fuel IH]; intros st Hw Hs.
  - cbn in Hs. unfold match_at in Hs.
    destruct (run r Some _) as [st' |] eqn:Er; [| destruct (rest st); discriminate].
    injection Hs as <-. apply run_sound in Er as (st1 & Hl & [= <-]).
    apply leads_lang in Hl as (t & L & E & P). cbn in E, P.
    unfold group0. cbn. destruct Hw as [Hr _]. rewrite Hr in E.
    replace (pos st1 - pos st)%nat with (String.length t) by lia.
    rewrite (substring_drop _ _ _ _ E). exact L.
  - cbn [search_from] in Hs. unfold match_at in Hs.
    destruct (run r Some _) as [st' |] eqn:Er.
    + injection Hs as <-. apply run_sound in Er as (st1 & Hl & [= <-]).
      apply leads_lang in Hl as (t & L & E & P). cbn in E, P.
      unfold group0. cbn. destruct Hw as [Hr _]. rewrite Hr in E.
      replace (pos st1 - pos st)%nat with (String.length t) by lia.
      rewrite (substring_drop _ _ _ _ E). exact L.
    + destruct (rest st) as [| c s] eqn:Ec; [discriminate |].
      apply (IH (advance c s st)); [| exact Hs].
      apply within_advance; assumption.
Qed.

Lemma search_sound (r : regex) (text : string) (m : rmatch) :
  search r text = Some m -> lang r (group0 text m).
Proof. apply search_from_sound, within_start. Qed.

Lemma words_chr (p : ascii -> bool) (n : nat) (t : string) :
  words n (lang (Chr p)) t -> String.length t = n /\ Shapes.sall p t = true.
Proof.
  revert t. induction n as [| n IH]; intros t Hw.
  - cbn in Hw. subst t. split; reflexivity.
  - destruct Hw as (t1 & t2 & -> & (c & -> & Hp) & Hw).
    apply IH in Hw as [Hl Hs]. rewrite ExtractorFacts.append_cons.
    change (String.append EmptyString t2) with t2. cbn. rewrite Hp, Hs, Hl.
    split; reflexivity.
Qed.

(** An optional character. *)
Lemma lang_opt_chr (p : ascii -> bool) (t : string) :
  lang (opt (Chr p)) t ->
  t = EmptyString \/ exists c, t = String c EmptyString /\ p c = true.
Proof.
  intros (n & Hn & Hw). apply words_chr in Hw as [Hl Hs].
  destruct t as [| c [| c' t]]; cbn in Hl, Hs.
  - left. reflexivity.
  - right. exists c. split; [reflexivity |].
    apply andb_true_iff in Hs as [Hs _]. exact Hs.
  - lia.
Qed.

End ReFacts.

Module NumberFacts.
Import Re ReSem ReFacts Shapes.
Import EmailParser.

Lemma smap_append (f : ascii -> ascii) (s t : string) :
  smap f (String.append s t) = String.append (smap f s) (smap f t).
Proof.
  induction s as [| c s IH]; [reflexivity |].
  rewrite ExtractorFacts.append_cons. cbn [smap].
  rewrite ExtractorFacts.append_cons, IH. reflexivity.
Qed.

Lemma replace_char_append (old : ascii) (new s t : string) :
  replace_char old new (String.append s t)
  = String.append (replace_char old new s) (replace_char old new t).
Proof.
  induction s as [| c s IH]; [reflexivity |].
  rewrite ExtractorFacts.append_cons. cbn [replace_char].
  destruct (Ascii.eqb c old).
  - rewrite IH, ExtractorFacts.append_assoc. reflexivity.
  - rewrite ExtractorFacts.append_cons, IH. reflexivity.
Qed.

(** A character that matches a letter without regard to case is that
    letter once upper-cased. *)
Lemma upper_of_ilit (l c : ascii) :
  is_ascii_upper l = true ->
  Ascii.eqb (lower_char c) (lower_char l) = true -> upper_char c = l.
Proof.
  destruct l as [[] [] [] [] [] [] [] []]; try discriminate; intros _;
    destruct c as [[] [] [] [] [] [] [] []]; try discriminate; reflexivity.
Qed.

Lemma upper_digit (c : ascii) : is_digit c = true -> upper_char c = c.
Proof. destruct c as [[] [] [] [] [] [] [] []]; try discriminate; reflexivity. Qed.

Lemma digit_not_space (c : ascii) : is_digit c = true -> Ascii.eqb c " " = false.
Proof. destruct c as [[] [] [] [] [] [] [] []]; try discriminate; reflexivity. Qed.

Lemma upper_separator (c : ascii) :
  Ascii.eqb c "-" || is_space c = true -> upper_char c = c.
Proof. destruct c as [[] [] [] [] [] [] [] []]; try discriminate; reflexivity. Qed.

Lemma upper_digits (ds : string) : sall is_digit ds = true -> upper ds = ds.
Proof.
  unfold upper. induction ds as [| c ds IH]; [reflexivity |].
  cbn. intros Hs. apply andb_true_iff in Hs as [Hc Hs].
  rewrite (upper_digit c Hc), (IH Hs). reflexivity.
Qed.

Lemma replace_space_digits (new ds : string) :
  sall is_digit ds = true -> replace_char " " new ds = ds.
Proof.
  induction ds as [| c ds IH]; [reflexivity |].
  cbn. intros Hs. apply andb_true_iff in Hs as [Hc Hs].
  rewrite (digit_not_space c Hc), (IH Hs). reflexivity.
Qed.

(** The texts that [INVOICE_RE] can match. *)
Lemma invoice_lang (t : string) :
  lang INVOICE_RE t ->
  exists c1 c2 c3 sep ds,
    t = String c1 (String c2 (String c3 (String.append sep ds)))
    /\ upper_char c1 = "I"%char /\ upper_char c2 = "N"%char
    /\ upper_char c3 = "V"%char
    /\ (sep = EmptyString
        \/ exists c, sep = String c EmptyString
                     /\ Ascii.eqb c "-" || is_space c = true)
    /\ sall is_digit ds = true
    /\ (3 <= String.length ds <= 7)%nat.
Proof.
  unfold INVOICE_RE. cbn [seq lang].
  intros (t0 & t1 & -> & -> & t2 & t3 & -> & (c1 & -> & H1)
          & t4 & t5 & -> & (c2 & -> & H2) & t6 & t7 & -> & (c3 & -> & H3)
          & sep & t8 & -> & Hsep & ds & t9 & -> & (n & Hn & Hds) & ->).
  apply words_chr in Hds as [Hl Hs].
  apply (lang_opt_chr _ sep) in Hsep.
  exists c1, c2, c3, sep, ds.
  rewrite append_nil_r.
  split; [reflexivity |].
  split; [apply upper_of_ilit; [reflexivity | exact H1] |].
  split; [apply upper_of_ilit; [reflexivity | exact H2] |].
  split; [apply upper_of_ilit; [reflexivity | exact H3] |].
  split; [exact Hsep |]. split; [exact Hs | lia].
Qed.

End NumberFacts.

(** X17. In a text of characters below U+0100, which is what the texts
    of this development are, every invoice number that the normaliser
    extracts has one form: the letters [INV] in upper case, then nothing,
    a hyphen or one white-space character other than the space (a space
    has become a hyphen), then three to seven digits [0-9]. (In such a
    text the pattern, although it ignores case, matches no character but
    the six letters themselves, and [\d] matches the ten digits only;
    the source can return other letters and digits for texts that hold
    characters from U+0100 on.) *)
Theorem X17_invoice_number_form (text s : string) :
  EmailParser.extract_invoice_regex text = Some s -> Shapes.invoice_shape s.
Proof.
  unfold EmailParser.extract_invoice_regex.
  destruct (Re.search EmailParser.INVOICE_RE text) as [m |] eqn:Hs; [| discriminate].
  intros [= <-]. apply ReFacts.search_sound in Hs.
  apply NumberFacts.invoice_lang in Hs
    as (c1 & c2 & c3 & sep & ds & -> & U1 & U2 & U3 & Hsep & Hd & Hl).
  unfold upper. cbn [smap]. rewrite U1, U2, U3.
  rewrite NumberFacts.smap_append.
  change (smap upper_char ds) with (upper ds). rewrite (NumberFacts.upper_digits ds Hd).
  cbn [replace_char Ascii.eqb Bool.eqb]. rewrite NumberFacts.replace_char_append.
  rewrite (NumberFacts.replace_space_digits _ ds Hd).
  destruct Hsep as [-> | (c & -> & Hc)].
  - exists EmptyString, ds. split; [reflexivity |].
    split; [left; reflexivity |]. auto.
  - cbn [smap]. rewrite (NumberFacts.upper_separator c Hc). cbn [replace_char].
    destruct (Ascii.eqb c " ") eqn:Esp.
    + exists "-", ds. split; [reflexivity |].
      split; [right; left; reflexivity |]. auto.
    + exists (String c EmptyString), ds. split; [reflexivity |].
      split; [| auto].
      apply orb_true_iff in Hc as [Hc | Hc].
      * apply Ascii.eqb_eq in Hc. subst c. right. left. reflexivity.
      * right. right. exists c. split; [reflexivity |]. split; [exact Hc |].
        intros ->. discriminate Esp.
Qed.

(** X17, a run of the theorem on a number written in lower case with a
    space. *)
Lemma X17_witness :
  EmailParser.extract_invoice_regex "see inv 4521 attached" = Some "INV-4521"
  /\ Shapes.invoice_shape "INV-4521".
Proof.
  assert (E : EmailParser.extract_invoice_regex "see inv 4521 attached"
              = Some "INV-4521") by reflexivity.
  split; [exact E | exact (X17_invoice_number_form _ _ E)].
Defined.

Module PoFacts.
Import Re ReSem ReFacts Shapes NumberFacts.
Import EmailParser.

(** The texts that [PO_RE] can match. *)
Lemma po_lang (t : string) :
  lang PO_RE t ->
  (exists ds, t = String.append "45" ds /\ sall is_digit ds = true
              /\ (5 <= String.length ds <= 6)%nat)
  \/ (exists c1 c2 sep ds,
        t = String c1 (String c2 (String.append sep ds))
        /\ upper_char c1 = "P"%char /\ upper_char c2 = "O"%char
        /\ (sep = EmptyString
            \/ exists c, sep = String c EmptyString
                         /\ Ascii.eqb c "-" || is_space c = true)
        /\ sall is_digit ds = true
        /\ (3 <= String.length ds <= 7)%nat).
Proof.
  unfold PO_RE. cbn [seq lang].
  intros [(t0 & t1 & -> & -> & t2 & t3 & -> & (c1 & -> & H1)
           & t4 & t5 & -> & (c2 & -> & H2) & ds & t9 & -> & (n & Hn & Hds) & ->)
         | (t0 & t1 & -> & -> & t2 & t3 & -> & (c1 & -> & H1)
           & t4 & t5 & -> & (c2 & -> & H2)
           & sep & t8 & -> & Hsep & ds & t9 & -> & (n & Hn & Hds) & ->)].
  - left. apply words_chr in Hds as [Hl Hs].
    apply Ascii.eqb_eq in H1, H2. subst c1 c2.
    exists ds. rewrite append_nil_r. split; [reflexivity |]. split; [exact Hs | lia].
  - right. apply words_chr in Hds as [Hl Hs].
    apply (lang_opt_chr _ sep) in Hsep.
    exists c1, c2, sep, ds. rewrite append_nil_r.
    split; [reflexivity |].
    split; [apply upper_of_ilit; [reflexivity | exact H1] |].
    split; [apply upper_of_ilit; [reflexivity | exact H2] |].
    split; [exact Hsep |]. split; [exact Hs | lia].
Qed.

(** *** The three string operations on the matched texts *)

Lemma replace_fuel_no_P (fuel : nat) (new s : string) :
  sall (fun c => negb (Ascii.eqb c "P")) s = true ->
  replace_fuel fuel "PO" new s = s.
Proof.
  revert s. induction fuel as [| fuel IH]; intros s Hs; [reflexivity |].
  destruct s as [| c s]; [reflexivity |].
  cbn [sall] in Hs. apply andb_true_iff in Hs as [Hc Hs].
  cbn [replace_fuel startswith].
  rewrite Ascii.eqb_sym. apply negb_true_iff in Hc. rewrite Hc. cbn [andb].
  rewrite (IH s Hs). reflexivity.
Qed.

Lemma sall_append (p : ascii -> bool) (s t : string) :
  sall p (String.append s t) = sall p s && sall p t.
Proof.
  induction s as [| c s IH]; [reflexivity |].
  rewrite ExtractorFacts.append_cons. cbn [sall]. rewrite IH, andb_assoc. reflexivity.
Qed.

Lemma sall_weaken (p q : ascii -> bool) (s : string) :
  (forall c, p c = true -> q c = true) -> sall p s = true -> sall q s = true.
Proof.
  intros Hpq. induction s as [| c s IH]; [reflexivity |].
  cbn. intros Hs. apply andb_true_iff in Hs as [Hc Hs].
  rewrite (Hpq c Hc), (IH Hs). reflexivity.
Qed.

Lemma digit_facts (c : ascii) :
  is_digit c = true ->
  negb (Ascii.eqb c "P") = true /\ Ascii.eqb c "-" = false /\ is_space c = false.
Proof. destruct c as [[] [] [] [] [] [] [] []]; try discriminate; auto. Qed.

Lemma separator_facts (c : ascii) :
  Ascii.eqb c "-" || is_space c = true ->
  negb (Ascii.eqb c "P") = true
  /\ (Ascii.eqb c "-" = true \/ Ascii.eqb c "-" = false /\ is_space c = true).
Proof. destruct c as [[] [] [] [] [] [] [] []]; try discriminate; auto. Qed.

Lemma letter_facts (l c : ascii) :
  is_ascii_upper l = true -> upper_char c = l ->
  Ascii.eqb c "-" = false /\ is_space c = false /\ is_digit c = false.
Proof.
  destruct l as [[] [] [] [] [] [] [] []]; try discriminate; intros _;
    destruct c as [[] [] [] [] [] [] [] []]; try discriminate; auto.
Qed.

Lemma replace_dash_digits (ds : string) :
  sall is_digit ds = true -> replace_char "-" "" ds = ds.
Proof.
  induction ds as [| c ds IH]; [reflexivity |].
  cbn. intros Hs. apply andb_true_iff in Hs as [Hc Hs].
  destruct (digit_facts c Hc) as (_ & -> & _). rewrite (IH Hs). reflexivity.
Qed.

Lemma srev_involutive (s : string) : srev (srev s) = s.
Proof.
  induction s as [| c s IH]; [reflexivity |].
  rewrite ExtractorFacts.srev_cons, ExtractorFacts.srev_snoc, IH. reflexivity.
Qed.

Lemma srev_append (s t : string) :
  srev (String.append s t) = String.append (srev t) (srev s).
Proof.
  induction s as [| c s IH].
  - change (srev EmptyString) with EmptyString. rewrite append_nil_r. reflexivity.
  - rewrite ExtractorFacts.append_cons, !ExtractorFacts.srev_cons, IH.
    apply ExtractorFacts.append_assoc.
Qed.

Lemma sall_srev (p : ascii -> bool) (s : string) : sall p (srev s) = sall p s.
Proof.
  induction s as [| c s IH]; [reflexivity |].
  rewrite ExtractorFacts.srev_cons, sall_append, IH. cbn. rewrite andb_true_r.
  apply andb_comm.
Qed.

Lemma length_srev (s : string) : String.length (srev s) = String.length s.
Proof.
  induction s as [| c s IH]; [reflexivity |].
  rewrite ExtractorFacts.srev_cons, length_append, IH. cbn. lia.
Qed.

Lemma lstrip_black_id (s : string) : starts_black s -> lstrip s = s.
Proof. destruct s as [| c s]; [reflexivity |]. cbn. intros ->. reflexivity. Qed.

Lemma strip_id (s : string) :
  starts_black s -> starts_black (srev s) -> strip s = s.
Proof.
  intros Hs Hr. unfold strip.
  rewrite (lstrip_black_id s Hs), (lstrip_black_id _ Hr). apply srev_involutive.
Qed.

(** A text that begins with digits does not begin with white space. *)
Lemma digits_black (ds t : string) :
  sall is_digit ds = true -> (0 < String.length ds)%nat ->
  starts_black (String.append ds t).
Proof.
  destruct ds as [| c ds]; cbn; [lia |]. intros Hs _.
  apply andb_true_iff in Hs as [Hc _]. apply digit_facts, Hc.
Qed.

(** Stripping a text that ends with digits and begins with a black
    character changes nothing. *)
Lemma strip_ends_digits (x ds : string) :
  starts_black (String.append x ds) ->
  sall is_digit ds = true -> (0 < String.length ds)%nat ->
  strip (String.append x ds) = String.append x ds.
Proof.
  intros Hb Hs Hl. apply strip_id; [exact Hb |].
  rewrite srev_append. apply digits_black.
  - rewrite sall_srev. exact Hs.
  - rewrite length_srev. exact Hl.
Qed.

Lemma strip_digits (ds : string) :
  sall is_digit ds = true -> (0 < String.length ds)%nat -> strip ds = ds.
Proof.
  intros Hs Hl. pose proof (strip_ends_digits EmptyString ds) as E.
  apply E; [| exact Hs | exact Hl].
  change (String.append EmptyString ds) with ds.
  rewrite <- (append_nil_r ds). apply digits_black; assumption.
Qed.

(** Stripping removes a white-space character in front of digits. *)
Lemma strip_space_digits (c : ascii) (ds : string) :
  is_space c = true ->
  sall is_digit ds = true -> (0 < String.length ds)%nat ->
  strip (String c ds) = ds.
Proof.
  intros Hc Hs Hl. unfold strip. cbn [lstrip]. rewrite Hc.
  fold (strip ds). apply strip_digits; assumption.
Qed.

Lemma startswith_append (s t p : string) :
  startswith s p = true -> startswith (String.append s t) p = true.
Proof.
  revert s. induction p as [| a p IH]; intros s; [reflexivity |].
  destruct s as [| b s]; [discriminate |].
  rewrite ExtractorFacts.append_cons. cbn [startswith].
  intros Hs. apply andb_true_iff in Hs as [-> Hs]. cbn. apply IH, Hs.
Qed.

End PoFacts.

(** X18. A PO number that the normaliser extracts has one of two forms.
    When the text matched was a number [45...] or was written with [PO]
    in upper case, it is made of digits: it starts with [45] and has
    three to nine digits. When the letters were written otherwise
    ([po], [Po], [pO]) they stay, because the pattern ignores case and
    the removal of ["PO"] does not: the number is [45], the two letters,
    a white-space character if one stood there, and the digits. *)
Theorem X18_po_number_form (text s : string) :
  EmailParser.extract_po_regex text = Some s ->
  Shapes.po_digits s \/ Shapes.po_lettered s.
Proof.
  unfold EmailParser.extract_po_regex.
  destruct (Re.search EmailParser.PO_RE text) as [m |] eqn:Hs; [| discriminate].
  intros [= <-]. apply ReFacts.search_sound in Hs.
  apply PoFacts.po_lang in Hs
    as [(ds & -> & Hd & Hl) | (c1 & c2 & sep & ds & -> & U1 & U2 & Hsep & Hd & Hl)].
  - (* a number 45... *)
    left. unfold EmailParser.normalize_po.
    assert (Hall : Shapes.sall is_digit (String.append "45" ds) = true)
      by (rewrite PoFacts.sall_append, Hd; reflexivity).
    unfold replace. rewrite PoFacts.replace_fuel_no_P
      by (apply (PoFacts.sall_weaken is_digit); [apply PoFacts.digit_facts | exact Hall]).
    rewrite (PoFacts.replace_dash_digits _ Hall).
    rewrite PoFacts.strip_digits
      by (try exact Hall; rewrite ReFacts.length_append; cbn; lia).
    change (startswith (String.append "45" ds) "45") with true. cbn [negb].
    split; [exact Hall |]. split; [reflexivity |].
    rewrite ReFacts.length_append. cbn. lia.
  - destruct (Ascii.eqb c1 "P" && Ascii.eqb c2 "O") eqn:Ecase.
    + (* written PO *)
      left. apply andb_true_iff in Ecase as [E1 E2].
      apply Ascii.eqb_eq in E1, E2. subst c1 c2.
      unfold EmailParser.normalize_po, replace.
      assert (Hrep : forall fuel,
                replace_fuel (S fuel) "PO" ""
                  (String "P" (String "O" (String.append sep ds)))
                = String.append sep ds).
      { intros fuel. cbn [replace_fuel startswith Ascii.eqb Bool.eqb andb].
        change (Py.drop (String.length "PO") (String "P" (String "O" (String.append sep ds))))
          with (String.append sep ds).
        change (String.append "" ?x) with x.
        apply PoFacts.replace_fuel_no_P. rewrite PoFacts.sall_append.
        apply andb_true_iff. split.
        - destruct Hsep as [-> | (c & -> & Hc)]; [reflexivity |].
          cbn. destruct (PoFacts.separator_facts c Hc) as [-> _]. reflexivity.
        - apply (PoFacts.sall_weaken is_digit); [apply PoFacts.digit_facts | exact Hd]. }
      cbn [String.length]. rewrite Hrep.
      assert (Hv : strip (replace_char "-" "" (String.append sep ds)) = ds).
      { destruct Hsep as [-> | (c & -> & Hc)].
        - change (String.append "" ds) with ds.
          rewrite (PoFacts.replace_dash_digits _ Hd).
          apply PoFacts.strip_digits; [exact Hd | lia].
        - rewrite ExtractorFacts.append_cons. change (String.append "" ds) with ds.
          cbn [replace_char]. rewrite (PoFacts.replace_dash_digits _ Hd).
          destruct (PoFacts.separator_facts c Hc) as [_ [-> | [-> Hsp]]].
          + change (String.append "" ds) with ds.
            apply PoFacts.strip_digits; [exact Hd | lia].
          + apply PoFacts.strip_space_digits; [exact Hsp | exact Hd | lia]. }
      rewrite Hv.
      destruct (startswith ds "45") eqn:E45; cbn [negb].
      * split; [exact Hd |]. split; [exact E45 | lia].
      * split; [rewrite PoFacts.sall_append, Hd; reflexivity |].
        split; [reflexivity |]. rewrite ReFacts.length_append. cbn. lia.
    + (* written otherwise *)
      right.
      destruct (PoFacts.letter_facts "P" c1 eq_refl U1) as (D1 & S1 & G1).
      destruct (PoFacts.letter_facts "O" c2 eq_refl U2) as (D2 & S2 & G2).
      assert (Hnp2 : negb (Ascii.eqb c2 "P") = true).
      { destruct c2 as [[] [] [] [] [] [] [] []]; try discriminate U2; reflexivity. }
      assert (Htail : Shapes.sall (fun c => negb (Ascii.eqb c "P"))
                        (String.append sep ds) = true).
      { rewrite PoFacts.sall_append. apply andb_true_iff. split.
        - destruct Hsep as [-> | (c & -> & Hc)]; [reflexivity |].
          cbn. destruct (PoFacts.separator_facts c Hc) as [-> _]. reflexivity.
        - apply (PoFacts.sall_weaken is_digit); [apply PoFacts.digit_facts | exact Hd]. }
      unfold EmailParser.normalize_po, replace.
      assert (Hrep : forall fuel,
                replace_fuel (S (S fuel)) "PO" ""
                  (String c1 (String c2 (String.append sep ds)))
                = String c1 (String c2 (String.append sep ds))).
      { intros fuel. cbn [replace_fuel startswith].
        rewrite (Ascii.eqb_sym "P" c1), (Ascii.eqb_sym "O" c2), andb_true_r, Ecase.
        cbn [replace_fuel startswith].
        rewrite (Ascii.eqb_sym "P" c2). apply negb_true_iff in Hnp2. rewrite Hnp2.
        cbn [andb]. rewrite PoFacts.replace_fuel_no_P by exact Htail. reflexivity. }
      cbn [String.length]. rewrite Hrep.
      cbn [replace_char]. rewrite D1, D2.
      set (sep' := match sep with
                   | String c EmptyString => if Ascii.eqb c "-" then EmptyString else sep
                   | _ => sep
                   end).
      assert (Hsep' : replace_char "-" "" (String.append sep ds) = String.append sep' ds
                      /\ (sep' = EmptyString
                          \/ exists c, sep' = String c EmptyString /\ is_space c = true)).
      { subst sep'. destruct Hsep as [-> | (c & -> & Hc)].
        - change (String.append "" ds) with ds.
          rewrite (PoFacts.replace_dash_digits _ Hd). split; [reflexivity | left; reflexivity].
        - rewrite ExtractorFacts.append_cons. change (String.append "" ds) with ds.
          cbn [replace_char]. rewrite (PoFacts.replace_dash_digits _ Hd).
          destruct (PoFacts.separator_facts c Hc) as [_ [-> | [-> Hsp]]].
          + split; [reflexivity | left; reflexivity].
          + split; [reflexivity |]. right. exists c. auto. }
      destruct Hsep' as [-> Hsep'].
      assert (Hstrip : strip (String c1 (String c2 (String.append sep' ds)))
                       = String c1 (String c2 (String.append sep' ds))).
      { change (String c1 (String c2 (String.append sep' ds)))
          with (String.append (String c1 (String c2 sep')) ds).
        apply PoFacts.strip_ends_digits; [exact S1 | exact Hd | lia]. }
      rewrite Hstrip.
      assert (H45 : startswith (String c1 (String c2 (String.append sep' ds))) "45"
                    = false).
      { cbn [startswith]. destruct (Ascii.eqb "4" c1) eqn:E4; [| reflexivity].
        apply Ascii.eqb_eq in E4. subst c1. discriminate U1. }
      rewrite H45. cbn [negb].
      exists c1, c2, sep', ds. split; [reflexivity |].
      split; [exact U1 |]. split; [exact U2 |].
      split; [| split; [exact Hsep' | split; [exact Hd | exact Hl]]].
      apply andb_false_iff in Ecase as [E | E]; [left | right];
        intros ->; discriminate E.
Qed.

(** X18, a run of the theorem on the two ways of writing the letters. *)
Lemma X18_witness :
  EmailParser.extract_po_regex "see PO-0012345" = Some "450012345"
  /\ EmailParser.extract_po_regex "see po-0012345" = Some "45po0012345"
  /\ (Shapes.po_digits "45po0012345" \/ Shapes.po_lettered "45po0012345").
Proof.
  assert (E : EmailParser.extract_po_regex "see po-0012345" = Some "45po0012345")
    by reflexivity.
  split; [reflexivity |]. split; [exact E |].
  exact (X18_po_number_form _ _ E).
Defined.

Module AmountFacts.
Import Re ReSem ReFacts Shapes.
Import Extractor.

(** No match of [AMT_RE] starts at a character other than [I]. *)
Lemma amt_not_at (st : cursor) (c : ascii) (s : string) :
  rest st = String c s ->
  negb (Ascii.eqb (lower_char c) "i") = true ->
  match_at AMT_RE st = None.
Proof.
  intros Er Hc. unfold match_at, AMT_RE. cbn [seq run rest ilit]. rewrite Er.
  apply negb_true_iff in Hc.
  change (lower_char "I") with "i"%char. rewrite Hc. reflexivity.
Qed.

(** *** The matcher, one step at a time *)

Lemma run_chr_hit (p : ascii -> bool) (k : cursor -> option cursor)
    (st : cursor) (c : ascii) (s : string) :
  rest st = String c s -> p c = true -> run (Chr p) k st = k (advance c s st).
Proof. intros Er Hp. cbn [run]. rewrite Er, Hp. reflexivity. Qed.

Lemma run_chr_miss (p : ascii -> bool) (k : cursor -> option cursor) (st : cursor) :
  match rest st with EmptyString => True | String c _ => p c = false end ->
  run (Chr p) k st = None.
Proof.
  intros Hm. cbn [run]. destruct (rest st) as [| c s]; [reflexivity |].
  rewrite Hm. reflexivity.
Qed.

Lemma run_cat (r1 r2 : regex) (k : cursor -> option cursor) (st : cursor) :
  run (Cat r1 r2) k st = run r1 (run r2 k) st.
Proof. reflexivity. Qed.

Lemma run_grp (i : nat) (r : regex) (k : cursor -> option cursor) (st : cursor) :
  run (Grp i r) k st = run r (fun st' => k (close_group i st st')) st.
Proof. reflexivity. Qed.

Lemma run_opt (r : regex) (k : cursor -> option cursor) (st : cursor) :
  run (opt r) k st
  = match run r k st with Some st' => Some st' | None => k st end.
Proof. reflexivity. Qed.

Lemma run_star_stop (p : ascii -> bool) (k : cursor -> option cursor) (st : cursor) :
  match rest st with EmptyString => True | String c _ => p c = false end ->
  run (Star (Chr p)) k st = k st.
Proof.
  intros Hm. cbn [run]. destruct (rest st) as [| c s] eqn:Er; [reflexivity |].
  cbn [String.length]. cbv beta iota fix. rewrite Er, Hm. reflexivity.
Qed.

(** The match of [AMT_RE] at ["INR,"], when no amount follows. *)
Lemma amt_at_comma (st : cursor) (post : string) :
  rest st = String.append "INR," post ->
  ends_amount post ->
  match_at AMT_RE st
  = Some {| m_start := pos st; m_end := 4 + pos st;
            m_caps := [(1, (3 + pos st, 4 + pos st))%nat] |}.
Proof.
  intros Er Hpost.
  change (String.append "INR," post)
    with (String "I" (String "N" (String "R" (String "," post)))) in Er.
  assert (Hnot : forall p : ascii -> bool,
            (forall c, p c = true ->
                       is_digit c = true \/ c = ","%char \/ c = "."%char) ->
            match post with EmptyString => True | String c _ => p c = false end).
  { intros p Hp. destruct post as [| c s]; [exact I |].
    destruct Hpost as (Hd & Hc & Hdot).
    destruct (p c) eqn:E; [| reflexivity].
    destruct (Hp c E) as [H | [H | H]]; congruence. }
  assert (Hcd : match post with
                | EmptyString => True
                | String c _ => Ascii.eqb c "," || is_digit c = false
                end).
  { apply (Hnot (fun c => Ascii.eqb c "," || is_digit c)). intros c Hc.
    apply orb_true_iff in Hc as [Hc | Hc]; [| auto].
    apply Ascii.eqb_eq in Hc. auto. }
  assert (Hdot : match post with
                 | EmptyString => True
                 | String c _ => Ascii.eqb "." c = false
                 end).
  { apply (Hnot (Ascii.eqb ".")). intros c Hc. apply Ascii.eqb_eq in Hc. auto. }
  unfold match_at, AMT_RE, ilit, lit, plus, space, comma_or_digit. cbn [seq].
  set (st0 := {| pos := pos st |}).
  rewrite run_cat, (run_chr_hit _ _ st0 "I" _ Er) by reflexivity.
  rewrite run_cat, (run_chr_hit _ _ _ "N" (String "R" (String "," post)))
    by reflexivity.
  rewrite run_cat, (run_chr_hit _ _ _ "R" (String "," post)) by reflexivity.
  rewrite run_cat, run_opt, run_chr_miss by reflexivity.
  rewrite run_grp, run_cat, run_cat.
  rewrite (run_chr_hit _ _ _ "," post) by reflexivity.
  rewrite run_star_stop by exact Hcd.
  rewrite run_opt, run_cat, run_chr_miss by exact Hdot.
  reflexivity.
Qed.

(** The search passes over a text without the letter. *)
Lemma amt_search_skip (pre tail : string) (fuel : nat) (st : cursor) :
  no_letter_i pre = true ->
  rest st = String.append pre tail ->
  (String.length pre <= fuel)%nat ->
  exists st',
    search_from AMT_RE fuel st
    = search_from AMT_RE (fuel - String.length pre) st'
    /\ rest st' = tail
    /\ pos st' = (pos st + String.length pre)%nat.
Proof.
  revert fuel st. induction pre as [| c pre IH]; intros fuel st Hpre Er Hf.
  - exists st. cbn. rewrite Nat.sub_0_r, Nat.add_0_r. auto.
  - unfold no_letter_i in Hpre. cbn [sall] in Hpre.
    apply andb_true_iff in Hpre as [Hc Hpre].
    rewrite ExtractorFacts.append_cons in Er.
    destruct fuel as [| fuel]; [cbn in Hf; lia |].
    cbn [search_from]. rewrite (amt_not_at st c _ Er Hc), Er.
    destruct (IH fuel (advance c (String.append pre tail) st) Hpre eq_refl)
      as (st' & E & Hr & Hp); [cbn in Hf; lia |].
    exists st'. split; [exact E |]. split; [exact Hr |].
    rewrite Hp. cbn. lia.
Qed.

Lemma substring_append (pre t post : string) :
  substring (String.length pre) (String.length t)
    (String.append pre (String.append t post)) = t.
Proof.
  induction pre as [| c pre IH].
  - change (String.append "" ?x) with x. cbn [String.length].
    apply (substring_drop 0 _ t post). reflexivity.
  - rewrite ExtractorFacts.append_cons. cbn. exact IH.
Qed.

End AmountFacts.

(** X19. The pattern extraction raises on an amount made of commas: in
    a body that holds no letter [I] before an ["INR,"] after which no
    digit, comma or full stop follows, [AMT_RE] captures [","], whose
    commas are removed, and [float("")] raises [ValueError]. Nothing
    catches it: without a key for the chat completion [extract] raises
    it, and so does the processing of the email. *)
Theorem X19_comma_amount_raises `{Builtins} `{Extractor.Chat}
    (pre post : string) :
  str_to_float "" = None ->
  Shapes.no_letter_i pre = true ->
  Shapes.ends_amount post ->
  let body := String.append pre (String.append "INR," post) in
  Extractor._regex_extract body = Raise ValueError
  /\ (Extractor.api_key_set = false ->
      forall connect i email,
        Extractor.body_of email = Ok body ->
        Extractor.extract email = Raise ValueError
        /\ Runner.process_one connect i email = Raise ValueError).
Proof.
  intros Hfloat Hpre Hpost body.
  assert (Hm : Re.search Extractor.AMT_RE body
               = Some {| Re.m_start := String.length pre;
                         Re.m_end := 4 + String.length pre;
                         Re.m_caps := [(1, (3 + String.length pre,
                                            4 + String.length pre))%nat] |}).
  { unfold Re.search.
    destruct (AmountFacts.amt_search_skip pre (String.append "INR," post)
                (String.length body) (Re.start_of body) Hpre eq_refl)
      as (st' & -> & Hr & Hp).
    { subst body. rewrite ReFacts.length_append. lia. }
    cbn [Re.start_of Re.pos] in Hp. cbn [Nat.add] in Hp.
    rewrite (ParserFacts.search_from_hit _ _ _ _
               (AmountFacts.amt_at_comma st' post Hr Hpost)).
    rewrite Hp. reflexivity. }
  assert (Hr : Extractor._regex_extract body = Raise ValueError).
  { unfold Extractor._regex_extract, Extractor.claimed_amount_of. rewrite Hm.
    unfold Re.group. cbn [Re.m_caps List.find fst snd Nat.eqb default from_option id].
    replace (4 + String.length pre - (3 + String.length pre))%nat with 1%nat by lia.
    assert (Hg : substring (3 + String.length pre) 1 body = ",").
    { subst body.
      change (String.append "INR," post)
        with (String.append "INR" (String.append "," post)).
      rewrite <- ExtractorFacts.append_assoc.
      replace (3 + String.length pre)%nat
        with (String.length (String.append pre "INR"))
        by (rewrite ReFacts.length_append; cbn; lia).
      apply (AmountFacts.substring_append _ ","). }
    rewrite Hg. cbn [replace_char Ascii.eqb Bool.eqb].
    change (String.append "" "") with "". rewrite Hfloat. reflexivity. }
  split; [exact Hr |].
  intros Hk connect i email Hb.
  assert (He : Extractor.extract email = Raise ValueError).
  { unfold Extractor.extract. rewrite Hb. cbn [mbind res_bind].
    rewrite (ExtractorFacts.extract_body_no_key _ Hk), Hr. reflexivity. }
  split; [exact He |].
  rewrite PipelineFacts.process_one_eq, He. reflexivity.
Qed.

(** X19, a run of the theorem on an email that names the currency
    before a comma. *)
Lemma X19_witness :
  let email : gmap string pyval :=
    <["body" := VStr "Amount due: INR, as agreed"]> ∅ in
  @Extractor.extract Examples.plain_builtins Examples.no_chat email
  = Raise ValueError.
Proof.
  intros email.
  assert (Hpre : Shapes.no_letter_i "Amount due: " = true) by reflexivity.
  assert (Hpost : Shapes.ends_amount " as agreed")
    by (repeat split; discriminate).
  destruct (@X19_comma_amount_raises Examples.plain_builtins Examples.no_chat
              "Amount due: " " as agreed" eq_refl Hpre Hpost) as [_ Hrun].
  exact (proj1 (Hrun eq_refl (fun _ => None) 0%nat email eq_refl)).
Defined.
